(** * Accessibility contrast audit scripts: a shallow embedding

    The development follows three Python scripts of the repository:

    - [scripts/contrast-checker.py]  (module [ContrastChecker]),
    - [check-dialog-contrast.py]     (module [DialogContrast]),
    - [accessibility-audit.py]       (module [AccessibilityAudit]).

    Python values are modelled as follows.  An [int] is a [Z].  A [float] is a
    binary64 number, Rocq's primitive [float], with the IEEE operations of
    [PrimFloat]; their properties are derived from the specification of
    [SpecFloat] through the real values of module [IEEE].  The power
    operator on floats, which Python delegates to the C library, is a
    parameter [pow] of the functions that use it.  A [str] is a [string] whose characters are read as the code
    points 0..255 (the Latin-1 range; every character of a computed style
    serialisation lies in it).  A tuple of ints is a [list Z].  Code that may
    raise returns a [res], and [except Exception] is a match on it. *)

From Stdlib Require Import ZArith Floats String Ascii List Bool Lia Reals Lra.
Import ListNotations.

Set Warnings "-inexact-float".

Local Open Scope string_scope.
Local Open Scope Z_scope.
Local Open Scope list_scope.

(** ** The Python runtime the scripts rely on *)

Module Py.

(** Exceptions the modelled code can raise; all derive from [Exception]. *)
Inductive exn : Type :=
| ValueError
| IndexError
| TypeError
| OverflowError
| ZeroDivisionError
| OSError
| DriverError.

Inductive res (A : Type) : Type :=
| Ok (a : A)
| Raise (e : exn).
Arguments Ok {A} a.
Arguments Raise {A} e.

Definition bind {A B : Type} (m : res A) (k : A -> res B) : res B :=
  match m with
  | Ok a => k a
  | Raise e => Raise e
  end.



(** Code that prints or writes while it runs: its result and the events it
    produced, in order.  After a [Raise] nothing more is produced. *)
Definition io (E A : Type) : Type := (res A * list E)%type.

Definition ioret {E A : Type} (a : A) : io E A := (Ok a, []).

Definition iobind {E A B : Type} (m : io E A) (k : A -> io E B) : io E B :=
  match m with
  | (Ok a, evs) => let '(r, evs') := k a in (r, evs ++ evs')
  | (Raise e, evs) => (Raise e, evs)
  end.

Definition emit {E : Type} (ev : E) : io E unit := (Ok tt, [ev]).

Definition lift {E A : Type} (r : res A) : io E A := (r, []).

(** [for x in l: body(x)] *)
Fixpoint for_each {E A : Type} (body : A -> io E unit) (l : list A) : io E unit :=
  match l with
  | [] => ioret tt
  | a :: l' => iobind (body a) (fun _ => for_each body l')
  end.

Module Import Notations.
  Notation "x <- m ;; k" := (bind m (fun x => k))
    (at level 61, m at next level, right associativity).
  Notation "x <~ m ;; k" := (iobind m (fun x => k))
    (at level 61, m at next level, right associativity).
  Notation "m ;;; k" := (iobind m (fun _ => k))
    (at level 61, right associativity).
End Notations.

(** Evaluate the elements of a generator expression from left to right and
    stop at the first exception. *)
Fixpoint mapM {A B : Type} (f : A -> res B) (l : list A) : res (list B) :=
  match l with
  | [] => Ok []
  | a :: l' => b <- f a ;; bs <- mapM f l' ;; Ok (b :: bs)
  end.

(** *** str *)

Definition code (c : ascii) : Z := Z.of_nat (nat_of_ascii c).

(** [str.isspace] on one character (code points below 256). *)
Definition is_space (c : ascii) : bool :=
  let n := code c in
  ((9 <=? n) && (n <=? 13)) || ((28 <=? n) && (n <=? 32))
  || (n =? 133) || (n =? 160).

(** C's [isspace] in the "C" locale, after the conversion that [int()] and
    [float()] apply to a str: a non-ASCII space has become [' '], the ASCII
    characters are unchanged. *)
Definition is_cspace (c : ascii) : bool :=
  let n := code c in
  ((9 <=? n) && (n <=? 13)) || (n =? 32) || (n =? 133) || (n =? 160).

Definition is_ascii_digit (c : ascii) : bool :=
  let n := code c in (48 <=? n) && (n <=? 57).

(** Characters with the Unicode property Digit among the code points below
    256, the only ones a str holds here: the ASCII digits and the
    superscripts two, three and one. *)
Definition is_unicode_digit (c : ascii) : bool :=
  let n := code c in
  is_ascii_digit c || (n =? 178) || (n =? 179) || (n =? 185).

Fixpoint all_chars (p : ascii -> bool) (s : string) : bool :=
  match s with
  | EmptyString => true
  | String c s' => p c && all_chars p s'
  end.

(** [s.isdigit()] *)
Definition isdigit (s : string) : bool :=
  negb (String.eqb s "") && all_chars is_unicode_digit s.

(** [sub in s] *)
Fixpoint contains (sub s : string) : bool :=
  prefix sub s ||
  match s with
  | EmptyString => false
  | String _ s' => contains sub s'
  end.

(** [s.replace(old, new)] for a non-empty [old]: occurrences are replaced from
    left to right and do not overlap.  [skip] counts the characters of an
    occurrence that are still to be dropped. *)
Fixpoint replace_from (old new : string) (skip : nat) (s : string) : string :=
  match s with
  | EmptyString => EmptyString
  | String c s' =>
      match skip with
      | S k => replace_from old new k s'
      | O =>
          if prefix old s
          then (new ++ replace_from old new (Nat.pred (String.length old)) s')%string
          else String c (replace_from old new 0 s')
      end
  end.

Definition replace (old new s : string) : string := replace_from old new 0 s.

(** [s.split(sep)] for a non-empty [sep]; the result is never empty. *)
Fixpoint split_from (sep : string) (skip : nat) (s : string) : list string :=
  match s with
  | EmptyString => [EmptyString]
  | String c s' =>
      match skip with
      | S k => split_from sep k s'
      | O =>
          if prefix sep s
          then EmptyString :: split_from sep (Nat.pred (String.length sep)) s'
          else
            match split_from sep 0 s' with
            | p :: ps => String c p :: ps
            | [] => [String c EmptyString]
            end
      end
  end.

Definition split (sep s : string) : list string := split_from sep 0 s.

Fixpoint lstrip_by (p : ascii -> bool) (s : string) : string :=
  match s with
  | EmptyString => EmptyString
  | String c s' => if p c then lstrip_by p s' else s
  end.

Fixpoint rstrip_by (p : ascii -> bool) (s : string) : string :=
  match s with
  | EmptyString => EmptyString
  | String c s' =>
      let t := rstrip_by p s' in
      if p c && String.eqb t "" then EmptyString else String c t
  end.

(** [s.strip()] *)
Definition strip (s : string) : string := rstrip_by is_space (lstrip_by is_space s).

(** Truth value of an optional tuple: [None] and [()] are false. *)
Definition truthy {A : Type} (t : option (list A)) : bool :=
  match t with
  | Some (_ :: _) => true
  | _ => false
  end.

(** [s[:n]] *)
Definition take (n : nat) (s : string) : string := substring 0 n s.

(** *** float *)

(** The binary64 number nearest to [(-1)^s * n / d], ties to even, as a
    specification float: the quotient is computed with enough bits and a
    location, then rounded once. *)
Definition round_ratio (s : bool) (n d : positive) : spec_float :=
  let '(q, e, l) := SFdiv_core_binary prec emax (Z.pos n) 0 (Z.pos d) 0 in
  binary_round_aux prec emax s q e l.

(** [a / b] on ints: the correctly rounded quotient. *)
Definition int_truediv (a b : Z) : res float :=
  match b, a with
  | Z0, _ => Raise ZeroDivisionError
  | Z.pos _, Z0 => Ok 0%float
  | Z.neg _, Z0 => Ok (-0)%float
  | _, _ =>
      match round_ratio (xorb (a <? 0) (b <? 0)) (Z.to_pos (Z.abs a)) (Z.to_pos (Z.abs b)) with
      | S754_infinity _ => Raise OverflowError
      | sf => Ok (SF2Prim sf)
      end
  end.

(** [x / y] on floats. *)
Definition float_truediv (x y : float) : res float :=
  if (y =? 0)%float then Raise ZeroDivisionError else Ok (x / y)%float.

(** [max(a, b)] and [min(a, b)]: the second argument replaces the first
    only when it is strictly greater (strictly smaller). *)
Definition max (a b : float) : float := if (a <? b)%float then b else a.
Definition min (a b : float) : float := if (b <? a)%float then b else a.

(** A specification float that is a zero, a positive number or plus
    infinity. *)
Definition nonneg (x : spec_float) : Prop :=
  match x with
  | S754_zero _ => True
  | S754_infinity s | S754_finite s _ _ => s = false
  | S754_nan => False
  end.

(** [n / d] rounded to the nearest integer, ties to even ([d > 0]). *)
Definition rne_div (n d : Z) : Z :=
  let q := n / d in
  match (2 * (n mod d)) ?= d with
  | Lt => q
  | Eq => if Z.even q then q else q + 1
  | Gt => q + 1
  end.

(** [round(x, 2)]: the decimal with two places nearest to the exact value of
    [x] (ties to even), read back as a float. *)
Definition round2 (x : float) : float :=
  match Prim2SF x with
  | S754_finite s m e =>
      let h := if 0 <=? e then 100 * Z.pos m * 2 ^ e
               else rne_div (100 * Z.pos m) (2 ^ (- e)) in
      match h with
      | Z.pos hp => SF2Prim (round_ratio s hp 100)
      | _ => SF2Prim (S754_zero s)
      end
  | _ => x
  end.

(** *** Reading numbers from a str *)

Definition digit_val (c : ascii) : Z := code c - 48.

Fixpoint span_digits (s : string) : list Z * string :=
  match s with
  | EmptyString => ([], EmptyString)
  | String c s' =>
      if is_ascii_digit c
      then let (ds, r) := span_digits s' in (digit_val c :: ds, r)
      else ([], s)
  end.

Definition digits_value (ds : list Z) : Z :=
  fold_left (fun acc d => 10 * acc + d) ds 0.

(** Underscores in a numeric literal: each must stand between two digits.
    [prev] is the character before [s]. *)
Fixpoint drop_underscores (prev : option ascii) (s : string) : option string :=
  let prev_digit := match prev with Some p => is_ascii_digit p | None => false end in
  let prev_under := match prev with Some p => Ascii.eqb p "_" | None => false end in
  match s with
  | EmptyString => if prev_under then None else Some EmptyString
  | String c s' =>
      if Ascii.eqb c "_"
      then if prev_digit then drop_underscores (Some c) s' else None
      else if prev_under && negb (is_ascii_digit c) then None
           else option_map (String c) (drop_underscores (Some c) s')
  end.

(** An optional sign; [true] is minus. *)
Definition read_sign (s : string) : bool * string :=
  match s with
  | String "-" s' => (true, s')
  | String "+" s' => (false, s')
  | _ => (false, s)
  end.

(** [sys.get_int_max_str_digits()], the default of CPython 3.11 and later. *)
Definition int_max_str_digits : nat := 4300.

(** [int(s)] in base ten. *)
Definition int_of_str (s : string) : res Z :=
  let t := rstrip_by is_cspace (lstrip_by is_cspace s) in
  let (neg, r) := read_sign t in
  match drop_underscores None r with
  | None => Raise ValueError
  | Some r' =>
      match span_digits r' with
      | ((_ :: _) as ds, EmptyString) =>
          if Nat.ltb int_max_str_digits (List.length ds) then Raise ValueError
          else Ok (if neg then - digits_value ds else digits_value ds)
      | _ => Raise ValueError
      end
  end.

Definition lower (c : ascii) : ascii :=
  let n := code c in
  if (65 <=? n) && (n <=? 90) then ascii_of_nat (Z.to_nat (n + 32)) else c.

Fixpoint lower_str (s : string) : string :=
  match s with
  | EmptyString => EmptyString
  | String c s' => String (lower c) (lower_str s')
  end.

(** The exponent part of a decimal literal: [e], an optional sign and at
    least one digit.  Without a digit the literal ends before the [e]. *)
Definition read_exponent (s : string) : Z * string :=
  match s with
  | String c s' =>
      if Ascii.eqb (lower c) "e"
      then let (neg, r) := read_sign s' in
           match span_digits r with
           | ((_ :: _) as ds, r') =>
               (if neg then - digits_value ds else digits_value ds, r')
           | _ => (0, s)
           end
      else (0, s)
  | EmptyString => (0, s)
  end.

(** The float nearest to [(-1)^neg * n * 10^k]. *)
Definition decimal_to_float (neg : bool) (n k : Z) : float :=
  match n with
  | Z.pos np =>
      if 0 <=? k
      then SF2Prim (binary_normalize prec emax
                      (if neg then - (n * 10 ^ k) else n * 10 ^ k) 0 false)
      else SF2Prim (round_ratio neg np (Z.to_pos (10 ^ (- k))))
  | _ => if neg then (-0)%float else 0%float
  end.

(** [float(s)] *)
Definition float_of_str (s : string) : res float :=
  let t := rstrip_by is_cspace (lstrip_by is_cspace s) in
  match (if contains "_" t then drop_underscores None t else Some t) with
  | None => Raise ValueError
  | Some u =>
      let (neg, r) := read_sign u in
      let w := lower_str r in
      if String.eqb w "inf" || String.eqb w "infinity"
      then Ok (if neg then neg_infinity else infinity)
      else if String.eqb w "nan" then Ok nan
      else
        let (ip, r1) := span_digits r in
        let (fp, r2) := match r1 with
                        | String "." r' => span_digits r'
                        | _ => ([], r1)
                        end in
        match (ip ++ fp)%list with
        | [] => Raise ValueError
        | ds =>
            match read_exponent r2 with
            | (ex, EmptyString) =>
                Ok (decimal_to_float neg (digits_value ds)
                      (ex - Z.of_nat (List.length fp)))
            | _ => Raise ValueError
            end
        end
  end.

(** *** Writing an int *)

(** The decimal digits of [n >= 0], most significant first. *)
Fixpoint decimal_digits (fuel : nat) (n : Z) : list Z :=
  match fuel with
  | O => []
  | S fuel' =>
      if n <? 10 then [n] else decimal_digits fuel' (n / 10) ++ [n mod 10]
  end.

Definition digit_char (d : Z) : ascii := ascii_of_nat (Z.to_nat (48 + d)).

(** [str(n)] *)
Definition str_of_int (n : Z) : string :=
  let ds := decimal_digits (S (Z.to_nat (Z.abs n))) (Z.abs n) in
  let numeral := string_of_list_ascii (map digit_char ds) in
  if n <? 0 then String "-" numeral else numeral.

(** The superscripts two, three and one: digits for [isdigit], but no
    decimal digits, so that [int] rejects them. *)
Definition is_superscript (c : ascii) : bool :=
  let n := code c in (n =? 178) || (n =? 179) || (n =? 185).

(** [sup in s] for one of these superscripts. *)
Definition has_superscript (s : string) : bool :=
  negb (all_chars (fun c => negb (is_superscript c)) s).

(** The characters of an unsigned decimal literal: the digits and the point. *)
Definition is_decimal_char (c : ascii) : bool :=
  is_ascii_digit c || Ascii.eqb c ".".

(** No character of [s] is [o]. *)
Definition lacks (o : ascii) (s : string) : bool :=
  all_chars (fun c => negb (Ascii.eqb c o)) s.

End Py.
Import Py Py.Notations.

(** ** Values of binary64 numbers

    The real number a specification float stands for, and what it means
    for a real number to be located by a shifted mantissa and to be rounded
    to the format. *)

Module IEEE.

(** The power of two of exponent [e]. *)
Definition bpow (e : Z) : R := powerRZ 2 e.

(** The value of a number; zeros, infinities and NaN count as 0. *)
Definition B2R (x : spec_float) : R :=
  match x with
  | S754_finite s m e => ((if s then -1 else 1) * IZR (Z.pos m) * bpow e)%R
  | _ => 0%R
  end.

(** A zero or a positive finite number. *)
Definition finite_nonneg (x : spec_float) : Prop :=
  match x with
  | S754_zero _ | S754_finite false _ _ => True
  | _ => False
  end.

(** The real number [u] lies where the record says: at the mantissa, in
    the lower half above it, at the midpoint, or in the upper half. *)
Definition located (u : R) (mrs : shr_record) : Prop :=
  let m := IZR (shr_m mrs) in
  match shr_r mrs, shr_s mrs with
  | false, false => u = m
  | false, true => (m < u < m + 1 / 2)%R
  | true, false => u = (m + 1 / 2)%R
  | true, true => (m + 1 / 2 < u < m + 1)%R
  end.

(** The exponent of the format for a number of magnitude [mag]. *)
Definition fexp64 (mag : Z) : Z := Z.max (mag - 53) (-1074).

(** [r] is a multiple of the unit of the binade [mag] of [x], at most half
    a unit away from [x]. *)
Definition rounds_to (x : R) (mag : Z) (r : R) : Prop :=
  (bpow (mag - 1) <= x)%R
  /\ exists k : Z,
       r = (IZR k * bpow (fexp64 mag))%R
       /\ (-1 / 2 <= IZR k - x * bpow (- fexp64 mag) <= 1 / 2)%R.

(** The result [r] of an operation whose exact result is [x]: [x] itself,
    or [x] rounded. *)
Definition rounded (x r : R) : Prop := r = x \/ exists mag, rounds_to x mag r.

(** The location of the remainder [r] of a division by [n], and the core of
    the division of two mantissas, written with the integer operations of
    the standard library. *)
Definition new_loc (n r : Z) : location :=
  if r =? 0 then loc_Exact
  else if Z.even n then loc_Inexact (2 * r ?= n)
       else loc_Inexact (match 2 * r + 1 ?= n with Gt => Gt | _ => Lt end).

Definition div_core (m1 e1 m2 e2 : Z) : Z * Z * location :=
  let e' := Z.min (fexp64 (Zdigits2 m1 + e1 - (Zdigits2 m2 + e2))) (e1 - e2) in
  let m' := m1 * 2 ^ (e1 - e2 - e') in
  (m' / m2, e', new_loc m2 (m' mod m2)).

(** The value of a float, and the floats that are zero or positive and
    finite. *)
Definition F2R (x : float) : R := B2R (Prim2SF x).

Definition fin (x : float) : Prop := finite_nonneg (Prim2SF x).

End IEEE.
Import IEEE.

(** ** scripts/contrast-checker.py *)

Module ContrastChecker.

(** What [window.getComputedStyle(el)] and [el.innerText] hold for an element. *)
Record Computed : Type := {
  color : string;
  backgroundColor : string;
  fontSize : string;
  fontWeight : string;
  innerText : option string
}.

(** The page as the driver shows it to one call of [check_element_contrast]:
    [locator(selector).first.is_visible()], the computed style of the first
    match, and the computed [backgroundColor] of its [parentElement] chain,
    nearest ancestor first.  Each call may raise. *)
Record Page : Type := {
  is_visible : string -> res bool;
  computed_style : string -> res Computed;
  ancestor_backgrounds : string -> res (list string)
}.

(** The dict returned for a checked element. *)
Record ContrastCheck : Type := {
  selector : string;
  description : string;
  text : string;
  check_color : string;
  check_backgroundColor : string;
  check_fontSize : string;
  check_fontWeight : string;
  contrastRatio : float;
  required : float;
  passes : bool;
  isLargeText : bool
}.

(** The three shapes [check_element_contrast] returns: [None], the dict of a
    check, or the dict [{'selector', 'error'}]. *)
Inductive check_result : Type :=
| NoResult
| Checked (c : ContrastCheck)
| Errored (sel : string) (e : exn).

Section WithPow.

(** [x ** y] on floats is the C library's [pow]; it raises [OverflowError]
    when the result is out of range. *)
Variable pow : float -> float -> res float.

Definition linearize (c : float) : res float :=
  if (c <=? 0.03928)%float then Ok (c / 12.92)%float
  else pow ((c + 0.055) / 1.055)%float 2.4%float.

Definition get_luminance (r g b : Z) : res float :=
  r <- int_truediv r 255 ;;
  g <- int_truediv g 255 ;;
  b <- int_truediv b 255 ;;
  r <- linearize r ;;
  g <- linearize g ;;
  b <- linearize b ;;
  Ok (0.2126 * r + 0.7152 * g + 0.0722 * b)%float.

Definition get_contrast_ratio (r1 g1 b1 r2 g2 b2 : Z) : res float :=
  l1 <- get_luminance r1 g1 b1 ;;
  l2 <- get_luminance r2 g2 b2 ;;
  let lighter := Py.max l1 l2 in
  let darker := Py.min l1 l2 in
  float_truediv (lighter + 0.05)%float (darker + 0.05)%float.

(** [get_contrast_ratio] applied to the two unpacked tuples: the call needs
    exactly six positional arguments. *)
Definition get_contrast_ratio_star (args : list Z) : res float :=
  match args with
  | [r1; g1; b1; r2; g2; b2] => get_contrast_ratio r1 g1 b1 r2 g2 b2
  | _ => Raise TypeError
  end.

End WithPow.

(** An RGB colour: three channels between 0 and 255. *)
Definition channel (c : Z) : Prop := 0 <= c <= 255.

Definition rgb (r g b : Z) : Prop := channel r /\ channel g /\ channel b.

(** The property of the C library's [pow] the results below rest on: for
    the exponent 2.4 it maps the interval (0, 1] into [0, 1], without
    raising. *)
Definition pow_unit (pow : float -> float -> res float) : Prop :=
  forall x : float,
    (0 <? x)%float = true -> (x <=? 1)%float = true ->
    exists v : float,
      pow x 2.4%float = Ok v
      /\ (0 <=? v)%float = true /\ (v <=? 1)%float = true.

(** The argument [linearize] passes to [pow]. *)
Definition pow_base (c : float) : float := ((c + 0.055) / 1.055)%float.

(** What [linearize] does with the channel [c], decided by evaluation: the
    quotient by 255 exists, and either the linear branch is taken and its
    value lies in [0, 1], or [pow] is called on an argument in (0, 1]. *)
Definition channel_ok (c : Z) : bool :=
  match int_truediv c 255 with
  | Ok x =>
      if (x <=? 0.03928)%float
      then (0 <=? x / 12.92)%float && (x / 12.92 <=? 1)%float
      else (0 <? pow_base x)%float && (pow_base x <=? 1)%float
  | Raise _ => false
  end.

Definition parse_rgb (color_string : string) : res (option (list Z)) :=
  if String.eqb color_string "" || String.eqb color_string "rgba(0, 0, 0, 0)"
  then Ok None
  else if contains "rgba" color_string then
    let parts := split "," (replace ")" "" (replace "rgba(" "" color_string)) in
    transparent <-
      (if Nat.leb 4 (List.length parts)
       then a <- float_of_str (strip (nth 3 parts "")) ;; Ok (a =? 0)%float
       else Ok false) ;;
    if (transparent : bool) then Ok None
    else
      t <- mapM (fun i => match nth_error parts i with
                          | Some p => int_of_str (strip p)
                          | None => Raise IndexError
                          end) [0; 1; 2]%nat ;;
      Ok (Some t)
  else if contains "rgb" color_string then
    let parts := split "," (replace ")" "" (replace "rgb(" "" color_string)) in
    t <- mapM (fun p => int_of_str (strip p)) (firstn 3 parts) ;;
    Ok (Some t)
  else Ok None.

(** The script evaluated in the page when the element's own background is
    transparent: walk the [parentElement] chain and return the first computed
    background that is non-empty and differs from ['rgba(0, 0, 0, 0)']; at the
    root, white. *)
Fixpoint find_parent_bg (ancestors : list string) : string :=
  match ancestors with
  | [] => "rgb(255, 255, 255)"
  | bg :: rest =>
      if negb (String.eqb bg "") && negb (String.eqb bg "rgba(0, 0, 0, 0)")
      then bg
      else find_parent_bg rest
  end.

(** The [text] entry of the style dict: [el.innerText?.substring(0, 100) || '']. *)
Definition text_of (c : Computed) : string :=
  match innerText c with
  | Some t => substring 0 100 t
  | None => ""
  end.

(** One job of [main]: a selector and its description. *)
Record SelectorInfo : Type := {
  info_selector : string;
  info_description : string
}.

Record Check : Type := {
  url : string;
  name : string;
  selectors : list SelectorInfo
}.

(** The browser session: launching, navigating (which yields the page the
    later calls see, or raises on failure or timeout) and closing. *)
Record Browser : Type := {
  launch : res unit;
  goto : string -> res Page;
  close : res unit
}.

(** What the run prints and writes, in order. *)
Inductive event : Type :=
| PrintChecking (name : string)
| PrintCheck (c : ContrastCheck)
| PrintFails
| PrintError (e : exn)
| PrintSummary (total passing failing : nat)
| PrintIssue (c : ContrastCheck)
| WriteReport (path : string) (report : list ContrastCheck)
| PrintSaved (path : string).

(** The event of writing the report. *)
Definition is_write (ev : event) : Prop :=
  match ev with
  | WriteReport _ _ => True
  | _ => False
  end.

Section Audit.

Variable pow : float -> float -> res float.

(** The effective background: the element's own when it parsed to a colour,
    otherwise the one found by the walk over the ancestors, parsed. *)
Definition resolve_background (page : Page) (sel : string)
  (bg_color : option (list Z)) : res (option (list Z)) :=
  if negb (truthy bg_color)
  then bgs <- ancestor_backgrounds page sel ;; parse_rgb (find_parent_bg bgs)
  else Ok bg_color.

(** Large text: 18pt and more, or 14pt and more in bold (24px, 18.66px). *)
Definition is_large (font_size : float) (font_weight : Z) : bool :=
  (24 <=? font_size)%float
  || ((18.66 <=? font_size)%float && (700 <=? font_weight)).

(** The ratio WCAG AA requires. *)
Definition min_ratio (large : bool) : float :=
  if large then 3.0%float else 4.5%float.

(** The WCAG AA reading of a record computed from a font size, a font weight
    and a ratio: the large-text flag, the required ratio and the verdict. *)
Definition wcag_aa (c : ContrastCheck) (font_size : float) (font_weight : Z)
  (ratio : float) : Prop :=
  (isLargeText c = true <->
     (24 <=? font_size)%float = true
     \/ ((18.66 <=? font_size)%float = true /\ 700 <= font_weight))
  /\ required c = (if isLargeText c then 3.0%float else 4.5%float)
  /\ (passes c = true <-> (required c <=? ratio)%float = true)
  /\ ((ratio =? required c)%float = true -> passes c = true).

(** The body of the [try] of [check_element_contrast]. *)
Definition check_element_body (page : Page) (sel desc : string)
  : res (option ContrastCheck) :=
  visible <- is_visible page sel ;;
  if negb visible then Ok None
  else
    styles <- computed_style page sel ;;
    fg_color <- parse_rgb (color styles) ;;
    bg_color <- parse_rgb (backgroundColor styles) ;;
    bg_color <- resolve_background page sel bg_color ;;
    match fg_color, bg_color with
    | Some ((_ :: _) as fg), Some ((_ :: _) as bg) =>
        ratio <- get_contrast_ratio_star pow (fg ++ bg)%list ;;
        font_size <- float_of_str (replace "px" "" (fontSize styles)) ;;
        font_weight <-
          (if isdigit (fontWeight styles) then int_of_str (fontWeight styles)
           else Ok 400) ;;
        let large := is_large font_size font_weight in
        let pass := (min_ratio large <=? ratio)%float in
        Ok (Some {| selector := sel;
                    description := desc;
                    text := take 50 (text_of styles);
                    check_color := color styles;
                    check_backgroundColor := backgroundColor styles;
                    check_fontSize := fontSize styles;
                    check_fontWeight := fontWeight styles;
                    contrastRatio := round2 ratio;
                    required := min_ratio large;
                    passes := pass;
                    isLargeText := large |})
    | _, _ => Ok None
    end.

Definition check_element_contrast (page : Page) (sel desc : string)
  : check_result :=
  match check_element_body page sel desc with
  | Ok None => NoResult
  | Ok (Some c) => Checked c
  | Raise e => Errored sel e
  end.

(** The loop of [audit_page_contrast] over the selectors of a page: the
    checks appended to [results], and what is printed. *)
Fixpoint check_selectors (page : Page) (sels : list SelectorInfo)
  : list ContrastCheck * list event :=
  match sels with
  | [] => ([], [])
  | si :: rest =>
      let '(results, evs) := check_selectors page rest in
      match check_element_contrast page (info_selector si) (info_description si) with
      | Checked c =>
          (c :: results,
           (PrintCheck c :: (if passes c then [] else [PrintFails]) ++ evs)%list)
      | _ => (results, evs)
      end
  end.

Definition audit_page_contrast (b : Browser) (url name : string)
  (sels : list SelectorInfo) : list ContrastCheck * list event :=
  match goto b url with
  | Ok page =>
      let '(results, evs) := check_selectors page sels in
      (results, PrintChecking name :: evs)
  | Raise e => ([], [PrintChecking name; PrintError e])
  end.

(** The loop of [main] over the configured pages. *)
Fixpoint audit_all (b : Browser) (checks : list Check)
  : list ContrastCheck * list event :=
  match checks with
  | [] => ([], [])
  | c :: rest =>
      let '(results, evs) := audit_page_contrast b (url c) (name c) (selectors c) in
      let '(all_results, evs') := audit_all b rest in
      ((results ++ all_results)%list, (evs ++ evs')%list)
  end.

Definition failures (all_results : list ContrastCheck) : list ContrastCheck :=
  filter (fun r => negb (passes r)) all_results.

Definition passing (all_results : list ContrastCheck) : list ContrastCheck :=
  filter (fun r => passes r) all_results.

Definition report_path : string := "accessibility-reports/contrast-report.json".

(** [main] over a list of jobs.  [open_w path] tells whether opening [path]
    for writing and dumping the report succeeds.  The result is [Raise e]
    when an exception leaves [main]: the interpreter then exits with a
    traceback and a non-zero status. *)
Definition main_with (checks : list Check) (b : Browser)
  (open_w : string -> res unit) : res unit * list event :=
  match launch b with
  | Raise e => (Raise e, [])
  | Ok _ =>
      let '(all_results, evs) := audit_all b checks in
      match close b with
      | Raise e => (Raise e, evs)
      | Ok _ =>
          let summary :=
            PrintSummary (List.length all_results)
                         (List.length (passing all_results))
                         (List.length (failures all_results))
            :: map PrintIssue (failures all_results) in
          match open_w report_path with
          | Raise e => (Raise e, (evs ++ summary)%list)
          | Ok _ =>
              (Ok tt, (evs ++ summary
                       ++ [WriteReport report_path all_results;
                           PrintSaved report_path])%list)
          end
      end
  end.

Definition checks : list Check :=
  [ {| url := "http://localhost:3000/admin/login";
       name := "Admin Login";
       selectors :=
         [ {| info_selector := "h1, h2, h3"; info_description := "Login page header" |};
           {| info_selector := "label"; info_description := "Form labels (Email/Password)" |};
           {| info_selector := "input::placeholder"; info_description := "Input placeholders" |};
           {| info_selector := "button"; info_description := "Sign In button text" |} ] |};
    {| url := "http://localhost:3000/amenities";
       name := "Amenities Page";
       selectors :=
         [ {| info_selector := "h1"; info_description := "Page title" |};
           {| info_selector := "h2"; info_description := "Section headings" |};
           {| info_selector := "p"; info_description := "Body text" |};
           {| info_selector := "label"; info_description := "Form labels" |} ] |};
    {| url := "http://localhost:3000";
       name := "Home Page";
       selectors :=
         [ {| info_selector := "h1"; info_description := "Main heading" |};
           {| info_selector := "h2"; info_description := "Section headings" |};
           {| info_selector := "p"; info_description := "Body text" |};
           {| info_selector := "nav a"; info_description := "Navigation links" |} ] |} ].

Definition main : Browser -> (string -> res unit) -> res unit * list event :=
  main_with checks.

End Audit.

(** What the script evaluated in the page takes for a transparent
    background: no value, or the computed value ['rgba(0, 0, 0, 0)']. *)
Definition js_transparent (bg : string) : Prop :=
  bg = "" \/ bg = "rgba(0, 0, 0, 0)".

(** The computed value of an opaque colour and of a colour with an alpha
    channel, as browsers serialise them. *)
Definition rgb_string (r g b : Z) : string :=
  ("rgb(" ++ str_of_int r ++ ", " ++ str_of_int g ++ ", " ++ str_of_int b
   ++ ")")%string.

Definition rgba_string (r g b : Z) (alpha : string) : string :=
  ("rgba(" ++ str_of_int r ++ ", " ++ str_of_int g ++ ", " ++ str_of_int b
   ++ ", " ++ alpha ++ ")")%string.

(** Whether a result is the dict of a check. *)
Definition is_checked (r : check_result) : bool :=
  match r with
  | Checked _ => true
  | _ => false
  end.

(** The checks a run printed, in order. *)
Definition printed_checks (evs : list event) : list ContrastCheck :=
  flat_map (fun ev => match ev with
                      | PrintCheck c => [c]
                      | _ => []
                      end) evs.

(** The page with another chain of ancestors. *)
Definition with_ancestors (page : Page) (bgs : string -> res (list string))
  : Page :=
  {| is_visible := is_visible page;
     computed_style := computed_style page;
     ancestor_backgrounds := bgs |}.

Definition is_summary (ev : event) : Prop :=
  match ev with
  | PrintSummary _ _ _ => True
  | _ => False
  end.

End ContrastChecker.

(** ** check-dialog-contrast.py *)

Module DialogContrast.

Section WithPow.

Variable pow : float -> float -> res float.

Definition linearize (c : float) : res float :=
  if (c <=? 0.03928)%float then Ok (c / 12.92)%float
  else pow ((c + 0.055) / 1.055)%float 2.4%float.

Definition get_luminance (r g b : Z) : res float :=
  r <- int_truediv r 255 ;;
  g <- int_truediv g 255 ;;
  b <- int_truediv b 255 ;;
  r <- linearize r ;;
  g <- linearize g ;;
  b <- linearize b ;;
  Ok (0.2126 * r + 0.7152 * g + 0.0722 * b)%float.

Definition get_contrast_ratio (r1 g1 b1 r2 g2 b2 : Z) : res float :=
  l1 <- get_luminance r1 g1 b1 ;;
  l2 <- get_luminance r2 g2 b2 ;;
  let lighter := Py.max l1 l2 in
  let darker := Py.min l1 l2 in
  float_truediv (lighter + 0.05)%float (darker + 0.05)%float.

Definition text_inverse : Z * Z * Z := (6, 37, 28).
Definition surface_elevated : Z * Z * Z := (13, 69, 56).
Definition warning_bg : Z * Z * Z := (92, 163, 184).

(** The ratio the script prints for the guest name. *)
Definition ratio : res float :=
  let '(r1, g1, b1) := text_inverse in
  let '(r2, g2, b2) := surface_elevated in
  get_contrast_ratio r1 g1 b1 r2 g2 b2.

(** What the script prints for the guest name: the ratio and the two
    verdicts, for normal and for large text ([true] is PASS). *)
Definition guest_name : res (float * bool * bool) :=
  q <- ratio ;;
  Ok (q, (4.5 <=? q)%float, (3.0 <=? q)%float).

End WithPow.

End DialogContrast.

(** ** accessibility-audit.py *)

Module AccessibilityAudit.

(** The result of axe-core as the script reads it.  A key may be absent
    ([None]); a value that is present has the type of axe-core's result
    format. *)
Record Node : Type := {
  target : option (list string);
  html : option string;
  failureSummary : option string
}.

Record Violation : Type := {
  id : option string;
  help : option string;
  impact : option string;
  nodes : option (list Node)
}.

(** What [run_axe_audit] returns: a dict with the key ['error'], or a result
    dict without it. *)
Inductive AxeResults : Type :=
| AxeError (message : string)
| AxeReport (violations : option (list Violation)).

(** The loaded page: taking the screenshot, injecting axe-core and running
    it are calls to the driver and may raise. *)
Record Page : Type := {
  screenshot : string -> res unit;
  inject_axe : res unit;
  run_axe_audit : res AxeResults
}.

Record Browser : Type := {
  launch : res unit;
  goto : string -> res Page;
  close : res unit
}.

(** The file system: creating the report directory and writing a file. *)
Record Files : Type := {
  mkdir : string -> res unit;
  open_w : string -> res unit
}.

(** The dict [audit_page] returns for an audited page. *)
Record PageResult : Type := {
  name : string;
  url : string;
  total_violations : nat;
  contrast_violations : nat;
  violations : list Violation
}.

Inductive event : Type :=
| PrintAuditing (url : string)
| PrintScreenshot (path : string)
| PrintAxeError (message : string)
| WriteJson (path : string) (results : option (list Violation))
| PrintCounts (total contrast : nat)
| PrintViolation (help impact : string) (affected : nat)
| PrintElement (idx : nat) (target html : string)
| PrintFailureLine (line : string)
| PrintError (e : exn)
| PrintPageSummary (name : string) (total contrast : nat)
| PrintTotals (total contrast : nat)
| PrintSaved.

Definition reports_dir : string := "accessibility-reports".

Definition get {A : Type} (field : option A) (default : A) : A :=
  match field with
  | Some a => a
  | None => default
  end.

Definition pages_to_audit : list (string * string) :=
  [ ("http://localhost:3000", "home");
    ("http://localhost:3000/admin/login", "admin-login");
    ("http://localhost:3000/admin", "admin-dashboard");
    ("http://localhost:3000/amenities", "amenities") ].

(** The lines printed for one affected element. *)
Definition show_node (idx : nat) (node : Node) : io event unit :=
  tgt <~ lift (match get (target node) ["unknown"] with
               | t :: _ => Ok t
               | [] => Raise IndexError
               end) ;;
  let failure := get (failureSummary node) "" in
  emit (PrintElement idx tgt (take 80 (get (html node) ""))) ;;;
  for_each (fun line => if String.eqb (strip line) "" then ioret tt
                        else emit (PrintFailureLine (strip line)))
           (if String.eqb failure "" then []
            else firstn 3 (split (String "010"%char EmptyString) failure)).

Fixpoint show_nodes (idx : nat) (l : list Node) : io event unit :=
  match l with
  | [] => ioret tt
  | node :: l' => show_node idx node ;;; show_nodes (S idx) l'
  end.

(** The lines printed for one contrast violation.  The event holds the
    impact as the scan gives it; the script prints it in upper case. *)
Definition show_violation (v : Violation) : io event unit :=
  emit (PrintViolation (get (help v) "Color contrast issue")
                       (get (impact v) "unknown")
                       (List.length (get (nodes v) []))) ;;;
  show_nodes 1 (firstn 5 (get (nodes v) [])).

(** The body of the [try] of [audit_page].  The paths are the report
    directory, a slash and the file name: what [reports_dir / f'{name}.png']
    gives for a name that is a plain file name, as are those [main]
    passes. *)
Definition audit_page_body (b : Browser) (fs : Files) (url name : string)
  : io event (option PageResult) :=
  page <~ lift (goto b url) ;;
  lift (mkdir fs reports_dir) ;;;
  let screenshot_path := (reports_dir ++ "/" ++ name ++ ".png")%string in
  lift (screenshot page screenshot_path) ;;;
  emit (PrintScreenshot screenshot_path) ;;;
  lift (inject_axe page) ;;;
  axe_results <~ lift (run_axe_audit page) ;;
  match axe_results with
  | AxeError message => emit (PrintAxeError message) ;;; ioret None
  | AxeReport vs =>
      let json_path := (reports_dir ++ "/" ++ name ++ ".json")%string in
      lift (open_w fs json_path) ;;;
      emit (WriteJson json_path vs) ;;;
      let violations := get vs [] in
      let contrast_violations :=
        filter (fun v => contains "color-contrast" (get (id v) "")) violations in
      emit (PrintCounts (List.length violations) (List.length contrast_violations)) ;;;
      for_each show_violation contrast_violations ;;;
      ioret (Some {| name := name;
                     url := url;
                     total_violations := List.length violations;
                     contrast_violations := List.length contrast_violations;
                     violations := violations |})
  end.

(** [audit_page]: any exception of the body is printed and turned into [None]. *)
Definition audit_page (b : Browser) (fs : Files) (url name : string)
  : option PageResult * list event :=
  match audit_page_body b fs url name with
  | (Ok r, evs) => (r, PrintAuditing url :: evs)
  | (Raise e, evs) => (None, PrintAuditing url :: evs ++ [PrintError e])
  end.

(** The loop of [main]: a page whose result is [None] appends nothing. *)
Fixpoint audit_pages (b : Browser) (fs : Files) (pages : list (string * string))
  : list PageResult * list event :=
  match pages with
  | [] => ([], [])
  | (url, name) :: rest =>
      let '(result, evs) := audit_page b fs url name in
      let '(results, evs') := audit_pages b fs rest in
      (match result with
       | Some r => r :: results
       | None => results
       end, evs ++ evs')
  end.

Definition sum (l : list nat) : nat := fold_left Nat.add l 0%nat.

Definition main_with (pages : list (string * string)) (b : Browser) (fs : Files)
  : res unit * list event :=
  match launch b with
  | Raise e => (Raise e, [])
  | Ok _ =>
      let '(results, evs) := audit_pages b fs pages in
      match close b with
      | Raise e => (Raise e, evs)
      | Ok _ =>
          (Ok tt,
           evs
           ++ map (fun r => PrintPageSummary (name r) (total_violations r)
                              (contrast_violations r)) results
           ++ [PrintTotals (sum (map total_violations results))
                           (sum (map contrast_violations results));
               PrintSaved])
      end
  end.

Definition main : Browser -> Files -> res unit * list event :=
  main_with pages_to_audit.

(** A value of the data given to [analyze_contrast_issues]: a str, or a
    value that cannot be sliced, such as a number. *)
Inductive Value : Type :=
| Str (s : string)
| Number (n : Z).

(** An entry of that list: a dict whose keys ['tag'], ['text'] and ['html']
    may be absent, or a value that is not a dict. *)
Inductive Element : Type :=
| ElementDict (tag text html : option Value)
| NotADict.

Record ContrastIssue : Type := {
  element : Value;
  issue_text : string;
  snippet : string
}.

(** [v[:n]] *)
Definition slice (n : nat) (v : Value) : res string :=
  match v with
  | Str s => Ok (take n s)
  | Number _ => Raise TypeError
  end.

(** The body of the [try] of [analyze_contrast_issues]: the dict that is
    appended. *)
Definition contrast_issue (elem : Element) : res ContrastIssue :=
  match elem with
  | ElementDict tag text html =>
      t <- slice 50 (get text (Str "")) ;;
      h <- slice 100 (get html (Str "")) ;;
      Ok {| element := get tag (Str "unknown"); issue_text := t; snippet := h |}
  | NotADict => Raise TypeError
  end.

(** [analyze_contrast_issues]: an entry on which the body raises is passed
    over by the bare [except]. *)
Fixpoint analyze_contrast_issues (elements_html : list Element)
  : list ContrastIssue :=
  match elements_html with
  | [] => []
  | elem :: rest =>
      match contrast_issue elem with
      | Ok issue => issue :: analyze_contrast_issues rest
      | Raise _ => analyze_contrast_issues rest
      end
  end.

(** A line of counts never shows more contrast violations than
    violations. *)
Definition counts_ok (ev : event) : Prop :=
  match ev with
  | PrintCounts total contrast
  | PrintPageSummary _ total contrast
  | PrintTotals total contrast => (contrast <= total)%nat
  | _ => True
  end.

(** The event of writing the scan of a page. *)
Definition is_json (ev : event) : Prop :=
  match ev with
  | WriteJson _ _ => True
  | _ => False
  end.

(** What holds of a line printed for the nodes of a violation, numbered
    from [lo] to [hi]: an element line has its index in that range and at
    most 80 characters of HTML, a failure line is not empty. *)
Definition line_ok (lo hi : nat) (ev : event) : Prop :=
  match ev with
  | PrintElement idx _ html =>
      (lo <= idx <= hi)%nat /\ (String.length html <= 80)%nat
  | PrintFailureLine line => line <> ""
  | PrintViolation _ _ _ => True
  | _ => False
  end.

(** The number of failure lines at the head of an output. *)
Fixpoint failure_run (evs : list event) : nat :=
  match evs with
  | PrintFailureLine _ :: evs' => S (failure_run evs')
  | _ => 0%nat
  end.

Definition is_element_line (ev : event) : bool :=
  match ev with
  | PrintElement _ _ _ => true
  | _ => false
  end.

Definition is_failure_line (ev : event) : bool :=
  match ev with
  | PrintFailureLine _ => true
  | _ => false
  end.

End AccessibilityAudit.

(** ** Concrete inputs

    A power function, pages and file systems on which the model is run. *)

Module Sample.

(** One step of Newton's iteration for the fifth root of [x]. *)
Definition newton5 (x t : float) : float :=
  ((4 * t + x / (t * t * t * t)) / 5)%float.

Fixpoint iterate (n : nat) (f : float -> float) (t : float) : float :=
  match n with
  | O => t
  | S n' => iterate n' f (f t)
  end.

(** [x ** 2.4] on (0, 1] as [x^2 * (x^(1/5))^2]; a result outside [0, 1] is
    replaced by 1.  The exponent is not inspected: the scripts use no other. *)
Definition pow (x y : float) : res float :=
  let t := iterate 64 (newton5 x) 1%float in
  let v := (x * x * (t * t))%float in
  Ok (if (0 <=? v)%float && (v <=? 1)%float then v else 1%float).

Definition body_text : ContrastChecker.Computed :=
  {| ContrastChecker.color := "rgb(6, 37, 28)";
     ContrastChecker.backgroundColor := "rgb(13, 69, 56)";
     ContrastChecker.fontSize := "16px";
     ContrastChecker.fontWeight := "400";
     ContrastChecker.innerText := Some "Guest name" |}.

(** A heading in white on a transparent background, below transparent
    ancestors, with the weight given as a keyword. *)
Definition heading : ContrastChecker.Computed :=
  {| ContrastChecker.color := "rgb(255, 255, 255)";
     ContrastChecker.backgroundColor := "rgba(0, 0, 0, 0)";
     ContrastChecker.fontSize := "20px";
     ContrastChecker.fontWeight := "bold";
     ContrastChecker.innerText := Some "Welcome" |}.

(** A label whose text colour is fully transparent. *)
Definition ghost_label : ContrastChecker.Computed :=
  {| ContrastChecker.color := "rgba(0, 0, 0, 0)";
     ContrastChecker.backgroundColor := "rgb(13, 69, 56)";
     ContrastChecker.fontSize := "14px";
     ContrastChecker.fontWeight := "400";
     ContrastChecker.innerText := Some "Email" |}.

(** A page with a paragraph, a heading and a label; other selectors match
    nothing visible. *)
(** The records [check_element_contrast] builds for [body_text] and
    [heading]. *)
Definition body_record : ContrastChecker.ContrastCheck :=
  {| ContrastChecker.selector := "p";
     ContrastChecker.description := "Body text";
     ContrastChecker.text := "Guest name";
     ContrastChecker.check_color := "rgb(6, 37, 28)";
     ContrastChecker.check_backgroundColor := "rgb(13, 69, 56)";
     ContrastChecker.check_fontSize := "16px";
     ContrastChecker.check_fontWeight := "400";
     ContrastChecker.contrastRatio := 1.49%float;
     ContrastChecker.required := 4.5%float;
     ContrastChecker.passes := false;
     ContrastChecker.isLargeText := false |}.

Definition heading_record : ContrastChecker.ContrastCheck :=
  {| ContrastChecker.selector := "h1";
     ContrastChecker.description := "Main heading";
     ContrastChecker.text := "Welcome";
     ContrastChecker.check_color := "rgb(255, 255, 255)";
     ContrastChecker.check_backgroundColor := "rgba(0, 0, 0, 0)";
     ContrastChecker.check_fontSize := "20px";
     ContrastChecker.check_fontWeight := "bold";
     ContrastChecker.contrastRatio := 1%float;
     ContrastChecker.required := 4.5%float;
     ContrastChecker.passes := false;
     ContrastChecker.isLargeText := false |}.

Definition page : ContrastChecker.Page :=
  {| ContrastChecker.is_visible := fun sel =>
       Ok (String.eqb sel "p" || String.eqb sel "h1" || String.eqb sel "label");
     ContrastChecker.computed_style := fun sel =>
       if String.eqb sel "p" then Ok body_text
       else if String.eqb sel "h1" then Ok heading
       else if String.eqb sel "label" then Ok ghost_label
       else Raise DriverError;
     ContrastChecker.ancestor_backgrounds := fun sel =>
       Ok ["rgba(0, 0, 0, 0)"; ""; "rgba(0, 0, 0, 0)"] |}.

Definition browser : ContrastChecker.Browser :=
  {| ContrastChecker.launch := Ok tt;
     ContrastChecker.goto := fun _ => Ok page;
     ContrastChecker.close := Ok tt |}.

(** A page on which axe-core reports an error. *)
Definition scanner_fails : AccessibilityAudit.Page :=
  {| AccessibilityAudit.screenshot := fun _ => Ok tt;
     AccessibilityAudit.inject_axe := Ok tt;
     AccessibilityAudit.run_axe_audit := Ok (AccessibilityAudit.AxeError "axe is not defined") |}.

Definition contrast_violation : AccessibilityAudit.Violation :=
  {| AccessibilityAudit.id := Some "color-contrast";
     AccessibilityAudit.help := Some "Elements must meet minimum color contrast ratio thresholds";
     AccessibilityAudit.impact := Some "serious";
     AccessibilityAudit.nodes :=
       Some [ {| AccessibilityAudit.target := Some ["p"];
                 AccessibilityAudit.html := Some "<p>Guest name</p>";
                 AccessibilityAudit.failureSummary := Some "Fix any of the following:" |} ] |}.

(** A page on which axe-core reports one contrast violation. *)
Definition scanned : AccessibilityAudit.Page :=
  {| AccessibilityAudit.screenshot := fun _ => Ok tt;
     AccessibilityAudit.inject_axe := Ok tt;
     AccessibilityAudit.run_axe_audit :=
       Ok (AccessibilityAudit.AxeReport (Some [contrast_violation])) |}.

(** The scanner fails on the home page and succeeds elsewhere. *)
Definition audit_browser : AccessibilityAudit.Browser :=
  {| AccessibilityAudit.launch := Ok tt;
     AccessibilityAudit.goto := fun url =>
       Ok (if String.eqb url "http://localhost:3000" then scanner_fails else scanned);
     AccessibilityAudit.close := Ok tt |}.

(** Every page is scanned successfully. *)
Definition scanning_browser : AccessibilityAudit.Browser :=
  {| AccessibilityAudit.launch := Ok tt;
     AccessibilityAudit.goto := fun _ => Ok scanned;
     AccessibilityAudit.close := Ok tt |}.

Definition writable : AccessibilityAudit.Files :=
  {| AccessibilityAudit.mkdir := fun _ => Ok tt;
     AccessibilityAudit.open_w := fun _ => Ok tt |}.

(** The report directory exists but no file can be written. *)
Definition read_only : AccessibilityAudit.Files :=
  {| AccessibilityAudit.mkdir := fun _ => Ok tt;
     AccessibilityAudit.open_w := fun _ => Raise OSError |}.

(** A heading on a transparent background whose third ancestor is
    painted. *)
Definition nested_page : ContrastChecker.Page :=
  {| ContrastChecker.is_visible := fun _ => Ok true;
     ContrastChecker.computed_style := fun _ => Ok heading;
     ContrastChecker.ancestor_backgrounds := fun _ =>
       Ok ["rgba(0, 0, 0, 0)"; ""; "rgb(13, 69, 56)"; "rgb(0, 0, 0)"] |}.

(** The same heading below an ancestor painted in white of alpha zero. *)
Definition veiled_page : ContrastChecker.Page :=
  {| ContrastChecker.is_visible := fun _ => Ok true;
     ContrastChecker.computed_style := fun _ => Ok heading;
     ContrastChecker.ancestor_backgrounds := fun _ =>
       Ok ["rgba(0, 0, 0, 0)"; "rgba(255, 255, 255, 0)"; "rgb(13, 69, 56)"] |}.


(** A paragraph whose background is malformed, and one on a transparent
    background below a malformed ancestor. *)
Definition bad_background : ContrastChecker.Computed :=
  {| ContrastChecker.color := "rgb(6, 37, 28)";
     ContrastChecker.backgroundColor := "rgb(a, b, c)";
     ContrastChecker.fontSize := "16px";
     ContrastChecker.fontWeight := "400";
     ContrastChecker.innerText := None |}.

Definition bad_background_page : ContrastChecker.Page :=
  {| ContrastChecker.is_visible := fun _ => Ok true;
     ContrastChecker.computed_style := fun _ => Ok bad_background;
     ContrastChecker.ancestor_backgrounds := fun _ => Ok [] |}.

Definition bad_ancestor_page : ContrastChecker.Page :=
  {| ContrastChecker.is_visible := fun _ => Ok true;
     ContrastChecker.computed_style := fun _ => Ok heading;
     ContrastChecker.ancestor_backgrounds := fun _ =>
       Ok ["rgba(0, 0, 0, 0)"; "rgb(a, b, c)"] |}.

(** A text colour with two channels. *)
Definition short_color : ContrastChecker.Computed :=
  {| ContrastChecker.color := "rgb(1, 2)";
     ContrastChecker.backgroundColor := "rgb(13, 69, 56)";
     ContrastChecker.fontSize := "16px";
     ContrastChecker.fontWeight := "400";
     ContrastChecker.innerText := Some "Guest name" |}.

Definition short_color_page : ContrastChecker.Page :=
  {| ContrastChecker.is_visible := fun _ => Ok true;
     ContrastChecker.computed_style := fun _ => Ok short_color;
     ContrastChecker.ancestor_backgrounds := fun _ => Ok [] |}.

(** A font weight written with a superscript two. *)
Definition odd_weight : ContrastChecker.Computed :=
  {| ContrastChecker.color := "rgb(6, 37, 28)";
     ContrastChecker.backgroundColor := "rgb(13, 69, 56)";
     ContrastChecker.fontSize := "16px";
     ContrastChecker.fontWeight := String (ascii_of_nat 178) "";
     ContrastChecker.innerText := Some "Guest name" |}.

Definition odd_weight_page : ContrastChecker.Page :=
  {| ContrastChecker.is_visible := fun _ => Ok true;
     ContrastChecker.computed_style := fun _ => Ok odd_weight;
     ContrastChecker.ancestor_backgrounds := fun _ => Ok [] |}.

(** The amenities page cannot be reached. *)
Definition offline_browser : ContrastChecker.Browser :=
  {| ContrastChecker.launch := Ok tt;
     ContrastChecker.goto := fun url =>
       if String.eqb url "http://localhost:3000/amenities" then Raise DriverError
       else Ok page;
     ContrastChecker.close := Ok tt |}.

Definition amenities_check : ContrastChecker.Check :=
  {| ContrastChecker.url := "http://localhost:3000/amenities";
     ContrastChecker.name := "Amenities Page";
     ContrastChecker.selectors :=
       [ {| ContrastChecker.info_selector := "h1";
            ContrastChecker.info_description := "Page title" |} ] |}.

(** A contrast violation whose second node has an empty target. *)
Definition untargeted_violation : AccessibilityAudit.Violation :=
  {| AccessibilityAudit.id := Some "color-contrast";
     AccessibilityAudit.help := None;
     AccessibilityAudit.impact := Some "serious";
     AccessibilityAudit.nodes :=
       Some [ {| AccessibilityAudit.target := Some ["p"];
                 AccessibilityAudit.html := Some "<p>Guest name</p>";
                 AccessibilityAudit.failureSummary := None |};
              {| AccessibilityAudit.target := Some [];
                 AccessibilityAudit.html := None;
                 AccessibilityAudit.failureSummary := None |} ] |}.

Definition untargeted : AccessibilityAudit.Page :=
  {| AccessibilityAudit.screenshot := fun _ => Ok tt;
     AccessibilityAudit.inject_axe := Ok tt;
     AccessibilityAudit.run_axe_audit :=
       Ok (AccessibilityAudit.AxeReport
             (Some [contrast_violation; untargeted_violation])) |}.

Definition untargeted_browser : AccessibilityAudit.Browser :=
  {| AccessibilityAudit.launch := Ok tt;
     AccessibilityAudit.goto := fun _ => Ok untargeted;
     AccessibilityAudit.close := Ok tt |}.

End Sample.

(** ** Properties *)

(** *** Comparison of floats *)

Module FloatFacts.

Lemma compare_cont_Eq (m1 m2 : positive) :
  Pos.compare_cont Eq m1 m2 = Eq -> m1 = m2.
Proof. apply Pos.compare_eq. Qed.

(** Two numbers that compare equal are the same specification float, or are
    both zeros. *)
Lemma SFcompare_Eq (x y : spec_float) :
  SFcompare x y = Some Eq ->
  x = y \/ (exists s s', x = S754_zero s /\ y = S754_zero s').
Proof.
  destruct x as [s | s | | s m e], y as [s' | s' | | s' m' e']; simpl;
    intros H; try discriminate H;
    try (right; exists s, s'; split; reflexivity);
    try (destruct s; discriminate H); try (destruct s'; discriminate H).
  - destruct s, s'; try discriminate H; left; reflexivity.
  - destruct s, s'; try discriminate H;
      destruct (Z.compare_spec e e') as [He | He | He]; try discriminate H;
      injection H as H; subst e'.
    + apply (f_equal CompOpp) in H. rewrite CompOpp_involutive in H.
      simpl in H. apply compare_cont_Eq in H. subst. left. reflexivity.
    + apply compare_cont_Eq in H. subst. left. reflexivity.
Qed.

Lemma SFcompare_refl_Eq (x : spec_float) :
  x <> S754_nan -> SFcompare x x = Some Eq.
Proof.
  destruct x as [s | s | | s m e]; simpl; intros H.
  - reflexivity.
  - destruct s; reflexivity.
  - contradiction.
  - rewrite Z.compare_refl. destruct s; simpl.
    + replace (Pos.compare_cont Eq m m) with Eq; [reflexivity |].
      symmetry. apply Pos.compare_refl.
    + f_equal. apply Pos.compare_refl.
Qed.

(** [ratio == threshold] implies [ratio >= threshold]. *)
Lemma eqb_leb (x y : float) : (x =? y)%float = true -> (y <=? x)%float = true.
Proof.
  rewrite FloatAxioms.eqb_spec, FloatAxioms.leb_spec. unfold SFeqb, SFleb.
  destruct (SFcompare (Prim2SF x) (Prim2SF y)) as [[ | | ] | ] eqn:H;
    try discriminate.
  intros _. pose proof H as H0. apply SFcompare_Eq in H.
  destruct H as [H | (s & s' & Hx & Hy)].
  - rewrite H in *. rewrite SFcompare_refl_Eq; [reflexivity |].
    intros Hn. rewrite Hn in H0. discriminate H0.
  - rewrite Hx, Hy. reflexivity.
Qed.

End FloatFacts.

(** *** The two copies of the ratio *)

(** C9: the contrast-ratio function of the manual contrast checker and the
    one of the dialog-contrast script return the same value on every pair
    of RGB inputs (for the same power function of the runtime). *)
Theorem get_contrast_ratio_copies_agree :
  forall (pow : float -> float -> res float) (r1 g1 b1 r2 g2 b2 : Z),
    ContrastChecker.get_contrast_ratio pow r1 g1 b1 r2 g2 b2
    = DialogContrast.get_contrast_ratio pow r1 g1 b1 r2 g2 b2.
Proof.
  intros pow r1 g1 b1 r2 g2 b2.
  unfold ContrastChecker.get_contrast_ratio, DialogContrast.get_contrast_ratio.
  unfold ContrastChecker.get_luminance, DialogContrast.get_luminance.
  unfold ContrastChecker.linearize, DialogContrast.linearize.
  reflexivity.
Qed.

(** *** The check record *)

Module CheckFacts.
Import ContrastChecker.

Lemma is_large_iff (font_size : float) (font_weight : Z) :
  is_large font_size font_weight = true <->
  (24 <=? font_size)%float = true
  \/ ((18.66 <=? font_size)%float = true /\ 700 <= font_weight).
Proof.
  unfold is_large. rewrite orb_true_iff, andb_true_iff, Z.leb_le. tauto.
Qed.

Lemma is_large_normal_weight (font_size : float) :
  is_large font_size 400 = (24 <=? font_size)%float.
Proof.
  unfold is_large. replace (700 <=? 400) with false by reflexivity.
  rewrite andb_false_r, orb_false_r. reflexivity.
Qed.

Section WithPow.

Variable pow : float -> float -> res float.

(** What a recorded check was computed from. *)
Lemma checked_inv (page : Page) (sel desc : string) (c : ContrastCheck) :
  check_element_contrast pow page sel desc = Checked c ->
  exists styles fg bg ratio font_size font_weight,
    computed_style page sel = Ok styles /\
    parse_rgb (color styles) = Ok (Some fg) /\
    (bg0 <- parse_rgb (backgroundColor styles) ;; resolve_background page sel bg0)
      = Ok (Some bg) /\
    get_contrast_ratio_star pow (fg ++ bg) = Ok ratio /\
    float_of_str (replace "px" "" (fontSize styles)) = Ok font_size /\
    (if isdigit (fontWeight styles) then int_of_str (fontWeight styles) else Ok 400)
      = Ok font_weight /\
    c = {| selector := sel;
           description := desc;
           text := take 50 (text_of styles);
           check_color := color styles;
           check_backgroundColor := backgroundColor styles;
           check_fontSize := fontSize styles;
           check_fontWeight := fontWeight styles;
           contrastRatio := round2 ratio;
           required := min_ratio (is_large font_size font_weight);
           passes := (min_ratio (is_large font_size font_weight) <=? ratio)%float;
           isLargeText := is_large font_size font_weight |}.
Proof.
  unfold check_element_contrast, check_element_body.
  destruct (is_visible page sel) as [[ | ] | e]; simpl; try discriminate.
  destruct (computed_style page sel) as [styles | e]; simpl; try discriminate.
  destruct (parse_rgb (color styles)) as [fgc | e] eqn:Hfg; simpl;
    try discriminate.
  destruct (parse_rgb (backgroundColor styles)) as [bg0 | e] eqn:Hbg0; simpl;
    try discriminate.
  destruct (resolve_background page sel bg0) as [bgc | e] eqn:Hbg; simpl;
    try discriminate.
  destruct fgc as [[ | f fg] | ]; try discriminate.
  destruct bgc as [[ | b bg] | ]; try discriminate.
  destruct (get_contrast_ratio_star pow ((f :: fg) ++ b :: bg)) as [ratio | e] eqn:Hr;
    simpl; try discriminate.
  destruct (float_of_str (replace "px" "" (fontSize styles))) as [fs | e] eqn:Hfs;
    simpl; try discriminate.
  destruct (if isdigit (fontWeight styles) then int_of_str (fontWeight styles)
            else Ok 400) as [fw | e] eqn:Hfw; simpl; try discriminate.
  intros H. injection H as H.
  exists styles, (f :: fg), (b :: bg), ratio, fs, fw.
  rewrite Hbg0. simpl. rewrite Hfs.
  repeat split; try reflexivity; try assumption. symmetry. exact H.
Qed.

Lemma fst_check_selectors_app (page : Page) (l1 l2 : list SelectorInfo) :
  fst (check_selectors pow page (l1 ++ l2))
  = fst (check_selectors pow page l1) ++ fst (check_selectors pow page l2).
Proof.
  induction l1 as [ | si l1 IH]; simpl.
  - reflexivity.
  - destruct (check_selectors pow page (l1 ++ l2)) as [r evs].
    destruct (check_selectors pow page l1) as [r1 evs1].
    simpl in IH. subst r.
    destruct (check_element_contrast pow page (info_selector si)
                (info_description si)); reflexivity.
Qed.

Lemma fst_check_selectors_skip (page : Page) (si : SelectorInfo)
  (l : list SelectorInfo) :
  (forall c, check_element_contrast pow page (info_selector si)
               (info_description si) <> Checked c) ->
  fst (check_selectors pow page (si :: l)) = fst (check_selectors pow page l).
Proof.
  intros H. simpl. destruct (check_selectors pow page l) as [r evs].
  destruct (check_element_contrast pow page (info_selector si)
              (info_description si)) as [ | c | sel e]; try reflexivity.
  exfalso. apply (H c). reflexivity.
Qed.

End WithPow.

End CheckFacts.

Import ContrastChecker.

(** C1: a recorded check is flagged as large text exactly when the font size
    is at least 24, or at least 18.66 with a weight of at least 700; the
    required ratio is 3.0 for large text and 4.5 otherwise; and the check
    passes exactly when the computed ratio is at least the required one, a
    ratio equal to it included.  The computed ratio is the one of the
    record's text colour against the background resolved for the element,
    the font size and weight are the ones read from the record: they
    exist and whatever satisfies these equations obeys the rule.  The
    record stores the ratio rounded to two places. *)
Theorem check_record_thresholds :
  forall (pow : float -> float -> res float) (page : Page) (sel desc : string)
         (c : ContrastCheck),
    check_element_contrast pow page sel desc = Checked c ->
    (exists (font_size : float) (font_weight : Z) (fg bg : list Z)
            (ratio : float),
       float_of_str (replace "px" "" (check_fontSize c)) = Ok font_size
       /\ (if isdigit (check_fontWeight c) then int_of_str (check_fontWeight c)
           else Ok 400) = Ok font_weight
       /\ parse_rgb (check_color c) = Ok (Some fg)
       /\ (bg0 <- parse_rgb (check_backgroundColor c) ;;
           resolve_background page sel bg0) = Ok (Some bg)
       /\ get_contrast_ratio_star pow (fg ++ bg) = Ok ratio)
    /\ forall (font_size : float) (font_weight : Z) (fg bg : list Z)
              (ratio : float),
         float_of_str (replace "px" "" (check_fontSize c)) = Ok font_size ->
         (if isdigit (check_fontWeight c) then int_of_str (check_fontWeight c)
          else Ok 400) = Ok font_weight ->
         parse_rgb (check_color c) = Ok (Some fg) ->
         (bg0 <- parse_rgb (check_backgroundColor c) ;;
          resolve_background page sel bg0) = Ok (Some bg) ->
         get_contrast_ratio_star pow (fg ++ bg) = Ok ratio ->
         contrastRatio c = round2 ratio
         /\ wcag_aa c font_size font_weight ratio.
Proof.
  intros pow page sel desc c H.
  apply CheckFacts.checked_inv in H.
  destruct H as (styles & fg & bg & ratio & fs & fw & _ & Hfg & Hbg & Hr & Hfs & Hfw & ->).
  cbn [check_fontSize check_fontWeight check_color check_backgroundColor
       contrastRatio].
  split.
  - exists fs, fw, fg, bg, ratio. repeat split; assumption.
  - intros fs' fw' fg' bg' ratio' Hfs' Hfw' Hfg' Hbg' Hr'.
    rewrite Hfs in Hfs'. injection Hfs' as <-.
    rewrite Hfw in Hfw'. injection Hfw' as <-.
    rewrite Hfg in Hfg'. injection Hfg' as <-.
    rewrite Hbg in Hbg'. injection Hbg' as <-.
    rewrite Hr in Hr'. injection Hr' as <-.
    split; [reflexivity |].
    unfold wcag_aa. cbn [isLargeText required passes].
    split; [apply CheckFacts.is_large_iff |].
    split; [destruct (is_large fs fw); reflexivity |].
    split; [tauto | apply FloatFacts.eqb_leb].
Qed.

Lemma check_record_thresholds_witness :
  let c := Sample.body_record in
  (exists (font_size : float) (font_weight : Z) (fg bg : list Z)
          (ratio : float),
     float_of_str (replace "px" "" (check_fontSize c)) = Ok font_size
     /\ (if isdigit (check_fontWeight c) then int_of_str (check_fontWeight c)
         else Ok 400) = Ok font_weight
     /\ parse_rgb (check_color c) = Ok (Some fg)
     /\ (bg0 <- parse_rgb (check_backgroundColor c) ;;
         resolve_background Sample.page "p" bg0) = Ok (Some bg)
     /\ get_contrast_ratio_star Sample.pow (fg ++ bg) = Ok ratio)
  /\ forall (font_size : float) (font_weight : Z) (fg bg : list Z)
            (ratio : float),
       float_of_str (replace "px" "" (check_fontSize c)) = Ok font_size ->
       (if isdigit (check_fontWeight c) then int_of_str (check_fontWeight c)
        else Ok 400) = Ok font_weight ->
       parse_rgb (check_color c) = Ok (Some fg) ->
       (bg0 <- parse_rgb (check_backgroundColor c) ;;
        resolve_background Sample.page "p" bg0) = Ok (Some bg) ->
       get_contrast_ratio_star Sample.pow (fg ++ bg) = Ok ratio ->
       contrastRatio c = round2 ratio
       /\ wcag_aa c font_size font_weight ratio.
Proof.
  intros c.
  apply (check_record_thresholds Sample.pow Sample.page "p" "Body text"
           Sample.body_record).
  vm_compute. reflexivity.
Defined.

(** C10: when the computed font weight is not a string of digits (the
    keyword [bold], say), the weight used is 400, so the record is flagged
    as large text exactly when the font size is at least 24. *)
Theorem keyword_weight_counts_as_400 :
  forall (pow : float -> float -> res float) (page : Page) (sel desc : string)
         (c : ContrastCheck),
    check_element_contrast pow page sel desc = Checked c ->
    isdigit (check_fontWeight c) = false ->
    exists font_size : float,
      float_of_str (replace "px" "" (check_fontSize c)) = Ok font_size
      /\ isLargeText c = is_large font_size 400
      /\ isLargeText c = (24 <=? font_size)%float
      /\ required c = min_ratio (24 <=? font_size)%float.
Proof.
  intros pow page sel desc c H Hd.
  apply CheckFacts.checked_inv in H.
  destruct H as (styles & fg & bg & ratio & fs & fw & _ & _ & _ & _ & Hfs & Hfw & ->).
  simpl in *. rewrite Hd in Hfw. injection Hfw as <-.
  exists fs. rewrite CheckFacts.is_large_normal_weight.
  repeat split; try assumption; reflexivity.
Qed.

Lemma keyword_weight_counts_as_400_witness :
  exists font_size : float,
    float_of_str (replace "px" "" "20px") = Ok font_size
    /\ false = is_large font_size 400
    /\ false = (24 <=? font_size)%float
    /\ 4.5%float = min_ratio (24 <=? font_size)%float.
Proof.
  apply (keyword_weight_counts_as_400 Sample.pow Sample.page "h1" "Main heading"
           Sample.heading_record); vm_compute; reflexivity.
Defined.

(** *** The background resolver *)

Module WalkFacts.
Import ContrastChecker.

Lemma find_parent_bg_app (pre rest : list string) :
  Forall js_transparent pre ->
  find_parent_bg (pre ++ rest) = find_parent_bg rest.
Proof.
  induction 1 as [ | bg pre Hbg _ IH]; simpl.
  - reflexivity.
  - destruct Hbg as [-> | ->]; simpl; exact IH.
Qed.

Lemma find_parent_bg_stop (bg : string) (rest : list string) :
  bg <> "" -> bg <> "rgba(0, 0, 0, 0)" -> find_parent_bg (bg :: rest) = bg.
Proof.
  intros H1 H2. simpl.
  destruct (String.eqb_spec bg ""); [contradiction |].
  destruct (String.eqb_spec bg "rgba(0, 0, 0, 0)"); [contradiction |].
  reflexivity.
Qed.

End WalkFacts.





(** *** Skipped elements *)

(** C6: when the text colour parses to the transparent marker, or the
    background resolves to no colour, no check record is created for the
    element; it is left out of the results of the page, hence of the
    passing and failing totals. *)
Theorem unresolved_colors_are_skipped :
  forall (pow : float -> float -> res float) (page : Page) (si : SelectorInfo)
         (styles : Computed),
    computed_style page (info_selector si) = Ok styles ->
    parse_rgb (color styles) = Ok None
    \/ (bg0 <- parse_rgb (backgroundColor styles) ;;
        resolve_background page (info_selector si) bg0) = Ok None ->
    (forall c, check_element_contrast pow page (info_selector si)
                 (info_description si) <> Checked c)
    /\ forall pre post : list SelectorInfo,
         let with_it := fst (check_selectors pow page (pre ++ si :: post)) in
         let without := fst (check_selectors pow page (pre ++ post)) in
         with_it = without
         /\ List.length (passing with_it) = List.length (passing without)
         /\ List.length (failures with_it) = List.length (failures without).
Proof.
  intros pow page si styles Hst Hun.
  assert (Hno : forall c, check_element_contrast pow page (info_selector si)
                            (info_description si) <> Checked c).
  { intros c Hc. apply CheckFacts.checked_inv in Hc.
    destruct Hc as (styles' & fg & bg & ratio & fs & fw & Hst' & Hfg & Hbg & _).
    rewrite Hst in Hst'. injection Hst' as <-.
    destruct Hun as [Hun | Hun].
    - rewrite Hun in Hfg. discriminate Hfg.
    - rewrite Hun in Hbg. discriminate Hbg. }
  split; [exact Hno |].
  intros pre post. cbv zeta.
  assert (Heq : fst (check_selectors pow page (pre ++ si :: post))
                = fst (check_selectors pow page (pre ++ post))).
  { rewrite !CheckFacts.fst_check_selectors_app.
    rewrite (CheckFacts.fst_check_selectors_skip pow page si post Hno).
    reflexivity. }
  rewrite Heq. repeat split; reflexivity.
Qed.

Lemma unresolved_colors_are_skipped_witness :
  let si := {| info_selector := "label"; info_description := "Form labels" |} in
  (forall c, check_element_contrast Sample.pow Sample.page "label" "Form labels"
             <> Checked c)
  /\ forall pre post : list SelectorInfo,
       let with_it := fst (check_selectors Sample.pow Sample.page (pre ++ si :: post)) in
       let without := fst (check_selectors Sample.pow Sample.page (pre ++ post)) in
       with_it = without
       /\ List.length (passing with_it) = List.length (passing without)
       /\ List.length (failures with_it) = List.length (failures without).
Proof.
  intros si.
  apply (unresolved_colors_are_skipped Sample.pow Sample.page si Sample.ghost_label).
  - vm_compute. reflexivity.
  - left. vm_compute. reflexivity.
Defined.

(** *** The colour parser *)

Module ParseFacts.

Lemma int_of_str_outcomes (s : string) :
  (exists z, int_of_str s = Ok z) \/ int_of_str s = Raise ValueError.
Proof.
  unfold int_of_str.
  destruct (read_sign _) as [neg r].
  destruct (drop_underscores None r) as [r' | ]; [ | right; reflexivity].
  destruct (span_digits r') as [[ | d ds] [ | c rest]];
    try (right; reflexivity).
  destruct (Nat.ltb _ _); [right; reflexivity | left; eexists; reflexivity].
Qed.

Lemma float_of_str_outcomes (s : string) :
  (exists x, float_of_str s = Ok x) \/ float_of_str s = Raise ValueError.
Proof.
  unfold float_of_str.
  destruct (if contains "_" _ then _ else _) as [u | ]; [ | right; reflexivity].
  destruct (read_sign u) as [neg r].
  destruct (_ || _); [left; eexists; reflexivity |].
  destruct (String.eqb _ "nan"); [left; eexists; reflexivity |].
  destruct (span_digits r) as [ip r1].
  destruct (match r1 with String "." r' => span_digits r' | _ => ([], r1) end)
    as [fp r2].
  destruct (ip ++ fp) as [ | d ds]; [right; reflexivity |].
  destruct (read_exponent r2) as [ex [ | c rest]];
    [left; eexists; reflexivity | right; reflexivity].
Qed.

Lemma mapM_length {A B : Type} (f : A -> res B) (l : list A) (t : list B) :
  mapM f l = Ok t -> List.length t = List.length l.
Proof.
  revert t. induction l as [ | a l IH]; simpl; intros t H.
  - injection H as <-. reflexivity.
  - destruct (f a) as [b | e]; simpl in H; [ | discriminate H].
    destruct (mapM f l) as [bs | e]; simpl in H; [ | discriminate H].
    injection H as <-. simpl. rewrite (IH bs eq_refl). reflexivity.
Qed.

(** A generator over [int(...)] or an index yields a tuple or raises one of
    two exceptions. *)
Lemma mapM_outcomes {A B : Type} (f : A -> res B) (l : list A) :
  (forall a, (exists b, f a = Ok b) \/ f a = Raise ValueError
             \/ f a = Raise IndexError) ->
  (exists t, mapM f l = Ok t) \/ mapM f l = Raise ValueError
  \/ mapM f l = Raise IndexError.
Proof.
  intros Hf. induction l as [ | a l IH]; simpl.
  - left. eexists. reflexivity.
  - destruct (Hf a) as [[b ->] | [-> | ->]]; simpl; auto.
    destruct IH as [[t ->] | [-> | ->]]; simpl; auto.
    left. eexists. reflexivity.
Qed.

Lemma split_from_nonempty (sep : string) (skip : nat) (s : string) :
  split_from sep skip s <> [].
Proof.
  revert skip. induction s as [ | c s IH]; intros skip; cbn [split_from].
  - discriminate.
  - destruct skip; [ | apply IH].
    destruct (prefix sep (String c s)); [discriminate |].
    destruct (split_from sep 0 s); discriminate.
Qed.

Lemma prefix_rgba_rgb (s : string) :
  prefix "rgba" s = true -> prefix "rgb" s = true.
Proof.
  destruct s as [ | c1 [ | c2 [ | c3 [ | c4 s]]]]; cbn [prefix];
    repeat match goal with
           | |- context [Ascii.ascii_dec ?a ?b] => destruct (Ascii.ascii_dec a b)
           end; intros H; try discriminate H; try reflexivity.
Qed.

Lemma contains_rgba_rgb (s : string) :
  contains "rgba" s = true -> contains "rgb" s = true.
Proof.
  induction s as [ | c s IH].
  - simpl. discriminate.
  - cbn [contains]. rewrite !orb_true_iff. intros [H | H].
    + left. apply prefix_rgba_rgb. exact H.
    + right. apply IH. exact H.
Qed.

End ParseFacts.

(** C2, as stated, fails: on a string that names [rgb] with a channel that
    is not a number, [parse_rgb] raises. *)
Lemma parse_rgb_raises_on_malformed_channel :
  parse_rgb "rgb(a, b, c)" = Raise ValueError.
Proof. vm_compute. reflexivity. Qed.

(** C2, amended: on every string [parse_rgb] ends with [None], a tuple of one
    to three ints, [ValueError] or [IndexError]; the empty string and every
    string that does not contain [rgb] yield [None]; and an exception of the
    parser is caught by [check_element_contrast], which returns the error
    record of the selector, wherever the string is parsed: as the text
    colour, as the element's own background, or as the background the walk
    over the ancestors returned. *)
Theorem parse_rgb_outcomes :
  forall s : string,
    (parse_rgb s = Ok None
     \/ (exists t, parse_rgb s = Ok (Some t)
                   /\ (1 <= List.length t <= 3)%nat)
     \/ parse_rgb s = Raise ValueError
     \/ parse_rgb s = Raise IndexError)
    /\ (s = "" \/ contains "rgb" s = false -> parse_rgb s = Ok None)
    /\ (forall (pow : float -> float -> res float) (page : Page)
               (sel desc : string) (styles : Computed) (e : exn),
          is_visible page sel = Ok true ->
          computed_style page sel = Ok styles ->
          parse_rgb s = Raise e ->
          (color styles = s ->
           check_element_contrast pow page sel desc = Errored sel e)
          /\ (forall fg : option (list Z),
                parse_rgb (color styles) = Ok fg ->
                backgroundColor styles = s ->
                check_element_contrast pow page sel desc = Errored sel e)
          /\ (forall (fg bg0 : option (list Z)) (bgs : list string),
                parse_rgb (color styles) = Ok fg ->
                parse_rgb (backgroundColor styles) = Ok bg0 ->
                truthy bg0 = false ->
                ancestor_backgrounds page sel = Ok bgs ->
                find_parent_bg bgs = s ->
                check_element_contrast pow page sel desc = Errored sel e)).
Proof.
  intros s. split; [ | split].
  - unfold parse_rgb.
    destruct (_ || _); [left; reflexivity |].
    destruct (contains "rgba" s).
    + set (parts := split "," _).
      destruct (Nat.leb 4 (List.length parts)).
      * destruct (ParseFacts.float_of_str_outcomes (strip (nth 3 parts "")))
          as [[a ->] | ->]; cbn [bind]; [ | right; right; left; reflexivity].
        destruct (a =? 0)%float; [left; reflexivity |].
        match goal with
        | |- context [mapM ?f ?l] =>
            destruct (ParseFacts.mapM_outcomes f l) as [[t Ht] | [Ht | Ht]];
            [ | | rewrite Ht; cbn [bind]; auto | rewrite Ht; cbn [bind]; auto ]
        end.
        { intros i. destruct (nth_error parts i) as [p | ]; [ | auto].
          destruct (ParseFacts.int_of_str_outcomes (strip p)) as [H | H]; auto. }
        rewrite Ht. cbn [bind]. right. left. exists t. split; [reflexivity |].
        apply ParseFacts.mapM_length in Ht. rewrite Ht. simpl. lia.
      * cbn [bind].
        match goal with
        | |- context [mapM ?f ?l] =>
            destruct (ParseFacts.mapM_outcomes f l) as [[t Ht] | [Ht | Ht]];
            [ | | rewrite Ht; cbn [bind]; auto | rewrite Ht; cbn [bind]; auto ]
        end.
        { intros i. destruct (nth_error parts i) as [p | ]; [ | auto].
          destruct (ParseFacts.int_of_str_outcomes (strip p)) as [H | H]; auto. }
        rewrite Ht. cbn [bind]. right. left. exists t. split; [reflexivity |].
        apply ParseFacts.mapM_length in Ht. rewrite Ht. simpl. lia.
    + destruct (contains "rgb" s); [ | left; reflexivity].
      set (parts := split "," _).
      assert (Hne : parts <> []) by apply ParseFacts.split_from_nonempty.
      match goal with
      | |- context [mapM ?f ?l] =>
          destruct (ParseFacts.mapM_outcomes f l) as [[t Ht] | [Ht | Ht]];
          [ | | rewrite Ht; cbn [bind]; auto | rewrite Ht; cbn [bind]; auto ]
      end.
      { intros p. destruct (ParseFacts.int_of_str_outcomes (strip p)); auto. }
      rewrite Ht. cbn [bind]. right. left. exists t. split; [reflexivity |].
      apply ParseFacts.mapM_length in Ht. rewrite Ht.
      destruct parts as [ | p1 [ | p2 [ | p3 ps]]]; simpl; try lia.
      contradiction.
  - intros [-> | H]; [reflexivity |].
    unfold parse_rgb.
    destruct (_ || _); [reflexivity |].
    destruct (contains "rgba" s) eqn:Ha.
    + apply ParseFacts.contains_rgba_rgb in Ha. congruence.
    + rewrite H. reflexivity.
  - intros pow page sel desc styles e Hv Hst He.
    unfold check_element_contrast, check_element_body.
    rewrite Hv. cbn [bind negb]. rewrite Hst. cbn [bind].
    split; [ | split].
    + intros Hc. rewrite Hc, He. reflexivity.
    + intros fg Hfg Hc. rewrite Hfg. cbn [bind]. rewrite Hc, He. reflexivity.
    + intros fg bg0 bgs Hfg Hbg0 Ht Hbgs Hw.
      rewrite Hfg. cbn [bind]. rewrite Hbg0. cbn [bind].
      unfold resolve_background. rewrite Ht. cbn [negb].
      rewrite Hbgs. cbn [bind]. rewrite Hw, He. reflexivity.
Qed.

Lemma parse_rgb_outcomes_witness :
  parse_rgb "red" = Ok None
  /\ check_element_contrast Sample.pow
       {| is_visible := fun _ => Ok true;
          computed_style := fun _ =>
            Ok {| color := "rgb(a, b, c)"; backgroundColor := "rgb(0, 0, 0)";
                  fontSize := "16px"; fontWeight := "400"; innerText := None |};
          ancestor_backgrounds := fun _ => Ok [] |} "p" "Body text"
     = Errored "p" ValueError
  /\ check_element_contrast Sample.pow Sample.bad_background_page "p" "Body text"
     = Errored "p" ValueError
  /\ check_element_contrast Sample.pow Sample.bad_ancestor_page "h1"
       "Main heading"
     = Errored "h1" ValueError.
Proof.
  destruct (parse_rgb_outcomes "red") as (_ & Hnone & _).
  destruct (parse_rgb_outcomes "rgb(a, b, c)") as (_ & _ & Hcatch).
  split; [ | split; [ | split]].
  - apply Hnone. right. vm_compute. reflexivity.
  - apply (Hcatch Sample.pow _ "p" "Body text"
             {| color := "rgb(a, b, c)"; backgroundColor := "rgb(0, 0, 0)";
                fontSize := "16px"; fontWeight := "400"; innerText := None |}
             ValueError); vm_compute; reflexivity.
  - destruct (Hcatch Sample.pow Sample.bad_background_page "p" "Body text"
                Sample.bad_background ValueError) as (_ & H & _);
      [reflexivity | reflexivity | vm_compute; reflexivity |].
    apply (H (Some [6; 37; 28])); [vm_compute; reflexivity | reflexivity].
  - destruct (Hcatch Sample.pow Sample.bad_ancestor_page "h1" "Main heading"
                Sample.heading ValueError) as (_ & _ & H);
      [reflexivity | reflexivity | vm_compute; reflexivity |].
    apply (H (Some [255; 255; 255]) None
             ["rgba(0, 0, 0, 0)"; "rgb(a, b, c)"]);
      vm_compute; reflexivity.
Defined.

(** *** The audit run *)

Module AuditFacts.
Import AccessibilityAudit.

Lemma fst_audit_pages_app (b : Browser) (fs : Files)
  (l1 l2 : list (string * string)) :
  fst (audit_pages b fs (l1 ++ l2))
  = fst (audit_pages b fs l1) ++ fst (audit_pages b fs l2).
Proof.
  induction l1 as [ | [url name] l1 IH]; simpl.
  - reflexivity.
  - destruct (audit_page b fs url name) as [result evs].
    destruct (audit_pages b fs (l1 ++ l2)) as [r evs'].
    destruct (audit_pages b fs l1) as [r1 evs1].
    simpl in IH. subst r. destruct result; reflexivity.
Qed.

Lemma fst_audit_pages_none (b : Browser) (fs : Files) (url name : string)
  (l : list (string * string)) :
  fst (audit_page b fs url name) = None ->
  fst (audit_pages b fs ((url, name) :: l)) = fst (audit_pages b fs l).
Proof.
  intros H. simpl. destruct (audit_page b fs url name) as [result evs].
  simpl in H. subst result.
  destruct (audit_pages b fs l) as [r evs']. reflexivity.
Qed.

(** Whatever the pages and the file system do, the loop of [main] ends and
    [main] itself raises only when the browser cannot be launched or closed. *)
Lemma main_with_completes (pages : list (string * string)) (b : Browser)
  (fs : Files) :
  launch b = Ok tt -> close b = Ok tt -> fst (main_with pages b fs) = Ok tt.
Proof.
  intros Hl Hc. unfold main_with. rewrite Hl.
  destruct (audit_pages b fs pages) as [results evs]. rewrite Hc. reflexivity.
Qed.

End AuditFacts.

Module ReportFacts.
Import ContrastChecker.

Section WithPow.

Variable pow : float -> float -> res float.

Lemma check_selectors_no_write (page : Page) (sels : list SelectorInfo) :
  Forall (fun ev => ~ is_write ev) (snd (check_selectors pow page sels)).
Proof.
  induction sels as [ | si sels IH]; simpl.
  - constructor.
  - destruct (check_selectors pow page sels) as [results evs]. simpl in IH.
    destruct (check_element_contrast pow page _ _) as [ | c | sel e]; simpl;
      try exact IH.
    constructor; [simpl; tauto |].
    destruct (passes c); simpl; [exact IH |].
    constructor; [simpl; tauto | exact IH].
Qed.

Lemma audit_all_no_write (b : Browser) (checks : list Check) :
  Forall (fun ev => ~ is_write ev) (snd (audit_all pow b checks)).
Proof.
  induction checks as [ | c checks IH]; simpl.
  - constructor.
  - unfold audit_page_contrast.
    destruct (goto b (url c)) as [page | e].
    + pose proof (check_selectors_no_write page (selectors c)) as H.
      destruct (check_selectors pow page (selectors c)) as [results evs].
      destruct (audit_all pow b checks) as [all_results evs']. simpl in *.
      constructor; [simpl; tauto |]. apply Forall_app. split; assumption.
    + destruct (audit_all pow b checks) as [all_results evs']. simpl in *.
      repeat (constructor; [simpl; tauto |]). exact IH.
Qed.

End WithPow.

End ReportFacts.

(** C4, as stated, fails: with a scanner that reports an error on the home
    page, the results of the run hold the three other pages and nothing for
    the home page. *)
Lemma scanner_error_leaves_no_marker :
  map AccessibilityAudit.name
      (fst (AccessibilityAudit.audit_pages Sample.audit_browser Sample.writable
              AccessibilityAudit.pages_to_audit))
  = ["admin-login"; "admin-dashboard"; "amenities"].
Proof. vm_compute. reflexivity. Qed.

(** C4, amended: when the scanner returns an error for a page, [audit_page]
    prints the error and returns [None]; nothing is written and nothing of
    the page is recorded in the results of the run, which goes on with the
    other pages. *)
Theorem scanner_error_drops_page :
  forall (b : AccessibilityAudit.Browser) (fs : AccessibilityAudit.Files)
         (url name : string) (page : AccessibilityAudit.Page)
         (message : string),
    let shot := (AccessibilityAudit.reports_dir ++ "/" ++ name ++ ".png")%string in
    AccessibilityAudit.goto b url = Ok page ->
    AccessibilityAudit.mkdir fs AccessibilityAudit.reports_dir = Ok tt ->
    AccessibilityAudit.screenshot page shot = Ok tt ->
    AccessibilityAudit.inject_axe page = Ok tt ->
    AccessibilityAudit.run_axe_audit page
    = Ok (AccessibilityAudit.AxeError message) ->
    AccessibilityAudit.audit_page b fs url name
    = (None, [AccessibilityAudit.PrintAuditing url;
              AccessibilityAudit.PrintScreenshot shot;
              AccessibilityAudit.PrintAxeError message])
    /\ forall pre post : list (string * string),
         fst (AccessibilityAudit.audit_pages b fs (pre ++ (url, name) :: post))
         = fst (AccessibilityAudit.audit_pages b fs (pre ++ post)).
Proof.
  intros b fs url name page message shot Hg Hm Hs Hi Hr.
  assert (Hp : AccessibilityAudit.audit_page b fs url name
               = (None, [AccessibilityAudit.PrintAuditing url;
                         AccessibilityAudit.PrintScreenshot shot;
                         AccessibilityAudit.PrintAxeError message])).
  { unfold AccessibilityAudit.audit_page, AccessibilityAudit.audit_page_body.
    rewrite Hg. cbn [iobind lift]. rewrite Hm. cbn [iobind lift].
    fold shot. rewrite Hs. cbn [iobind lift emit]. rewrite Hi.
    cbn [iobind lift]. rewrite Hr. reflexivity. }
  split; [exact Hp |].
  intros pre post. rewrite !AuditFacts.fst_audit_pages_app.
  rewrite AuditFacts.fst_audit_pages_none; [reflexivity |].
  rewrite Hp. reflexivity.
Qed.

Lemma scanner_error_drops_page_witness :
  AccessibilityAudit.audit_page Sample.audit_browser Sample.writable
    "http://localhost:3000" "home"
  = (None, [AccessibilityAudit.PrintAuditing "http://localhost:3000";
            AccessibilityAudit.PrintScreenshot "accessibility-reports/home.png";
            AccessibilityAudit.PrintAxeError "axe is not defined"])
  /\ forall pre post : list (string * string),
       fst (AccessibilityAudit.audit_pages Sample.audit_browser Sample.writable
              (pre ++ ("http://localhost:3000", "home") :: post))
       = fst (AccessibilityAudit.audit_pages Sample.audit_browser Sample.writable
                (pre ++ post)).
Proof.
  apply (scanner_error_drops_page Sample.audit_browser Sample.writable
           "http://localhost:3000" "home" Sample.scanner_fails
           "axe is not defined"); reflexivity.
Defined.

(** C5, as stated, fails: when no per-page JSON can be written, the run of
    the audit still ends normally, with no page in its results. *)
Lemma page_write_failure_is_not_fatal :
  fst (AccessibilityAudit.main Sample.scanning_browser Sample.read_only) = Ok tt
  /\ fst (AccessibilityAudit.audit_pages Sample.scanning_browser Sample.read_only
            AccessibilityAudit.pages_to_audit) = [].
Proof. split; vm_compute; reflexivity. Qed.

(** C5, amended: when writing the aggregate contrast report fails, the
    exception leaves [main] of the contrast checker and the run aborts
    without a report; when writing the JSON of a page fails in the audit
    script, the exception is caught by [audit_page], the error is printed,
    the page yields no result and the run goes on and ends normally. *)
Theorem report_write_failure :
  forall (pow : float -> float -> res float) (checks : list Check)
         (cb : ContrastChecker.Browser) (open_report : string -> res unit)
         (b : AccessibilityAudit.Browser) (fs : AccessibilityAudit.Files)
         (pages : list (string * string)) (url name : string)
         (page : AccessibilityAudit.Page)
         (vs : option (list AccessibilityAudit.Violation)) (e : exn),
    let shot := (AccessibilityAudit.reports_dir ++ "/" ++ name ++ ".png")%string in
    let json := (AccessibilityAudit.reports_dir ++ "/" ++ name ++ ".json")%string in
    (ContrastChecker.launch cb = Ok tt ->
     ContrastChecker.close cb = Ok tt ->
     open_report report_path = Raise e ->
     fst (main_with pow checks cb open_report) = Raise e
     /\ Forall (fun ev => ~ is_write ev)
               (snd (main_with pow checks cb open_report)))
    /\ (AccessibilityAudit.goto b url = Ok page ->
        AccessibilityAudit.mkdir fs AccessibilityAudit.reports_dir = Ok tt ->
        AccessibilityAudit.screenshot page shot = Ok tt ->
        AccessibilityAudit.inject_axe page = Ok tt ->
        AccessibilityAudit.run_axe_audit page
        = Ok (AccessibilityAudit.AxeReport vs) ->
        AccessibilityAudit.open_w fs json = Raise e ->
        AccessibilityAudit.audit_page b fs url name
        = (None, [AccessibilityAudit.PrintAuditing url;
                  AccessibilityAudit.PrintScreenshot shot;
                  AccessibilityAudit.PrintError e]))
    /\ (AccessibilityAudit.launch b = Ok tt ->
        AccessibilityAudit.close b = Ok tt ->
        fst (AccessibilityAudit.main_with pages b fs) = Ok tt).
Proof.
  intros pow checks cb open_report b fs pages url name page vs e shot json.
  split; [ | split].
  - intros Hl Hc Ho. unfold main_with. rewrite Hl.
    pose proof (ReportFacts.audit_all_no_write pow cb checks) as Hw.
    destruct (audit_all pow cb checks) as [all_results evs].
    rewrite Hc, Ho. simpl in *. split; [reflexivity |].
    apply Forall_app. split; [exact Hw |].
    constructor; [simpl; tauto |].
    apply Forall_map. apply Forall_forall. intros c _. simpl. tauto.
  - intros Hg Hm Hs Hi Hr Ho.
    unfold AccessibilityAudit.audit_page, AccessibilityAudit.audit_page_body.
    rewrite Hg. cbn [iobind lift]. rewrite Hm. cbn [iobind lift].
    fold shot. rewrite Hs. cbn [iobind lift emit]. rewrite Hi.
    cbn [iobind lift]. rewrite Hr. fold json. rewrite Ho. reflexivity.
  - apply AuditFacts.main_with_completes.
Qed.

Lemma report_write_failure_witness :
  (fst (ContrastChecker.main Sample.pow Sample.browser (fun _ => Raise OSError))
   = Raise OSError
   /\ Forall (fun ev => ~ is_write ev)
        (snd (ContrastChecker.main Sample.pow Sample.browser
                (fun _ => Raise OSError))))
  /\ AccessibilityAudit.audit_page Sample.scanning_browser Sample.read_only
       "http://localhost:3000" "home"
     = (None, [AccessibilityAudit.PrintAuditing "http://localhost:3000";
               AccessibilityAudit.PrintScreenshot "accessibility-reports/home.png";
               AccessibilityAudit.PrintError OSError])
  /\ fst (AccessibilityAudit.main Sample.scanning_browser Sample.read_only)
     = Ok tt.
Proof.
  destruct (report_write_failure Sample.pow checks Sample.browser
              (fun _ => Raise OSError) Sample.scanning_browser Sample.read_only
              AccessibilityAudit.pages_to_audit "http://localhost:3000" "home"
              Sample.scanned (Some [Sample.contrast_violation]) OSError)
    as (H1 & H2 & H3).
  split; [ | split].
  - apply H1; reflexivity.
  - apply H2; reflexivity.
  - apply H3; reflexivity.
Defined.

(** *** Signs of sums and products *)

Module SignFacts.

Lemma iter_pos_invariant {A : Type} (P : A -> Prop) (f : A -> A) :
  (forall a, P a -> P (f a)) ->
  forall (n : positive) (a : A), P a -> P (SpecFloat.iter_pos f n a).
Proof.
  intros Hf. induction n as [n IH | n IH | ]; intros a Ha; simpl.
  - apply IH, IH, Hf, Ha.
  - apply IH, IH, Ha.
  - apply Hf, Ha.
Qed.

Lemma shr_1_nonneg (mrs : shr_record) :
  0 <= shr_m mrs -> 0 <= shr_m (shr_1 mrs).
Proof.
  destruct mrs as [m r s]. simpl. intros H.
  destruct m as [ | p | p].
  - simpl. lia.
  - destruct p; simpl; try apply Pos2Z.is_nonneg; lia.
  - exfalso. pose proof (Pos2Z.neg_is_neg p). lia.
Qed.

Lemma shr_nonneg (mrs : shr_record) (e n : Z) :
  0 <= shr_m mrs -> 0 <= shr_m (fst (shr mrs e n)).
Proof.
  intros H. unfold shr. destruct n as [ | p | p]; simpl; try exact H.
  apply (iter_pos_invariant (fun r => 0 <= shr_m r)); [ | exact H].
  apply shr_1_nonneg.
Qed.

Lemma shr_fexp_nonneg (m e : Z) (l : location) :
  0 <= m -> 0 <= shr_m (fst (shr_fexp prec emax m e l)).
Proof.
  intros H. unfold shr_fexp. apply shr_nonneg.
  destruct l as [ | [ | | ]]; simpl; exact H.
Qed.

Lemma round_nearest_even_nonneg (m : Z) (l : location) :
  0 <= m -> 0 <= round_nearest_even m l.
Proof.
  intros H. unfold round_nearest_even.
  destruct l as [ | [ | | ]]; try destruct (Z.even m); lia.
Qed.

(** Rounding a non-negative mantissa never yields NaN, and the result
    carries the sign it was given. *)
Lemma binary_round_aux_sign (s : bool) (m e : Z) (l : location) :
  0 <= m ->
  match binary_round_aux prec emax s m e l with
  | S754_nan => False
  | S754_zero s' | S754_infinity s' | S754_finite s' _ _ => s' = s
  end.
Proof.
  intros H. unfold binary_round_aux.
  pose proof (shr_fexp_nonneg m e l H) as H1.
  destruct (shr_fexp prec emax m e l) as [mrs' e']. simpl in H1.
  pose proof (round_nearest_even_nonneg (shr_m mrs') (loc_of_shr_record mrs') H1)
    as H2.
  pose proof (shr_fexp_nonneg _ e' loc_Exact H2) as H3.
  destruct (shr_fexp prec emax _ e' loc_Exact) as [mrs'' e'']. simpl in H3.
  destruct (shr_m mrs'') as [ | p | p]; try reflexivity.
  - destruct (e'' <=? emax - prec); reflexivity.
  - lia.
Qed.

Lemma leb_zero_nonneg (x : float) :
  (0 <=? x)%float = true <-> nonneg (Prim2SF x).
Proof.
  rewrite FloatAxioms.leb_spec. unfold SFleb.
  replace (Prim2SF 0) with (S754_zero false) by reflexivity.
  destruct (Prim2SF x) as [s | [ | ] | | [ | ] m e]; simpl; split;
    intros H; try reflexivity; try discriminate H; try exact I;
    try contradiction.
Qed.

Lemma nonneg_not_nan (x : spec_float) : nonneg x -> x <> S754_nan.
Proof. destruct x; simpl; intros H; try discriminate. contradiction. Qed.

Lemma add_nonneg (x y : float) :
  nonneg (Prim2SF x) -> nonneg (Prim2SF y) -> nonneg (Prim2SF (x + y)).
Proof.
  rewrite add_spec. unfold SF64add, SFadd.
  destruct (Prim2SF x) as [sx | sx | | sx mx ex],
           (Prim2SF y) as [sy | sy | | sy my ey]; simpl;
    intros Hx Hy; subst; try contradiction; try reflexivity; try exact I.
  - destruct sx, sy; exact I.
  - unfold binary_normalize, cond_Zopp.
    match goal with
    | |- nonneg (match ?z with _ => _ end) =>
        assert (Hz : 0 < z) by lia; destruct z as [ | p | p]; try lia
    end.
    unfold binary_round. destruct (shl_align _ _ _) as [mz ez].
    pose proof (binary_round_aux_sign false (Z.pos mz) ez loc_Exact) as H.
    destruct (binary_round_aux _ _ _ _ _ _); simpl; try exact I; apply H; lia.
Qed.

Lemma mul_nonneg (x y : float) :
  (exists m e, Prim2SF x = S754_finite false m e) ->
  nonneg (Prim2SF y) -> nonneg (Prim2SF (x * y)).
Proof.
  intros (m & e & Hx). rewrite mul_spec, Hx. unfold SF64mul, SFmul.
  destruct (Prim2SF y) as [sy | sy | | sy my ey]; simpl; intros Hy; subst;
    try contradiction; try reflexivity; try exact I.
  pose proof (binary_round_aux_sign false (Z.pos (m * my)) (e + ey) loc_Exact)
    as H.
  destruct (binary_round_aux _ _ _ _ _ _); simpl; try exact I; apply H; lia.
Qed.

End SignFacts.

(** *** The contrast ratio *)

Module RatioFacts.

Lemma SFcompare_swap (x y : spec_float) :
  SFcompare y x = option_map CompOpp (SFcompare x y).
Proof.
  destruct x as [sx | sx | | sx mx ex], y as [sy | sy | | sy my ey]; simpl;
    try reflexivity;
    try (destruct sx; reflexivity); try (destruct sy; reflexivity).
  - destruct sx, sy; reflexivity.
  - pose proof (Pos.compare_cont_antisym mx my Eq) as Hm. simpl in Hm.
    pose proof (Pos.compare_cont_antisym my mx Eq) as Hm'. simpl in Hm'.
    destruct sx, sy; simpl; try reflexivity;
      rewrite (Z.compare_antisym ex ey);
      destruct (ex ?= ey); simpl; try reflexivity; f_equal;
      rewrite ?CompOpp_involutive;
      first [exact Hm | exact Hm' | symmetry; exact Hm | symmetry; exact Hm'
            | rewrite <- Hm; rewrite CompOpp_involutive; reflexivity
            | rewrite <- Hm'; rewrite CompOpp_involutive; reflexivity].
Qed.

(** Adding to a zero, whatever its sign, gives the other term. *)
Lemma add_zero_l (x c : float) (s : bool) (m : positive) (e : Z) :
  Prim2SF x = S754_zero s -> Prim2SF c = S754_finite false m e ->
  (x + c)%float = c.
Proof.
  intros Hx Hc. apply Prim2SF_inj. rewrite add_spec, Hx, Hc. reflexivity.
Qed.

(** The quotient of the script does not depend on the order of the two
    luminances. *)
Lemma ratio_symmetric (l1 l2 : float) :
  Prim2SF l1 <> S754_nan -> Prim2SF l2 <> S754_nan ->
  float_truediv (Py.max l1 l2 + 0.05)%float (Py.min l1 l2 + 0.05)%float
  = float_truediv (Py.max l2 l1 + 0.05)%float (Py.min l2 l1 + 0.05)%float.
Proof.
  intros H1 H2. unfold Py.max, Py.min.
  rewrite !FloatAxioms.ltb_spec. unfold SFltb.
  rewrite (SFcompare_swap (Prim2SF l1) (Prim2SF l2)).
  destruct (SFcompare (Prim2SF l1) (Prim2SF l2)) as [[ | | ] | ] eqn:Hc; simpl;
    try reflexivity.
  - apply FloatFacts.SFcompare_Eq in Hc.
    destruct Hc as [Hc | (s & s' & Hx & Hy)].
    + apply Prim2SF_inj in Hc. subst l2. reflexivity.
    + rewrite (add_zero_l l1 0.05%float s 7205759403792794 (-57) Hx eq_refl).
      rewrite (add_zero_l l2 0.05%float s' 7205759403792794 (-57) Hy eq_refl).
      reflexivity.
  - exfalso. destruct (Prim2SF l1), (Prim2SF l2); simpl in Hc;
      try discriminate Hc; contradiction.
Qed.

Lemma channel_ok_all (c : Z) : channel c -> channel_ok c = true.
Proof.
  intros [Hlo Hhi].
  assert (Hall : forallb channel_ok (map Z.of_nat (seq 0 256)) = true)
    by (vm_compute; reflexivity).
  rewrite forallb_forall in Hall. apply Hall.
  apply in_map_iff. exists (Z.to_nat c). split; [lia |].
  apply in_seq. lia.
Qed.

Section WithPow.

Variable pow : float -> float -> res float.
Hypothesis pow_ok : pow_unit pow.

(** Every channel of a colour is linearized to a float of [0, 1]. *)
Lemma linearize_channel (c : Z) :
  channel c ->
  exists x v : float,
    int_truediv c 255 = Ok x /\ linearize pow x = Ok v
    /\ (0 <=? v)%float = true /\ (v <=? 1)%float = true.
Proof.
  intros Hc. pose proof (channel_ok_all c Hc) as Hok.
  unfold channel_ok in Hok.
  destruct (int_truediv c 255) as [x | e]; [ | discriminate Hok].
  exists x. unfold linearize.
  destruct (x <=? 0.03928)%float;
    apply andb_true_iff in Hok; destruct Hok as [Hlo Hhi].
  - exists (x / 12.92)%float. repeat split; try assumption; reflexivity.
  - destruct (pow_ok (pow_base x) Hlo Hhi) as (v & Hv & Hv0 & Hv1).
    exists v. repeat split; try assumption; reflexivity.
Qed.

(** The luminance of a colour exists and is not negative. *)
Lemma luminance_nonneg (r g b : Z) :
  rgb r g b ->
  exists l : float, get_luminance pow r g b = Ok l /\ nonneg (Prim2SF l).
Proof.
  intros (Hr & Hg & Hb).
  destruct (linearize_channel r Hr) as (xr & vr & Hxr & Hvr & Hr0 & _).
  destruct (linearize_channel g Hg) as (xg & vg & Hxg & Hvg & Hg0 & _).
  destruct (linearize_channel b Hb) as (xb & vb & Hxb & Hvb & Hb0 & _).
  unfold get_luminance.
  rewrite Hxr, Hxg, Hxb. cbn [bind]. rewrite Hvr, Hvg, Hvb. cbn [bind].
  eexists. split; [reflexivity |].
  apply SignFacts.leb_zero_nonneg in Hr0, Hg0, Hb0.
  repeat apply SignFacts.add_nonneg;
    apply SignFacts.mul_nonneg; try assumption;
    eexists; eexists; reflexivity.
Qed.

Lemma get_contrast_ratio_symmetric (r1 g1 b1 r2 g2 b2 : Z) :
  rgb r1 g1 b1 -> rgb r2 g2 b2 ->
  get_contrast_ratio pow r1 g1 b1 r2 g2 b2
  = get_contrast_ratio pow r2 g2 b2 r1 g1 b1.
Proof.
  intros H1 H2.
  destruct (luminance_nonneg r1 g1 b1 H1) as (l1 & Hl1 & Hn1).
  destruct (luminance_nonneg r2 g2 b2 H2) as (l2 & Hl2 & Hn2).
  unfold get_contrast_ratio. rewrite Hl1, Hl2. cbn [bind].
  apply ratio_symmetric; apply SignFacts.nonneg_not_nan; assumption.
Qed.

End WithPow.

Lemma sample_pow_unit : pow_unit Sample.pow.
Proof.
  intros x _ _. unfold Sample.pow.
  set (v := (x * x * _)%float).
  destruct ((0 <=? v)%float && (v <=? 1)%float) eqn:Hv.
  - apply andb_true_iff in Hv. destruct Hv as [H0 H1].
    exists v. repeat split; assumption.
  - exists 1%float. repeat split; reflexivity.
Qed.

End RatioFacts.

(** C7: for all RGB colours [a] and [b] the contrast ratio of [a] against
    [b] equals the one of [b] against [a], provided the power function of
    the runtime maps (0, 1] into [0, 1]. *)
Theorem contrast_ratio_symmetric :
  forall (pow : float -> float -> res float) (r1 g1 b1 r2 g2 b2 : Z),
    pow_unit pow ->
    rgb r1 g1 b1 -> rgb r2 g2 b2 ->
    get_contrast_ratio pow r1 g1 b1 r2 g2 b2
    = get_contrast_ratio pow r2 g2 b2 r1 g1 b1.
Proof.
  intros pow r1 g1 b1 r2 g2 b2 Hpow H1 H2.
  apply RatioFacts.get_contrast_ratio_symmetric; assumption.
Qed.

Lemma contrast_ratio_symmetric_witness :
  get_contrast_ratio Sample.pow 6 37 28 13 69 56
  = get_contrast_ratio Sample.pow 13 69 56 6 37 28.
Proof.
  apply (contrast_ratio_symmetric Sample.pow 6 37 28 13 69 56).
  - exact RatioFacts.sample_pow_unit.
  - unfold rgb, channel. lia.
  - unfold rgb, channel. lia.
Defined.

(** *** Rounding to binary64 *)

Module BpowFacts.

Lemma bpow_pos (e : Z) : (0 < bpow e)%R.
Proof. apply powerRZ_lt. lra. Qed.

Lemma bpow_add (a b : Z) : bpow (a + b) = (bpow a * bpow b)%R.
Proof. apply powerRZ_add. lra. Qed.

Lemma bpow_1 : bpow 1 = 2%R.
Proof. unfold bpow. simpl. lra. Qed.

Lemma bpow_IZR (n : Z) : 0 <= n -> bpow n = IZR (2 ^ n).
Proof.
  intros Hn. destruct n as [ | p | p].
  - reflexivity.
  - unfold bpow. change (2 ^ Z.pos p) with (Z.pow_pos 2 p).
    rewrite Zpower_pos_powerRZ. reflexivity.
  - lia.
Qed.

Lemma bpow_ge_1 (n : Z) : 0 <= n -> (1 <= bpow n)%R.
Proof.
  intros Hn. rewrite (bpow_IZR n Hn). apply IZR_le.
  pose proof (Z.pow_pos_nonneg 2 n). lia.
Qed.

Lemma bpow_le (a b : Z) : a <= b -> (bpow a <= bpow b)%R.
Proof.
  intros H. replace b with (a + (b - a)) by lia. rewrite bpow_add.
  pose proof (bpow_pos a).
  assert (1 <= bpow (b - a))%R by (apply bpow_ge_1; lia). nra.
Qed.

Lemma bpow_lt (a b : Z) : a < b -> (bpow a < bpow b)%R.
Proof.
  intros H. replace b with (a + 1 + (b - a - 1)) by lia. rewrite !bpow_add.
  pose proof (bpow_pos a).
  assert (1 <= bpow (b - a - 1))%R by (apply bpow_ge_1; lia).
  rewrite bpow_1. nra.
Qed.

Lemma bpow_succ (e : Z) : bpow (e + 1) = (2 * bpow e)%R.
Proof. rewrite bpow_add, bpow_1. lra. Qed.

Lemma digits2_size (p : positive) : digits2_pos p = Pos.size p.
Proof. induction p; simpl; congruence. Qed.

Lemma digits_bounds (p : positive) :
  2 ^ (Z.pos (digits2_pos p) - 1) <= Z.pos p < 2 ^ Z.pos (digits2_pos p).
Proof.
  rewrite digits2_size. split.
  - pose proof (Pos.size_le p) as H.
    apply Pos2Z.pos_le_pos in H. rewrite Pos2Z.inj_pow in H.
    replace (Z.pos (Pos.size p)) with (Z.pos (Pos.size p) - 1 + 1) in H by lia.
    rewrite Z.pow_add_r in H by lia. change (Z.pos p~0) with (2 * Z.pos p) in H.
    lia.
  - pose proof (Pos.size_gt p) as H.
    apply Pos2Z.pos_lt_pos in H. rewrite Pos2Z.inj_pow in H. exact H.
Qed.

Lemma digits_bounds_R (p : positive) :
  (bpow (Z.pos (digits2_pos p) - 1) <= IZR (Z.pos p) < bpow (Z.pos (digits2_pos p)))%R.
Proof.
  destruct (digits_bounds p) as [Hlo Hhi].
  rewrite !bpow_IZR by lia. split; [apply IZR_le | apply IZR_lt]; assumption.
Qed.

(** The number of digits is determined by the binade. *)
Lemma digits_unique (p : positive) (k : Z) :
  2 ^ (k - 1) <= Z.pos p < 2 ^ k -> Z.pos (digits2_pos p) = k.
Proof.
  intros [Hlo Hhi]. destruct (digits_bounds p) as [Dlo Dhi].
  set (d := Z.pos (digits2_pos p)) in *.
  assert (Hk : 0 < k).
  { destruct (Z.lt_ge_cases 0 k) as [ | Hk]; [assumption |].
    destruct (Z.eq_dec k 0) as [-> | ]; [simpl in Hhi; lia |].
    rewrite Z.pow_neg_r in Hhi by lia. lia. }
  destruct (Z.lt_trichotomy d k) as [H | [H | H]]; [ | exact H | ].
  - assert (2 ^ d <= 2 ^ (k - 1)) by (apply Z.pow_le_mono_r; lia). lia.
  - assert (2 ^ k <= 2 ^ (d - 1)) by (apply Z.pow_le_mono_r; lia). lia.
Qed.

End BpowFacts.
Import BpowFacts.

Module OrderFacts.

(** The shape of a valid finite number: at most 53 digits, an exponent
    between -1074 and 971, and exactly 53 digits above the least exponent. *)
Lemma valid_finite_inv (s : bool) (m : positive) (e : Z) :
  valid_binary (S754_finite s m e) = true ->
  let d := Z.pos (digits2_pos m) in
  d <= 53 /\ -1074 <= e <= 971 /\ (-1074 < e -> d = 53).
Proof.
  unfold SpecFloat.valid_binary, SpecFloat.bounded, SpecFloat.canonical_mantissa,
    SpecFloat.fexp, SpecFloat.emin.
  change prec with 53. change emax with 1024.
  intros H. apply andb_true_iff in H. destruct H as [H1 H2].
  apply Z.eqb_eq in H1. apply Z.leb_le in H2. lia.
Qed.

Lemma finite_pos (m : positive) (e : Z) : (0 < IZR (Z.pos m) * bpow e)%R.
Proof.
  pose proof (bpow_pos e). assert (0 < IZR (Z.pos m))%R by (apply IZR_lt; lia).
  nra.
Qed.

(** A valid number with the smaller exponent is the smaller number. *)
Lemma finite_lt_exponent (m1 m2 : positive) (e1 e2 : Z) :
  valid_binary (S754_finite false m1 e1) = true ->
  valid_binary (S754_finite false m2 e2) = true ->
  e1 < e2 ->
  (IZR (Z.pos m1) * bpow e1 < IZR (Z.pos m2) * bpow e2)%R.
Proof.
  intros V1 V2 He.
  apply valid_finite_inv in V1, V2. cbv zeta in V1, V2.
  destruct V1 as (D1 & E1 & _), V2 as (_ & E2 & N2).
  destruct (digits_bounds_R m1) as [_ H1], (digits_bounds_R m2) as [H2 _].
  rewrite N2 in H2 by lia.
  assert (Hb : (bpow (Z.pos (digits2_pos m1)) <= bpow 53)%R) by (apply bpow_le; lia).
  assert (Hc : (bpow (53 + e1) <= bpow (53 - 1 + e2))%R) by (apply bpow_le; lia).
  rewrite !bpow_add in Hc.
  pose proof (bpow_pos e1). pose proof (bpow_pos e2). pose proof (bpow_pos 53).
  pose proof (bpow_pos (53 - 1)).
  apply Rlt_le_trans with (bpow 53 * bpow e1)%R; [nra |].
  apply Rle_trans with (bpow (53 - 1) * bpow e2)%R; [exact Hc | nra].
Qed.

Lemma compare_cont_spec (m1 m2 : positive) :
  match Pos.compare_cont Eq m1 m2 with
  | Lt => (IZR (Z.pos m1) < IZR (Z.pos m2))%R
  | Eq => m1 = m2
  | Gt => (IZR (Z.pos m2) < IZR (Z.pos m1))%R
  end.
Proof.
  change (Pos.compare_cont Eq m1 m2) with (m1 ?= m2)%positive.
  destruct (Pos.compare_spec m1 m2) as [H | H | H].
  - exact H.
  - apply IZR_lt. lia.
  - apply IZR_lt. lia.
Qed.

(** On valid numbers that are not negative, the comparison of the
    specification is the order of the values. *)
Lemma SFcompare_B2R (x y : spec_float) :
  valid_binary x = true -> valid_binary y = true ->
  finite_nonneg x -> finite_nonneg y ->
  match SFcompare x y with
  | Some Lt => (B2R x < B2R y)%R
  | Some Eq => B2R x = B2R y
  | Some Gt => (B2R y < B2R x)%R
  | None => False
  end.
Proof.
  intros Vx Vy Fx Fy.
  destruct x as [sx | sx | | [ | ] mx ex]; try contradiction;
    destruct y as [sy | sy | | [ | ] my ey]; try contradiction; simpl.
  - reflexivity.
  - rewrite Rmult_1_l. apply finite_pos.
  - rewrite Rmult_1_l. apply finite_pos.
  - rewrite !Rmult_1_l.
    destruct (Z.compare_spec ex ey) as [He | He | He].
    + subst ey. pose proof (compare_cont_spec mx my) as Hm.
      pose proof (bpow_pos ex).
      destruct (Pos.compare_cont Eq mx my); [subst; reflexivity | nra | nra].
    + apply finite_lt_exponent; assumption.
    + apply finite_lt_exponent; assumption.
Qed.

Lemma SFleb_B2R (x y : spec_float) :
  valid_binary x = true -> valid_binary y = true ->
  finite_nonneg x -> finite_nonneg y ->
  (SFleb x y = true <-> (B2R x <= B2R y)%R).
Proof.
  intros Vx Vy Fx Fy. pose proof (SFcompare_B2R x y Vx Vy Fx Fy) as H.
  unfold SFleb. destruct (SFcompare x y) as [[ | | ] | ]; split; intros H';
    try reflexivity; try discriminate H'; try lra; contradiction.
Qed.

Lemma SFltb_B2R (x y : spec_float) :
  valid_binary x = true -> valid_binary y = true ->
  finite_nonneg x -> finite_nonneg y ->
  (SFltb x y = true <-> (B2R x < B2R y)%R).
Proof.
  intros Vx Vy Fx Fy. pose proof (SFcompare_B2R x y Vx Vy Fx Fy) as H.
  unfold SFltb. destruct (SFcompare x y) as [[ | | ] | ]; split; intros H';
    try reflexivity; try discriminate H'; try lra; contradiction.
Qed.

(** Two valid numbers that are not negative and have the same value are
    the same number, up to the sign of zero. *)
Lemma B2R_inj (x y : spec_float) :
  valid_binary x = true -> valid_binary y = true ->
  finite_nonneg x -> finite_nonneg y ->
  B2R x = B2R y -> SFcompare x y = Some Eq.
Proof.
  intros Vx Vy Fx Fy Hxy. pose proof (SFcompare_B2R x y Vx Vy Fx Fy) as H.
  destruct (SFcompare x y) as [[ | | ] | ]; try reflexivity; try lra;
    try contradiction.
Qed.

End OrderFacts.
Import OrderFacts.

Module ShiftFacts.

Lemma fexp_fexp64 (k : Z) : fexp prec emax k = fexp64 k.
Proof. reflexivity. Qed.

Lemma IZR_xI (p : positive) : IZR (Z.pos p~1) = (2 * IZR (Z.pos p) + 1)%R.
Proof. rewrite Pos2Z.inj_xI, plus_IZR, mult_IZR. reflexivity. Qed.

Lemma IZR_xO (p : positive) : IZR (Z.pos p~0) = (2 * IZR (Z.pos p))%R.
Proof. rewrite Pos2Z.inj_xO, mult_IZR. reflexivity. Qed.

(** One shift to the right halves the located number. *)
Lemma shr_1_located (u : R) (mrs : shr_record) :
  0 <= shr_m mrs -> located u mrs ->
  0 <= shr_m (shr_1 mrs) /\ located (u / 2) (shr_1 mrs).
Proof.
  destruct mrs as [m r s]. unfold located. simpl. intros Hm H.
  destruct m as [ | [p | p | ] | p].
  - split; [simpl; lia |]. destruct r, s; simpl in *; lra.
  - split; [simpl; lia |]. rewrite IZR_xI in H. destruct r, s; simpl in *; lra.
  - split; [simpl; lia |]. rewrite IZR_xO in H. destruct r, s; simpl in *; lra.
  - split; [simpl; lia |]. destruct r, s; simpl in *; lra.
  - exfalso. pose proof (Pos2Z.neg_is_neg p). lia.
Qed.

Lemma iter_pos_located (n : positive) :
  forall (u : R) (mrs : shr_record),
    0 <= shr_m mrs -> located u mrs ->
    0 <= shr_m (SpecFloat.iter_pos shr_1 n mrs)
    /\ located (u * bpow (Z.neg n)) (SpecFloat.iter_pos shr_1 n mrs).
Proof.
  assert (Hhalf : bpow (-1) = (1 / 2)%R) by (unfold bpow; simpl; lra).
  induction n as [n IH | n IH | ]; intros u mrs Hm H; cbn [SpecFloat.iter_pos].
  - destruct (shr_1_located u mrs Hm H) as [Hm1 H1].
    destruct (IH _ _ Hm1 H1) as [Hm2 H2].
    destruct (IH _ _ Hm2 H2) as [Hm3 H3].
    split; [exact Hm3 |].
    replace (Z.neg n~1) with (-1 + (Z.neg n + Z.neg n)) by lia.
    rewrite !bpow_add, Hhalf.
    replace (u * (1 / 2 * (bpow (Z.neg n) * bpow (Z.neg n))))%R
      with (u / 2 * bpow (Z.neg n) * bpow (Z.neg n))%R by lra.
    exact H3.
  - destruct (IH _ _ Hm H) as [Hm2 H2].
    destruct (IH _ _ Hm2 H2) as [Hm3 H3].
    split; [exact Hm3 |].
    replace (Z.neg n~0) with (Z.neg n + Z.neg n) by lia.
    rewrite bpow_add.
    replace (u * (bpow (Z.neg n) * bpow (Z.neg n)))%R
      with (u * bpow (Z.neg n) * bpow (Z.neg n))%R by lra.
    exact H3.
  - destruct (shr_1_located u mrs Hm H) as [Hm1 H1].
    split; [exact Hm1 |]. rewrite Hhalf.
    replace (u * (1 / 2))%R with (u / 2)%R by lra. exact H1.
Qed.

(** Shifting by [n >= 0] places. *)
Lemma shr_located (u : R) (mrs : shr_record) (e n : Z) :
  0 <= n -> 0 <= shr_m mrs -> located u mrs ->
  snd (shr mrs e n) = e + n
  /\ 0 <= shr_m (fst (shr mrs e n))
  /\ located (u * bpow (- n)) (fst (shr mrs e n)).
Proof.
  intros Hn Hm H. unfold shr. destruct n as [ | p | p]; cbn [fst snd].
  - split; [lia |]. split; [exact Hm |].
    replace (u * bpow (- 0))%R with u by (unfold bpow; simpl; lra). exact H.
  - split; [reflexivity |]. apply iter_pos_located; assumption.
  - lia.
Qed.

(** Rounding the located number to the nearest integer, ties to even. *)
Lemma round_nearest_even_located (u : R) (mrs : shr_record) :
  located u mrs ->
  let k := round_nearest_even (shr_m mrs) (loc_of_shr_record mrs) in
  shr_m mrs <= k <= shr_m mrs + 1
  /\ (-1 / 2 <= IZR k - u <= 1 / 2)%R.
Proof.
  destruct mrs as [m r s]. unfold located. simpl.
  destruct r, s; simpl; intros H.
  - split; [lia |]. rewrite plus_IZR. lra.
  - destruct (Z.even m); split; try lia; rewrite ?plus_IZR; lra.
  - split; [lia |]. lra.
  - split; [lia |]. lra.
Qed.

End ShiftFacts.
Import ShiftFacts.

Module RoundFacts.

Lemma located_bounds (u : R) (mrs : shr_record) :
  located u mrs -> (IZR (shr_m mrs) <= u < IZR (shr_m mrs) + 1)%R.
Proof.
  destruct mrs as [m r s]. unfold located. simpl. destruct r, s; lra.
Qed.

Lemma shr_m_of_loc (m : Z) (l : location) : shr_m (shr_record_of_loc m l) = m.
Proof. destruct l as [ | [ | | ]]; reflexivity. Qed.

Lemma shr_nonpos (mrs : shr_record) (e n : Z) : n <= 0 -> shr mrs e n = (mrs, e).
Proof. intros H. unfold shr. destruct n; try reflexivity. lia. Qed.

Lemma Zdigits2_pos (p : positive) : Zdigits2 (Z.pos p) = Z.pos (digits2_pos p).
Proof. reflexivity. Qed.

(** The rounding step of every operation: a positive mantissa [m] at
    exponent [e] with a location, standing for the real number [x], is
    rounded to a multiple of the unit of [x]'s binade, at most half a
    unit away. *)
Lemma binary_round_aux_spec (m e : Z) (l : location) (x : R) :
  0 < m ->
  located (x * bpow (- e)) (shr_record_of_loc m l) ->
  e <= fexp64 (Zdigits2 m + e) -> Zdigits2 m + e <= 1000 ->
  finite_nonneg (binary_round_aux prec emax false m e l)
  /\ rounds_to x (Zdigits2 m + e) (B2R (binary_round_aux prec emax false m e l)).
Proof.
  intros Hm Hloc He Hmag.
  destruct m as [ | p | p]; try lia. rewrite Zdigits2_pos in *.
  set (d := Z.pos (digits2_pos p)) in *.
  set (mag := d + e) in *. set (t := fexp64 mag) in *.
  assert (Ht : mag - 53 <= t /\ -1074 <= t /\ t <= 947) by (unfold t, fexp64; lia).
  destruct (digits_bounds p) as [Dlo Dhi]. fold d in Dlo, Dhi.
  destruct (located_bounds _ _ Hloc) as [Ulo Uhi]. rewrite shr_m_of_loc in Ulo, Uhi.
  pose proof (bpow_pos e) as Bpe. pose proof (bpow_pos (- e)) as Bne.
  assert (Bee : (bpow e * bpow (- e) = 1)%R).
  { rewrite <- bpow_add. replace (e + - e) with 0 by lia. reflexivity. }
  (* the magnitude of x *)
  assert (Xlo : (bpow (mag - 1) <= x)%R).
  { replace (mag - 1) with (d - 1 + e) by (unfold mag; lia). rewrite bpow_add.
    rewrite bpow_IZR by lia.
    assert (IZR (2 ^ (d - 1)) <= IZR (Z.pos p))%R by (apply IZR_le; exact Dlo).
    replace x with (x * bpow (- e) * bpow e)%R by (rewrite Rmult_assoc, (Rmult_comm (bpow (- e))), Bee; lra).
    nra. }
  assert (Xhi : (x < bpow mag)%R).
  { unfold mag. rewrite bpow_add. rewrite (bpow_IZR d) by (unfold d; lia).
    assert (IZR (Z.pos p) + 1 <= IZR (2 ^ d))%R.
    { rewrite <- plus_IZR. apply IZR_le. lia. }
    replace x with (x * bpow (- e) * bpow e)%R by (rewrite Rmult_assoc, (Rmult_comm (bpow (- e))), Bee; lra).
    nra. }
  (* first shift *)
  unfold binary_round_aux, shr_fexp. rewrite fexp_fexp64, Zdigits2_pos.
  fold d mag t.
  destruct (shr_located (x * bpow (- e)) (shr_record_of_loc (Z.pos p) l) e (t - e))
    as (Hs1 & Hs2 & Hs3); [lia | rewrite shr_m_of_loc; lia | exact Hloc |].
  destruct (shr (shr_record_of_loc (Z.pos p) l) e (t - e)) as [mrs' e'].
  cbn [fst snd] in Hs1, Hs2, Hs3. replace e' with t by lia. clear Hs1 e'.
  assert (Hu : (x * bpow (- e) * bpow (- (t - e)) = x * bpow (- t))%R).
  { rewrite Rmult_assoc, <- bpow_add. f_equal. f_equal. lia. }
  rewrite Hu in Hs3. clear Hu.
  set (u := (x * bpow (- t))%R) in *.
  destruct (round_nearest_even_located u mrs' Hs3) as [Hk Hku].
  set (k := round_nearest_even (shr_m mrs') (loc_of_shr_record mrs')) in *.
  destruct (located_bounds _ _ Hs3) as [Mlo _].
  assert (Uhi53 : (u < IZR (2 ^ 53))%R).
  { unfold u. rewrite <- bpow_IZR by lia.
    assert (bpow mag * bpow (- t) <= bpow 53)%R.
    { rewrite <- bpow_add. apply bpow_le. lia. }
    pose proof (bpow_pos (- t)). nra. }
  assert (Hm53 : shr_m mrs' < 2 ^ 53).
  { apply lt_IZR. lra. }
  assert (Hk53 : 0 <= k <= 2 ^ 53) by lia.
  assert (Hround : forall r : spec_float,
             finite_nonneg r -> B2R r = (IZR k * bpow t)%R ->
             finite_nonneg r /\ rounds_to x mag (B2R r)).
  { intros r Hr1 Hr2. split; [exact Hr1 |]. split; [exact Xlo |].
    exists k. fold t. split; [exact Hr2 | exact Hku]. }
  (* second shift *)
  rewrite fexp_fexp64.
  destruct (Z.eq_dec k 0) as [K0 | K0].
  - rewrite K0. rewrite shr_nonpos by (unfold fexp64; simpl; lia).
    cbn [shr_m]. apply Hround; [exact I |]. rewrite K0. simpl. lra.
  - destruct (Z.eq_dec k (2 ^ 53)) as [K53 | K53].
    + rewrite K53. change (Zdigits2 (2 ^ 53)) with 54.
      replace (fexp64 (54 + t) - t) with 1 by (unfold fexp64; lia).
      change (2 ^ 53) with 9007199254740992.
      cbn [shr shr_m SpecFloat.iter_pos shr_1 orb shr_record_of_loc].
      replace (t + 1 <=? emax - prec) with true
        by (symmetry; apply Z.leb_le; change (emax - prec) with 971; lia).
      apply Hround; [exact I |]. rewrite K53. cbn [B2R].
      rewrite bpow_add, bpow_1. change (2 ^ 53) with (2 * 4503599627370496).
      rewrite mult_IZR. lra.
    + destruct k as [ | kp | kp]; try lia.
      destruct (digits_bounds kp) as [Klo Khi].
      assert (Hdk : Z.pos (digits2_pos kp) <= 53).
      { destruct (Z.le_gt_cases (Z.pos (digits2_pos kp)) 53) as [ | Hgt]; [assumption |].
        assert (2 ^ 53 <= 2 ^ (Z.pos (digits2_pos kp) - 1))
          by (apply Z.pow_le_mono_r; lia). lia. }
      rewrite shr_nonpos by (rewrite Zdigits2_pos; unfold fexp64; lia).
      cbn [shr_m]. replace (t <=? emax - prec) with true
        by (symmetry; apply Z.leb_le; change (emax - prec) with 971; lia).
      apply Hround; [exact I |]. simpl. lra.
Qed.

End RoundFacts.
Import RoundFacts.

Module NearestFacts.

(** A valid number is a multiple of the unit of any binade that is not
    above its own, or lies below that binade. *)
Lemma valid_grid (g : spec_float) (mag : Z) :
  valid_binary g = true -> finite_nonneg g ->
  (exists j : Z, B2R g = (IZR j * bpow (fexp64 mag))%R)
  \/ ((B2R g < bpow (mag - 1))%R /\ fexp64 mag = mag - 53).
Proof.
  intros V F. destruct g as [s | s | | [ | ] m e]; try contradiction.
  - left. exists 0. simpl. lra.
  - apply valid_finite_inv in V. destruct V as (D & E & N).
    destruct (Z.le_gt_cases (fexp64 mag) e) as [Hle | Hgt].
    + left. exists (Z.pos m * 2 ^ (e - fexp64 mag)). cbn [B2R].
      rewrite mult_IZR, <- bpow_IZR by lia.
      rewrite Rmult_1_l, Rmult_assoc, <- bpow_add. do 2 f_equal. lia.
    + right. assert (Ht : fexp64 mag = mag - 53) by (unfold fexp64 in *; lia).
      split; [ | exact Ht]. cbn [B2R]. rewrite Rmult_1_l.
      destruct (digits_bounds_R m) as [_ Hm].
      assert (Hb : (bpow (Z.pos (digits2_pos m) + e) <= bpow (mag - 1))%R)
        by (apply bpow_le; lia).
      rewrite bpow_add in Hb. pose proof (bpow_pos e). nra.
Qed.

(** An integer at most half a unit away from [u] is on the same side of
    every integer as [u], and no integer is nearer. *)
Lemma int_nearest (k j : Z) (u : R) :
  (-1 / 2 <= IZR k - u <= 1 / 2)%R ->
  ((u <= IZR j)%R -> k <= j)
  /\ ((IZR j <= u)%R -> j <= k)
  /\ (Rabs (IZR k - u) <= Rabs (IZR j - u))%R.
Proof.
  intros H. split; [ | split].
  - intros Hj. apply Z.lt_succ_r. apply lt_IZR. rewrite succ_IZR. lra.
  - intros Hj. apply Z.lt_succ_r. apply lt_IZR. rewrite succ_IZR. lra.
  - destruct (Z.lt_trichotomy j k) as [Hlt | [-> | Hgt]].
    + assert (IZR j <= IZR k - 1)%R by (rewrite <- minus_IZR; apply IZR_le; lia).
      unfold Rabs. repeat destruct Rcase_abs; lra.
    + lra.
    + assert (IZR k + 1 <= IZR j)%R by (rewrite <- plus_IZR; apply IZR_le; lia).
      unfold Rabs. repeat destruct Rcase_abs; lra.
Qed.

Section Rounds.

Variables (x r : R) (mag : Z) (g : spec_float).
Hypothesis Hr : rounds_to x mag r.
Hypothesis Vg : valid_binary g = true.
Hypothesis Fg : finite_nonneg g.

Lemma rounds_facts :
  ((x <= B2R g)%R -> (r <= B2R g)%R)
  /\ ((B2R g <= x)%R -> (B2R g <= r)%R)
  /\ (Rabs (r - x) <= Rabs (B2R g - x))%R.
Proof.
  destruct Hr as (Xlo & k & Hk & Hku).
  set (t := fexp64 mag) in *.
  pose proof (bpow_pos t) as Bt. pose proof (bpow_pos (- t)) as Bnt.
  assert (Btt : (bpow (- t) * bpow t = 1)%R).
  { rewrite <- bpow_add. replace (- t + t) with 0 by lia. reflexivity. }
  set (u := (x * bpow (- t))%R) in *.
  assert (Hx : x = (u * bpow t)%R).
  { unfold u. rewrite Rmult_assoc, Btt. lra. }
  assert (Hmult : forall j : Z,
             ((x <= IZR j * bpow t)%R -> (r <= IZR j * bpow t)%R)
             /\ ((IZR j * bpow t <= x)%R -> (IZR j * bpow t <= r)%R)
             /\ (Rabs (r - x) <= Rabs (IZR j * bpow t - x))%R).
  { intros j. destruct (int_nearest k j u Hku) as (Hup & Hdown & Hnear).
    rewrite Hk, Hx. split; [ | split].
    - intros H. assert (u <= IZR j)%R by nra.
      assert (IZR k <= IZR j)%R by (apply IZR_le; auto). nra.
    - intros H. assert (IZR j <= u)%R by nra.
      assert (IZR j <= IZR k)%R by (apply IZR_le; auto). nra.
    - replace (IZR k * bpow t - u * bpow t)%R with ((IZR k - u) * bpow t)%R by lra.
      replace (IZR j * bpow t - u * bpow t)%R with ((IZR j - u) * bpow t)%R by lra.
      rewrite !Rabs_mult, (Rabs_pos_eq (bpow t)) by lra.
      apply Rmult_le_compat_r; lra. }
  destruct (valid_grid g mag Vg Fg) as [[j Hj] | [Hlt Ht]].
  - rewrite Hj. apply Hmult.
  - fold t in Ht.
    assert (HP : bpow (mag - 1) = (IZR (2 ^ 52) * bpow t)%R).
    { rewrite <- bpow_IZR by lia. rewrite <- bpow_add. f_equal. lia. }
    destruct (Hmult (2 ^ 52)) as (_ & Hdown & Hnear). rewrite <- HP in *.
    split; [ | split].
    + intros H. lra.
    + intros _. specialize (Hdown Xlo). lra.
    + rewrite (Rabs_left1 (bpow (mag - 1) - x)%R) in Hnear by lra.
      rewrite (Rabs_left1 (B2R g - x)%R) by lra. lra.
Qed.

End Rounds.

(** The same for a result that is rounded or exact. *)
Lemma rounded_facts (x r : R) (g : spec_float) :
  rounded x r -> valid_binary g = true -> finite_nonneg g ->
  ((x <= B2R g)%R -> (r <= B2R g)%R)
  /\ ((B2R g <= x)%R -> (B2R g <= r)%R)
  /\ (Rabs (r - x) <= Rabs (B2R g - x))%R.
Proof.
  intros [-> | [mag Hr]] Vg Fg.
  - split; [ | split]; try (intros H; exact H).
    replace (x - x)%R with 0%R by lra. rewrite Rabs_R0. apply Rabs_pos.
  - apply (rounds_facts x r mag g Hr Vg Fg).
Qed.

End NearestFacts.
Import NearestFacts.

Module OpFacts.

Lemma bpow_lt_inv (a b : Z) : (bpow a < bpow b)%R -> a < b.
Proof.
  intros H. destruct (Z.lt_ge_cases a b) as [ | Hge]; [assumption |].
  pose proof (bpow_le b a Hge). lra.
Qed.

Lemma bpow_cancel (e : Z) : (bpow e * bpow (- e) = 1)%R.
Proof. rewrite <- bpow_add. replace (e + - e) with 0 by lia. reflexivity. Qed.

(** The magnitude of a positive mantissa at an exponent, from a bound on
    its value. *)
Lemma mag_bound (p : positive) (e K : Z) :
  (IZR (Z.pos p) * bpow e < bpow K)%R -> Z.pos (digits2_pos p) + e <= K.
Proof.
  intros H. destruct (digits_bounds_R p) as [Hlo _].
  assert (Hb : (bpow (Z.pos (digits2_pos p) - 1 + e) < bpow K)%R).
  { rewrite bpow_add. pose proof (bpow_pos e). nra. }
  apply bpow_lt_inv in Hb. lia.
Qed.

Lemma digits_mul_lower (p q : positive) :
  Z.pos (digits2_pos p) + Z.pos (digits2_pos q) - 1 <= Z.pos (digits2_pos (p * q)).
Proof.
  destruct (digits_bounds p) as [Plo _], (digits_bounds q) as [Qlo _].
  destruct (digits_bounds (p * q)) as [_ Hhi].
  set (dp := Z.pos (digits2_pos p)) in *. set (dq := Z.pos (digits2_pos q)) in *.
  assert (H : 2 ^ (dp - 1 + (dq - 1)) <= Z.pos (p * q)).
  { rewrite Z.pow_add_r by (unfold dp, dq; lia). rewrite Pos2Z.inj_mul.
    apply Z.mul_le_mono_nonneg; try assumption; apply Z.pow_nonneg; lia. }
  assert (Hlt : 2 ^ (dp - 1 + (dq - 1)) < 2 ^ Z.pos (digits2_pos (p * q))) by lia.
  apply Z.pow_lt_mono_r_iff in Hlt; lia.
Qed.

(** Multiplication of two valid numbers that are not negative. *)
Lemma SFmul_rounded (x y : spec_float) :
  valid_binary x = true -> valid_binary y = true ->
  finite_nonneg x -> finite_nonneg y ->
  (B2R x * B2R y < bpow 1000)%R ->
  finite_nonneg (SFmul prec emax x y)
  /\ rounded (B2R x * B2R y) (B2R (SFmul prec emax x y)).
Proof.
  intros Vx Vy Fx Fy Hb.
  destruct x as [sx | sx | | [ | ] mx ex]; try contradiction;
    destruct y as [sy | sy | | [ | ] my ey]; try contradiction;
    cbn [SFmul xorb].
  - split; [exact I |]. left. simpl. lra.
  - split; [exact I |]. left. simpl. lra.
  - split; [exact I |]. left. simpl. lra.
  - cbn [B2R] in *. rewrite !Rmult_1_l in *.
    assert (Hval : (IZR (Z.pos mx) * bpow ex * (IZR (Z.pos my) * bpow ey)
                    = IZR (Z.pos (mx * my)) * bpow (ex + ey))%R).
    { rewrite Pos2Z.inj_mul, mult_IZR, bpow_add. lra. }
    rewrite Hval in *.
    apply valid_finite_inv in Vx, Vy.
    destruct Vx as (Dx & Ex & Nx), Vy as (Dy & Ey & Ny).
    pose proof (digits_mul_lower mx my) as Hd.
    pose proof (mag_bound _ _ _ Hb) as Hm.
    destruct (binary_round_aux_spec (Z.pos (mx * my)) (ex + ey) loc_Exact
                (IZR (Z.pos (mx * my)) * bpow (ex + ey))) as [H1 H2].
    + lia.
    + unfold located. cbn. rewrite Rmult_assoc, bpow_cancel. lra.
    + rewrite Zdigits2_pos. unfold fexp64.
      pose proof (Pos2Z.is_pos (digits2_pos mx)).
      pose proof (Pos2Z.is_pos (digits2_pos my)). lia.
    + rewrite Zdigits2_pos. lia.
    + split; [exact H1 |]. right. eexists. exact H2.
Qed.

Lemma iter_xO (m d : positive) : Z.pos (Pos.iter xO m d) = Z.pos m * 2 ^ Z.pos d.
Proof.
  change (Pos.iter xO m d) with (shift_pos d m).
  rewrite shift_pos_correct. change (Z.pow_pos 2 d) with (2 ^ Z.pos d). lia.
Qed.

Lemma digits_shift (m : positive) (d : Z) :
  0 <= d ->
  forall q : positive, Z.pos q = Z.pos m * 2 ^ d ->
  Z.pos (digits2_pos q) = Z.pos (digits2_pos m) + d.
Proof.
  intros Hd q Hq. apply digits_unique. rewrite Hq.
  destruct (digits_bounds m) as [Hlo Hhi].
  replace (Z.pos (digits2_pos m) + d - 1) with (Z.pos (digits2_pos m) - 1 + d) by lia.
  rewrite !Z.pow_add_r by lia.
  assert (0 < 2 ^ d) by (apply Z.pow_pos_nonneg; lia). nia.
Qed.

(** Aligning a mantissa on a smaller exponent keeps the value and the
    magnitude. *)
Lemma shl_align_spec (m : positive) (e e0 : Z) :
  let (m', e') := shl_align m e e0 in
  e' = Z.min e e0
  /\ (IZR (Z.pos m') * bpow e' = IZR (Z.pos m) * bpow e)%R
  /\ Z.pos (digits2_pos m') + e' = Z.pos (digits2_pos m) + e.
Proof.
  unfold shl_align. destruct (e0 - e) as [ | d | d] eqn:Hd.
  - split; [lia |]. split; reflexivity.
  - split; [lia |]. split; reflexivity.
  - assert (He : e = e0 + Z.pos d) by lia.
    split; [lia |]. split.
    + rewrite iter_xO, mult_IZR, <- bpow_IZR by lia.
      rewrite He, bpow_add. lra.
    + rewrite (digits_shift m (Z.pos d)) by (try apply iter_xO; lia). lia.
Qed.

(** Rounding a positive integer mantissa at an exponent. *)
Lemma binary_round_rounded (m : positive) (e : Z) :
  (IZR (Z.pos m) * bpow e < bpow 1000)%R ->
  finite_nonneg (binary_round prec emax false m e)
  /\ rounded (IZR (Z.pos m) * bpow e) (B2R (binary_round prec emax false m e)).
Proof.
  intros Hb. unfold binary_round. rewrite fexp_fexp64.
  pose proof (shl_align_spec m e (fexp64 (Z.pos (digits2_pos m) + e))) as Ha.
  destruct (shl_align m e _) as [mz ez]. destruct Ha as (He & Hv & Hd).
  pose proof (mag_bound _ _ _ Hb) as Hm.
  destruct (binary_round_aux_spec (Z.pos mz) ez loc_Exact
              (IZR (Z.pos m) * bpow e)) as [H1 H2].
  - lia.
  - unfold located. cbn. rewrite <- Hv, Rmult_assoc, bpow_cancel. lra.
  - rewrite Zdigits2_pos, Hd. lia.
  - rewrite Zdigits2_pos, Hd. lia.
  - split; [exact H1 |]. right. eexists. exact H2.
Qed.

(** Addition of two valid numbers that are not negative. *)
Lemma SFadd_rounded (x y : spec_float) :
  finite_nonneg x -> finite_nonneg y ->
  (B2R x + B2R y < bpow 1000)%R ->
  finite_nonneg (SFadd prec emax x y)
  /\ rounded (B2R x + B2R y) (B2R (SFadd prec emax x y)).
Proof.
  intros Fx Fy Hb.
  destruct x as [sx | sx | | [ | ] mx ex]; try contradiction;
    destruct y as [sy | sy | | [ | ] my ey]; try contradiction;
    cbn [SFadd].
  - split; [destruct sx, sy; exact I |]. left. destruct sx, sy; simpl; lra.
  - split; [exact I |]. left. simpl. lra.
  - split; [exact I |]. left. simpl. lra.
  - cbn [B2R] in *. rewrite !Rmult_1_l in *.
    pose proof (shl_align_spec mx ex (Z.min ex ey)) as Hx.
    pose proof (shl_align_spec my ey (Z.min ex ey)) as Hy.
    destruct (shl_align mx ex _) as [mx' ex'], (shl_align my ey _) as [my' ey'].
    destruct Hx as (Hex & Hvx & _), Hy as (Hey & Hvy & _).
    cbn [fst cond_Zopp]. unfold binary_normalize.
    change (Z.pos mx' + Z.pos my') with (Z.pos (mx' + my')).
    assert (Hval : (IZR (Z.pos mx) * bpow ex + IZR (Z.pos my) * bpow ey
                    = IZR (Z.pos (mx' + my')) * bpow (Z.min ex ey))%R).
    { rewrite Pos2Z.inj_add, plus_IZR, <- Hvx, <- Hvy.
      replace ex' with (Z.min ex ey) by lia.
      replace ey' with (Z.min ex ey) by lia. lra. }
    rewrite Hval in *. apply binary_round_rounded. exact Hb.
Qed.

End OpFacts.
Import OpFacts.

Module DivFacts.

Lemma new_location_new_loc (n r : Z) : new_location n r = new_loc n r.
Proof.
  unfold new_location, new_location_even, new_location_odd, new_loc.
  change (IntDef.Z.even n) with (Z.even n).
  change (IntDef.Z.eqb r 0) with (r =? 0).
  destruct (Z.even n), (r =? 0); reflexivity.
Qed.

(** The location of a remainder within the divisor. *)
Lemma new_loc_located (q r n : Z) :
  0 <= r < n ->
  located (IZR q + IZR r / IZR n) (shr_record_of_loc q (new_loc n r)).
Proof.
  intros [Hr0 Hrn].
  assert (Hn : (0 < IZR n)%R) by (apply IZR_lt; lia).
  assert (Hr : (0 <= IZR r)%R) by (apply IZR_le; lia).
  assert (Hq : (IZR r / IZR n * IZR n = IZR r)%R) by (field; lra).
  set (w := (IZR r / IZR n)%R) in *.
  assert (H3 : (IZR r < IZR n)%R) by (apply IZR_lt; exact Hrn).
  unfold new_loc.
  destruct (Z.eqb_spec r 0) as [-> | Hne].
  - assert (Hw : w = 0%R) by nra. unfold located; cbn; lra.
  - assert (Hr' : (0 < IZR r)%R) by (apply IZR_lt; lia).
    assert (Hpos : (0 < w)%R) by nra.
    destruct (Z.even n) eqn:Hev.
    + destruct (Z.compare_spec (2 * r) n) as [Hc | Hc | Hc].
      * assert (H2 : (2 * IZR r = IZR n)%R) by (rewrite <- mult_IZR; f_equal; exact Hc).
        unfold located; cbn; nra.
      * assert (H2 : (2 * IZR r < IZR n)%R) by (rewrite <- mult_IZR; apply IZR_lt; exact Hc).
        unfold located; cbn; nra.
      * assert (H2 : (IZR n < 2 * IZR r)%R) by (rewrite <- mult_IZR; apply IZR_lt; exact Hc).
        unfold located; cbn; nra.
    + assert (Hodd : Z.odd n = true)
        by (rewrite <- Z.negb_even; apply negb_true_iff; exact Hev).
      apply Z.odd_spec in Hodd. destruct Hodd as [h Hh].
      destruct (Z.compare_spec (2 * r + 1) n) as [Hc | Hc | Hc].
      * assert (H2 : (2 * IZR r < IZR n)%R) by (rewrite <- mult_IZR; apply IZR_lt; lia).
        unfold located; cbn; nra.
      * assert (H2 : (2 * IZR r < IZR n)%R) by (rewrite <- mult_IZR; apply IZR_lt; lia).
        unfold located; cbn; nra.
      * assert (H2 : (IZR n < 2 * IZR r)%R) by (rewrite <- mult_IZR; apply IZR_lt; lia).
        unfold located; cbn; nra.
Qed.

Lemma SFdiv_core_div_core (m1 m2 : positive) (e1 e2 : Z) :
  SFdiv_core_binary prec emax (Z.pos m1) e1 (Z.pos m2) e2
  = div_core (Z.pos m1) e1 (Z.pos m2) e2.
Proof.
  unfold SFdiv_core_binary, div_core.
  rewrite fexp_fexp64, !Zdigits2_pos.
  change (IntDef.Z.min ?a ?b) with (Z.min a b).
  set (e' := Z.min _ _).
  assert (Hs : 0 <= e1 - e2 - e') by (unfold e'; lia).
  assert (Hm : match e1 - e2 - e' with
               | 0 => Z.pos m1
               | Z.pos _ => IntDef.Z.shiftl (Z.pos m1) (e1 - e2 - e')
               | Z.neg _ => 0
               end = Z.pos m1 * 2 ^ (e1 - e2 - e')).
  { change (IntDef.Z.shiftl ?a ?b) with (Z.shiftl a b).
    destruct (e1 - e2 - e') as [ | s | s] eqn:Es.
    - simpl. lia.
    - rewrite Z.shiftl_mul_pow2 by lia. reflexivity.
    - lia. }
  rewrite Hm. set (m' := Z.pos m1 * 2 ^ (e1 - e2 - e')).
  change (IntDef.Z.div_eucl m' (Z.pos m2)) with (Z.div_eucl m' (Z.pos m2)).
  pose proof (Z_div_mod_eq_full m' (Z.pos m2)) as Hdm.
  unfold Z.div, Z.modulo in *.
  destruct (Z.div_eucl m' (Z.pos m2)) as [q r].
  rewrite new_location_new_loc. reflexivity.
Qed.

Lemma bpow_opp (e : Z) : bpow (- e) = (/ bpow e)%R.
Proof. apply powerRZ_neg'. Qed.

Lemma fexp64_mono (a b : Z) : a <= b -> fexp64 a <= fexp64 b.
Proof. unfold fexp64. lia. Qed.

(** The quotient of two mantissas, when the dividend is not the smaller
    number: enough digits are computed, and the quotient with its location
    stands for the real quotient. *)
Lemma div_core_spec (m1 m2 : positive) (e1 e2 : Z) :
  let X := (IZR (Z.pos m1) * bpow e1 / (IZR (Z.pos m2) * bpow e2))%R in
  (IZR (Z.pos m2) * bpow e2 <= IZR (Z.pos m1) * bpow e1)%R ->
  (X < bpow 1000)%R ->
  let '(q, e', l) := div_core (Z.pos m1) e1 (Z.pos m2) e2 in
  0 < q
  /\ located (X * bpow (- e')) (shr_record_of_loc q l)
  /\ e' <= fexp64 (Zdigits2 q + e')
  /\ Zdigits2 q + e' <= 1000.
Proof.
  intros X Hle Hb. unfold div_core. rewrite !Zdigits2_pos.
  set (d1 := Z.pos (digits2_pos m1)). set (d2 := Z.pos (digits2_pos m2)).
  destruct (digits_bounds m1) as [D1lo D1hi], (digits_bounds m2) as [D2lo D2hi].
  destruct (digits_bounds_R m1) as [R1lo R1hi], (digits_bounds_R m2) as [R2lo R2hi].
  fold d1 in D1lo, D1hi, R1lo, R1hi. fold d2 in D2lo, D2hi, R2lo, R2hi.
  assert (Hd1 : 0 < d1) by (unfold d1; lia).
  assert (Hd2 : 0 < d2) by (unfold d2; lia).
  set (k := d1 + e1 - (d2 + e2)).
  assert (Hk : 0 <= k).
  { assert (H : (bpow (d2 - 1 + e2) < bpow (d1 + e1))%R).
    { rewrite !bpow_add. pose proof (bpow_pos e1). pose proof (bpow_pos e2). nra. }
    apply bpow_lt_inv in H. unfold k. lia. }
  set (e' := Z.min (fexp64 k) (e1 - e2)).
  assert (He' : e' <= k - 53 /\ e' <= e1 - e2) by (unfold e', fexp64; lia).
  set (s := e1 - e2 - e'). assert (Hs : 0 <= s /\ 53 - d1 + d2 <= s) by (unfold s, k in *; lia).
  set (m' := Z.pos m1 * 2 ^ s).
  set (a := d1 - 1 + s - d2). assert (Ha : 52 <= a) by (unfold a; lia).
  assert (Hm' : 2 ^ a * Z.pos m2 <= m').
  { unfold m'. assert (H2 : 2 ^ (d1 - 1 + s) = 2 ^ a * 2 ^ d2).
    { rewrite <- Z.pow_add_r by lia. f_equal. unfold a. lia. }
    assert (H3 : 2 ^ (d1 - 1 + s) = 2 ^ (d1 - 1) * 2 ^ s) by (apply Z.pow_add_r; lia).
    assert (0 < 2 ^ a) by (apply Z.pow_pos_nonneg; lia).
    assert (0 < 2 ^ s) by (apply Z.pow_pos_nonneg; lia).
    nia. }
  assert (Hq : 2 ^ a <= m' / Z.pos m2).
  { apply Z.div_le_lower_bound; lia. }
  assert (Hqpos : 0 < m' / Z.pos m2).
  { assert (0 < 2 ^ a) by (apply Z.pow_pos_nonneg; lia). lia. }
  destruct (m' / Z.pos m2) as [ | q | q] eqn:Eq; try lia.
  rewrite Zdigits2_pos.
  destruct (digits_bounds q) as [_ Qhi].
  assert (Hdq : a < Z.pos (digits2_pos q)).
  { apply (Z.pow_lt_mono_r_iff 2); lia. }
  (* the real quotient *)
  pose proof (Z.mod_pos_bound m' (Z.pos m2) ltac:(lia)) as Hr.
  pose proof (Z_div_mod_eq_full m' (Z.pos m2)) as Hdm. rewrite Eq in Hdm.
  set (r := m' mod Z.pos m2) in *.
  assert (HX : (X * bpow (- e') = IZR (Z.pos q) + IZR r / IZR (Z.pos m2))%R).
  { unfold X. rewrite bpow_opp.
    replace e1 with (s + e' + e2) by (unfold s; lia). rewrite !bpow_add.
    assert (Hm1 : (IZR (Z.pos m1) * bpow s = IZR (Z.pos m2) * IZR (Z.pos q) + IZR r)%R).
    { rewrite bpow_IZR by lia. rewrite <- !mult_IZR, <- plus_IZR. f_equal.
      fold m'. exact Hdm. }
    pose proof (bpow_pos e') as B1. pose proof (bpow_pos e2) as B2.
    assert (B3 : (0 < IZR (Z.pos m2))%R) by (apply IZR_lt; lia).
    replace (IZR (Z.pos q) + IZR r / IZR (Z.pos m2))%R
      with ((IZR (Z.pos m2) * IZR (Z.pos q) + IZR r) / IZR (Z.pos m2))%R
      by (field; lra).
    rewrite <- Hm1. field. repeat split; lra. }
  split; [lia |]. split; [ | split].
  - rewrite HX. apply new_loc_located. exact Hr.
  - apply Z.le_trans with (fexp64 k).
    + unfold e'. lia.
    + apply fexp64_mono. unfold k, a in *. lia.
  - apply mag_bound.
    apply Rle_lt_trans with (2 := Hb).
    assert (Hge : (IZR (Z.pos q) <= X * bpow (- e'))%R).
    { rewrite HX. assert (0 <= IZR r / IZR (Z.pos m2))%R.
      { apply Rmult_le_pos; [apply IZR_le; lia |].
        apply Rlt_le, Rinv_0_lt_compat, IZR_lt. lia. }
      lra. }
    pose proof (bpow_pos e') as B1. pose proof (bpow_cancel e') as B2.
    replace X with (X * bpow (- e') * bpow e')%R
      by (rewrite Rmult_assoc, (Rmult_comm (bpow (- e'))), B2; lra).
    nra.
Qed.

(** Division of a valid positive number by one that is not larger. *)
Lemma SFdiv_rounded (mx my : positive) (ex ey : Z) :
  let X := (IZR (Z.pos mx) * bpow ex / (IZR (Z.pos my) * bpow ey))%R in
  (IZR (Z.pos my) * bpow ey <= IZR (Z.pos mx) * bpow ex)%R ->
  (X < bpow 1000)%R ->
  finite_nonneg (SFdiv prec emax (S754_finite false mx ex) (S754_finite false my ey))
  /\ rounded X (B2R (SFdiv prec emax (S754_finite false mx ex)
                                     (S754_finite false my ey))).
Proof.
  intros X Hle Hb. cbn [SFdiv xorb]. rewrite SFdiv_core_div_core.
  pose proof (div_core_spec mx my ex ey Hle Hb) as H.
  destruct (div_core (Z.pos mx) ex (Z.pos my) ey) as [[q e'] l].
  destruct H as (Hq & Hloc & He & Hm).
  destruct (binary_round_aux_spec q e' l X Hq Hloc He Hm) as [H1 H2].
  split; [exact H1 |]. right. eexists. exact H2.
Qed.

End DivFacts.
Import DivFacts.

(** *** Bounds on sums, products and quotients of floats *)

Module BoundFacts.

Lemma fin_nonneg (x : float) : fin x -> (0 <= F2R x)%R.
Proof.
  unfold fin, F2R. destruct (Prim2SF x) as [s | s | | [ | ] m e]; simpl; intros H;
    try contradiction; try lra.
  rewrite Rmult_1_l. apply Rlt_le, finite_pos.
Qed.

Lemma leb_F2R (x y : float) :
  fin x -> fin y -> ((x <=? y)%float = true <-> (F2R x <= F2R y)%R).
Proof.
  intros Fx Fy. rewrite FloatAxioms.leb_spec.
  apply SFleb_B2R; try assumption; apply Prim2SF_valid.
Qed.

Lemma ltb_F2R (x y : float) :
  fin x -> fin y -> ((x <? y)%float = true <-> (F2R x < F2R y)%R).
Proof.
  intros Fx Fy. rewrite FloatAxioms.ltb_spec.
  apply SFltb_B2R; try assumption; apply Prim2SF_valid.
Qed.

Lemma F2R_1 : F2R 1%float = 1%R.
Proof.
  unfold F2R.
  change (Prim2SF 1) with (S754_finite false 4503599627370496 (-52)).
  cbn [B2R]. change (-52) with (Z.opp 52). rewrite bpow_opp, bpow_IZR by lia.
  change (2 ^ 52) with 4503599627370496. field.
Qed.

Lemma F2R_2 : F2R 2%float = 2%R.
Proof.
  unfold F2R.
  change (Prim2SF 2) with (S754_finite false 4503599627370496 (-51)).
  cbn [B2R]. change (-51) with (Z.opp 51). rewrite bpow_opp, bpow_IZR by lia.
  change (2 ^ 51) with 2251799813685248. field.
Qed.

Lemma F2R_4 : F2R 4%float = 4%R.
Proof.
  unfold F2R.
  change (Prim2SF 4) with (S754_finite false 4503599627370496 (-50)).
  cbn [B2R]. change (-50) with (Z.opp 50). rewrite bpow_opp, bpow_IZR by lia.
  change (2 ^ 50) with 1125899906842624. field.
Qed.

Lemma F2R_8 : F2R 8%float = 8%R.
Proof.
  unfold F2R.
  change (Prim2SF 8) with (S754_finite false 4503599627370496 (-49)).
  cbn [B2R]. change (-49) with (Z.opp 49). rewrite bpow_opp, bpow_IZR by lia.
  change (2 ^ 49) with 562949953421312. field.
Qed.

Lemma bpow_1000_big : (256 < bpow 1000)%R.
Proof.
  apply Rlt_le_trans with (bpow 9).
  - rewrite bpow_IZR by lia. apply IZR_lt. reflexivity.
  - apply bpow_le. lia.
Qed.

(** A float between 0 and 1 is finite, and so is its value. *)
Lemma unit_fin (v : float) :
  (0 <=? v)%float = true -> (v <=? 1)%float = true ->
  fin v /\ (0 <= F2R v <= 1)%R.
Proof.
  intros H0 H1. apply SignFacts.leb_zero_nonneg in H0.
  assert (Fv : fin v).
  { unfold fin. rewrite FloatAxioms.leb_spec in H1. unfold SFleb in H1.
    destruct (Prim2SF v) as [s | s | | s m e]; cbn [nonneg] in H0.
    - exact I.
    - subst s. cbn [SFcompare] in H1.
      change (Prim2SF 1) with (S754_finite false 4503599627370496 (-52)) in H1.
      discriminate H1.
    - contradiction.
    - subst s. exact I. }
  split; [exact Fv |]. split; [apply fin_nonneg; exact Fv |].
  rewrite <- F2R_1. apply leb_F2R; try assumption. exact I.
Qed.

Section Ops.

Variables x y : float.
Hypothesis Fx : fin x.
Hypothesis Fy : fin y.

Lemma mul_rounded :
  (F2R x * F2R y < bpow 1000)%R ->
  fin (x * y) /\ rounded (F2R x * F2R y) (F2R (x * y)).
Proof.
  intros Hb. unfold fin, F2R in *. rewrite mul_spec.
  apply SFmul_rounded; try assumption; apply Prim2SF_valid.
Qed.

Lemma add_rounded :
  (F2R x + F2R y < bpow 1000)%R ->
  fin (x + y) /\ rounded (F2R x + F2R y) (F2R (x + y)).
Proof.
  intros Hb. unfold fin, F2R in *. rewrite add_spec.
  apply SFadd_rounded; assumption.
Qed.

Lemma div_rounded :
  (0 < F2R y <= F2R x)%R -> (F2R x / F2R y < bpow 1000)%R ->
  fin (x / y) /\ rounded (F2R x / F2R y) (F2R (x / y)).
Proof.
  intros [Hy Hxy] Hb. unfold fin, F2R in *. rewrite FloatAxioms.div_spec.
  destruct (Prim2SF x) as [sx | sx | | [ | ] mx ex]; try contradiction;
    destruct (Prim2SF y) as [sy | sy | | [ | ] my ey]; try contradiction;
    cbn [B2R] in *; try lra.
  rewrite !Rmult_1_l in *. apply SFdiv_rounded; assumption.
Qed.

(** The result of an operation does not cross a float [c]. *)
Lemma mul_le (c : float) :
  fin c -> (F2R x * F2R y <= F2R c)%R -> (F2R c < bpow 1000)%R ->
  fin (x * y) /\ (F2R (x * y) <= F2R c)%R.
Proof.
  intros Fc Hc Hb. destruct mul_rounded as [F R]; [lra |].
  split; [exact F |].
  apply (rounded_facts _ _ (Prim2SF c) R (Prim2SF_valid c) Fc). exact Hc.
Qed.

Lemma add_le (c : float) :
  fin c -> (F2R x + F2R y <= F2R c)%R -> (F2R c < bpow 1000)%R ->
  fin (x + y) /\ (F2R (x + y) <= F2R c)%R.
Proof.
  intros Fc Hc Hb. destruct add_rounded as [F R]; [lra |].
  split; [exact F |].
  apply (rounded_facts _ _ (Prim2SF c) R (Prim2SF_valid c) Fc). exact Hc.
Qed.

Lemma add_ge (c : float) :
  fin c -> (F2R c <= F2R x + F2R y)%R -> (F2R x + F2R y < bpow 1000)%R ->
  (F2R c <= F2R (x + y))%R.
Proof.
  intros Fc Hc Hb. destruct add_rounded as [F R]; [lra |].
  apply (rounded_facts _ _ (Prim2SF c) R (Prim2SF_valid c) Fc). exact Hc.
Qed.

(** A quotient of a float by one that is not larger is at least 1. *)
Lemma div_ge_1 :
  (0 < F2R y <= F2R x)%R -> (F2R x / F2R y < bpow 1000)%R ->
  fin (x / y) /\ (1 <= F2R (x / y))%R.
Proof.
  intros Hxy Hb. destruct (div_rounded Hxy Hb) as [F R].
  split; [exact F |]. rewrite <- F2R_1.
  apply (rounded_facts _ _ (Prim2SF 1) R (Prim2SF_valid 1) I).
  fold (F2R 1). rewrite F2R_1. apply Rmult_le_reg_r with (F2R y); [lra |].
  unfold Rdiv. rewrite Rmult_assoc, Rinv_l by lra. lra.
Qed.

End Ops.

(** The quotient of a positive float by itself is 1. *)
Lemma div_self (x : float) :
  fin x -> (0 < F2R x)%R -> (x / x)%float = 1%float.
Proof.
  intros Fx Hx.
  assert (Hq : (F2R x / F2R x = 1)%R) by (field; lra).
  destruct (div_rounded x x Fx Fx) as [F R]; [lra | |].
  { rewrite Hq. pose proof bpow_1000_big. lra. }
  rewrite Hq in R.
  destruct (rounded_facts _ _ (Prim2SF 1) R (Prim2SF_valid 1) I) as (Hup & Hdown & _).
  fold (F2R 1) in Hup, Hdown. rewrite F2R_1 in Hup, Hdown.
  assert (Hv : F2R (x / x) = F2R 1%float) by (rewrite F2R_1; lra).
  apply B2R_inj in Hv; try apply Prim2SF_valid; try assumption; try exact I.
  apply FloatFacts.SFcompare_Eq in Hv. destruct Hv as [Hv | (s & s' & _ & Hv)].
  - apply Prim2SF_inj. exact Hv.
  - discriminate Hv.
Qed.

(** Adding the same float to two ordered floats keeps the order. *)
Lemma add_mono (a b c : float) :
  fin a -> fin b -> fin c ->
  (F2R a <= F2R b)%R -> (F2R b + F2R c < bpow 1000)%R ->
  (F2R (a + c) <= F2R (b + c))%R.
Proof.
  intros Fa Fb Fc Hab Hb.
  destruct (add_rounded a c Fa Fc) as [Fac Rac]; [lra |].
  destruct (add_rounded b c Fb Fc) as [Fbc Rbc]; [lra |].
  destruct (rounded_facts _ _ (Prim2SF (b + c)) Rac (Prim2SF_valid _) Fbc)
    as (A1 & A2 & A3).
  destruct (rounded_facts _ _ (Prim2SF (a + c)) Rbc (Prim2SF_valid _) Fac)
    as (B1 & B2 & B3).
  destruct (Rle_lt_dec (F2R a + F2R c) (F2R (b + c))) as [H1 | H1];
    [apply A1; exact H1 |].
  destruct (Rle_lt_dec (F2R (a + c)) (F2R b + F2R c)) as [H2 | H2];
    [apply B2; exact H2 |].
  (* both results lie strictly around the two sums: the sums are equal *)
  assert (Heq : F2R a = F2R b).
  { unfold F2R in *. unfold Rabs in A3, B3.
    repeat match goal with
           | H : context [Rcase_abs ?t] |- _ => destruct (Rcase_abs t)
           end; lra. }
  unfold F2R in Heq.
  apply B2R_inj in Heq; try apply Prim2SF_valid; try assumption.
  apply FloatFacts.SFcompare_Eq in Heq.
  destruct Heq as [Heq | (s & s' & Ha & Hb')].
  - apply Prim2SF_inj in Heq. subst b. lra.
  - unfold F2R, fin in *. rewrite !add_spec, Ha, Hb'. unfold SF64add.
    destruct (Prim2SF c) as [sc | sc | | sc mc ec]; try contradiction.
    + destruct s, s', sc; simpl; lra.
    + simpl. lra.
Qed.

End BoundFacts.

(** *** The ratio is at least one *)

Module LowerBound.
Import BoundFacts.

Lemma F2R_0 : F2R 0%float = 0%R.
Proof. reflexivity. Qed.

Lemma F2R_32nd : F2R 0.03125%float = (1 / 32)%R.
Proof.
  unfold F2R.
  change (Prim2SF 0.03125) with (S754_finite false 4503599627370496 (-57)).
  cbn [B2R]. change (-57) with (Z.opp 57). rewrite bpow_opp, bpow_IZR by lia.
  change (2 ^ 57) with 144115188075855872. field.
Qed.

(** A constant of the scripts that lies between 0 and 1. *)
Lemma constant_unit (c : float) :
  (0 <=? c)%float = true -> (c <=? 1)%float = true ->
  fin c /\ (0 <= F2R c <= 1)%R.
Proof. apply unit_fin. Qed.

Lemma offset_bounds : fin 0.05%float /\ (1 / 32 <= F2R 0.05%float <= 1)%R.
Proof.
  destruct (constant_unit 0.05%float eq_refl eq_refl) as [F [_ H1]].
  split; [exact F |]. split; [ | exact H1].
  rewrite <- F2R_32nd. apply leb_F2R; [exact I | exact F | reflexivity].
Qed.

Lemma eqb_zero_false (x : float) :
  fin x -> (0 < F2R x)%R -> (x =? 0)%float = false.
Proof.
  unfold fin, F2R. intros Fx Hx. rewrite FloatAxioms.eqb_spec. unfold SFeqb.
  change (Prim2SF 0) with (S754_zero false).
  destruct (Prim2SF x) as [s | s | | [ | ] m e]; cbn [B2R] in Hx;
    try contradiction; try lra.
  reflexivity.
Qed.

(** [max] and [min] of two finite floats: the two floats, in order. *)
Lemma max_min_order (l1 l2 : float) (u : R) :
  fin l1 -> fin l2 -> (F2R l1 <= u)%R -> (F2R l2 <= u)%R ->
  fin (Py.max l1 l2) /\ fin (Py.min l1 l2)
  /\ (F2R (Py.min l1 l2) <= F2R (Py.max l1 l2) <= u)%R.
Proof.
  intros F1 F2 H1 H2. unfold Py.max, Py.min.
  pose proof (ltb_F2R l1 l2 F1 F2) as L12.
  pose proof (ltb_F2R l2 l1 F2 F1) as L21.
  assert (N12 : (l1 <? l2)%float = false -> (F2R l2 <= F2R l1)%R).
  { intros E. destruct (Rle_lt_dec (F2R l2) (F2R l1)) as [ | Hlt]; [assumption |].
    apply L12 in Hlt. congruence. }
  destruct (l1 <? l2)%float eqn:E12, (l2 <? l1)%float eqn:E21;
    try (assert (F2R l1 < F2R l2)%R by (apply L12; reflexivity));
    try (assert (F2R l2 < F2R l1)%R by (apply L21; reflexivity));
    try (assert (F2R l2 <= F2R l1)%R by (apply N12; reflexivity));
    repeat split; try assumption; lra.
Qed.

(** The quotient computed from two luminances between 0 and 4. *)
Lemma ratio_ge_1 (l1 l2 : float) :
  fin l1 -> fin l2 -> (F2R l1 <= 4)%R -> (F2R l2 <= 4)%R ->
  exists q : float,
    float_truediv (Py.max l1 l2 + 0.05)%float (Py.min l1 l2 + 0.05)%float = Ok q
    /\ (1 <=? q)%float = true.
Proof.
  intros F1 F2 H1 H2.
  destruct (max_min_order l1 l2 4 F1 F2 H1 H2) as (Fhi & Flo & Hlo & Hhi).
  set (hi := Py.max l1 l2) in *. set (lo := Py.min l1 l2) in *.
  destruct offset_bounds as (Fc & Hc1 & Hc2).
  pose proof (fin_nonneg lo Flo) as Hlo0.
  pose proof bpow_1000_big as Hbig.
  destruct (add_le hi 0.05%float Fhi Fc 8%float I) as [FA HA];
    [rewrite F2R_8; lra | rewrite F2R_8; lra |].
  destruct (add_le lo 0.05%float Flo Fc 8%float I) as [FB _];
    [rewrite F2R_8; lra | rewrite F2R_8; lra |].
  assert (HB : (F2R 0.05%float <= F2R (lo + 0.05)%float)%R).
  { apply add_ge; try assumption; lra. }
  assert (HBA : (F2R (lo + 0.05)%float <= F2R (hi + 0.05)%float)%R).
  { apply add_mono; try assumption; lra. }
  rewrite F2R_8 in HA.
  set (A := (hi + 0.05)%float) in *. set (B := (lo + 0.05)%float) in *.
  unfold float_truediv. rewrite (eqb_zero_false B FB) by lra.
  destruct (div_ge_1 A B FA FB) as [Fq Hq]; [lra | |].
  { assert (Hw : (F2R A / F2R B * F2R B = F2R A)%R) by (field; lra).
    set (w := (F2R A / F2R B)%R) in *. nra. }
  exists (A / B)%float. split; [reflexivity |].
  apply leb_F2R; [exact I | exact Fq |]. rewrite F2R_1. exact Hq.
Qed.

(** The quotient computed from a luminance and itself. *)
Lemma ratio_self (l : float) :
  fin l -> (F2R l <= 4)%R ->
  float_truediv (Py.max l l + 0.05)%float (Py.min l l + 0.05)%float = Ok 1%float.
Proof.
  intros F H.
  assert (Hlt : (l <? l)%float = false).
  { destruct (l <? l)%float eqn:E; [ | reflexivity].
    apply (ltb_F2R l l F F) in E. lra. }
  unfold Py.max, Py.min. rewrite Hlt.
  destruct offset_bounds as (Fc & Hc1 & Hc2).
  pose proof (fin_nonneg l F) as Hl0. pose proof bpow_1000_big as Hbig.
  destruct (add_le l 0.05%float F Fc 8%float I) as [FA _];
    [rewrite F2R_8; lra | rewrite F2R_8; lra |].
  assert (HA : (F2R 0.05%float <= F2R (l + 0.05)%float)%R).
  { apply add_ge; try assumption; lra. }
  unfold float_truediv. rewrite (eqb_zero_false _ FA) by lra.
  rewrite (div_self _ FA) by lra. reflexivity.
Qed.

Section WithPow.

Variable pow : float -> float -> res float.
Hypothesis pow_ok : pow_unit pow.

(** The luminance of a colour is a finite float between 0 and 4. *)
Lemma luminance_bounds (r g b : Z) :
  rgb r g b ->
  exists l : float,
    get_luminance pow r g b = Ok l /\ fin l /\ (F2R l <= 4)%R.
Proof.
  intros (Hr & Hg & Hb).
  destruct (RatioFacts.linearize_channel pow pow_ok r Hr) as (xr & vr & Hxr & Hvr & Hr0 & Hr1).
  destruct (RatioFacts.linearize_channel pow pow_ok g Hg) as (xg & vg & Hxg & Hvg & Hg0 & Hg1).
  destruct (RatioFacts.linearize_channel pow pow_ok b Hb) as (xb & vb & Hxb & Hvb & Hb0 & Hb1).
  unfold get_luminance.
  rewrite Hxr, Hxg, Hxb. cbn [bind]. rewrite Hvr, Hvg, Hvb. cbn [bind].
  eexists. split; [reflexivity |].
  destruct (unit_fin vr Hr0 Hr1) as [Fr [Rr0 Rr1]].
  destruct (unit_fin vg Hg0 Hg1) as [Fg [Rg0 Rg1]].
  destruct (unit_fin vb Hb0 Hb1) as [Fb [Rb0 Rb1]].
  destruct (constant_unit 0.2126%float eq_refl eq_refl) as [F1 [C10 C11]].
  destruct (constant_unit 0.7152%float eq_refl eq_refl) as [F2 [C20 C21]].
  destruct (constant_unit 0.0722%float eq_refl eq_refl) as [F3 [C30 C31]].
  pose proof bpow_1000_big as Hbig.
  destruct (mul_le 0.2126%float vr F1 Fr 1%float I) as [Fp1 Hp1];
    [rewrite F2R_1; nra | rewrite F2R_1; lra |].
  destruct (mul_le 0.7152%float vg F2 Fg 1%float I) as [Fp2 Hp2];
    [rewrite F2R_1; nra | rewrite F2R_1; lra |].
  destruct (mul_le 0.0722%float vb F3 Fb 1%float I) as [Fp3 Hp3];
    [rewrite F2R_1; nra | rewrite F2R_1; lra |].
  rewrite F2R_1 in Hp1, Hp2, Hp3.
  destruct (add_le _ _ Fp1 Fp2 2%float I) as [Fs Hs];
    [rewrite F2R_2; lra | rewrite F2R_2; lra |].
  rewrite F2R_2 in Hs.
  destruct (add_le _ _ Fs Fp3 4%float I) as [Fl Hl];
    [rewrite F2R_4; lra | rewrite F2R_4; lra |].
  rewrite F2R_4 in Hl. split; assumption.
Qed.

Lemma get_contrast_ratio_ge_1 (r1 g1 b1 r2 g2 b2 : Z) :
  rgb r1 g1 b1 -> rgb r2 g2 b2 ->
  exists q : float,
    get_contrast_ratio pow r1 g1 b1 r2 g2 b2 = Ok q /\ (1 <=? q)%float = true.
Proof.
  intros H1 H2.
  destruct (luminance_bounds r1 g1 b1 H1) as (l1 & Hl1 & F1 & B1).
  destruct (luminance_bounds r2 g2 b2 H2) as (l2 & Hl2 & F2 & B2).
  unfold get_contrast_ratio. rewrite Hl1, Hl2. cbn [bind].
  apply ratio_ge_1; assumption.
Qed.

Lemma get_contrast_ratio_self (r g b : Z) :
  rgb r g b -> get_contrast_ratio pow r g b r g b = Ok 1%float.
Proof.
  intros H. destruct (luminance_bounds r g b H) as (l & Hl & F & B).
  unfold get_contrast_ratio. rewrite Hl. cbn [bind].
  apply ratio_self; assumption.
Qed.

End WithPow.

End LowerBound.

(** C8: for every pair of RGB colours with channels between 0 and 255 the
    contrast ratio is computed and is at least 1.0, and the ratio of a
    colour against itself is 1.0, provided the power function of the
    runtime maps (0, 1] into [0, 1]. *)
Theorem contrast_ratio_at_least_one :
  forall (pow : float -> float -> res float) (r1 g1 b1 r2 g2 b2 : Z),
    pow_unit pow ->
    rgb r1 g1 b1 -> rgb r2 g2 b2 ->
    (exists q : float,
       get_contrast_ratio pow r1 g1 b1 r2 g2 b2 = Ok q
       /\ (1 <=? q)%float = true)
    /\ get_contrast_ratio pow r1 g1 b1 r1 g1 b1 = Ok 1%float.
Proof.
  intros pow r1 g1 b1 r2 g2 b2 Hpow H1 H2. split.
  - apply LowerBound.get_contrast_ratio_ge_1; assumption.
  - apply LowerBound.get_contrast_ratio_self; assumption.
Qed.

Lemma contrast_ratio_at_least_one_witness :
  (exists q : float,
     get_contrast_ratio Sample.pow 6 37 28 13 69 56 = Ok q
     /\ (1 <=? q)%float = true)
  /\ get_contrast_ratio Sample.pow 6 37 28 6 37 28 = Ok 1%float.
Proof.
  apply (contrast_ratio_at_least_one Sample.pow 6 37 28 13 69 56).
  - exact RatioFacts.sample_pow_unit.
  - unfold rgb, channel. lia.
  - unfold rgb, channel. lia.
Defined.

(** *** The walk over the ancestors *)

Import ContrastChecker.

(** X1: the walk stops at the nearest ancestor whose computed background is
    neither empty nor ['rgba(0, 0, 0, 0)']: that background is the one
    parsed, whatever the ancestors above it hold. *)
Theorem nearest_painted_ancestor_is_used :
  forall (page : Page) (sel own bg : string) (below above : list string),
    parse_rgb own = Ok None ->
    ancestor_backgrounds page sel = Ok (below ++ bg :: above) ->
    Forall js_transparent below ->
    bg <> "" -> bg <> "rgba(0, 0, 0, 0)" ->
    find_parent_bg (below ++ bg :: above) = bg
    /\ (bg0 <- parse_rgb own ;; resolve_background page sel bg0) = parse_rgb bg.
Proof.
  intros page sel own bg below above Hown Hbgs Hall H1 H2.
  assert (Hw : find_parent_bg (below ++ bg :: above) = bg).
  { rewrite WalkFacts.find_parent_bg_app by exact Hall.
    apply WalkFacts.find_parent_bg_stop; assumption. }
  split; [exact Hw |].
  rewrite Hown. cbn [bind]. unfold resolve_background. cbn [truthy negb].
  rewrite Hbgs. cbn [bind]. rewrite Hw. reflexivity.
Qed.

Lemma nearest_painted_ancestor_is_used_witness :
  find_parent_bg (["rgba(0, 0, 0, 0)"; ""] ++ "rgb(13, 69, 56)" :: ["rgb(0, 0, 0)"])
  = "rgb(13, 69, 56)"
  /\ (bg0 <- parse_rgb "rgba(0, 0, 0, 0)" ;;
      resolve_background Sample.nested_page "h1" bg0)
     = parse_rgb "rgb(13, 69, 56)".
Proof.
  apply (nearest_painted_ancestor_is_used Sample.nested_page "h1"
           "rgba(0, 0, 0, 0)" "rgb(13, 69, 56)" ["rgba(0, 0, 0, 0)"; ""]
           ["rgb(0, 0, 0)"]).
  - vm_compute. reflexivity.
  - vm_compute. reflexivity.
  - repeat (apply Forall_cons; [(left; reflexivity) || (right; reflexivity) |]).
    apply Forall_nil.
  - discriminate.
  - discriminate.
Defined.

(** X2: an ancestor whose background has alpha zero but is not written
    ['rgba(0, 0, 0, 0)'] stops the walk; its value parses to no colour, the
    painted ancestors above it are never read, and the element is left
    without a check. *)
Theorem zero_alpha_ancestor_leaves_element_unchecked :
  forall (pow : float -> float -> res float) (page : Page) (sel desc : string)
         (styles : Computed) (fg : option (list Z)) (bg : string)
         (below above : list string),
    is_visible page sel = Ok true ->
    computed_style page sel = Ok styles ->
    parse_rgb (color styles) = Ok fg ->
    parse_rgb (backgroundColor styles) = Ok None ->
    ancestor_backgrounds page sel = Ok (below ++ bg :: above) ->
    Forall js_transparent below ->
    bg <> "" -> bg <> "rgba(0, 0, 0, 0)" ->
    parse_rgb bg = Ok None ->
    check_element_contrast pow page sel desc = NoResult.
Proof.
  intros pow page sel desc styles fg bg below above Hv Hst Hfg Hown Hbgs Hall
    H1 H2 Hbg.
  unfold check_element_contrast, check_element_body.
  rewrite Hv. cbn [bind negb]. rewrite Hst. cbn [bind]. rewrite Hfg, Hown.
  cbn [bind]. unfold resolve_background. cbn [truthy negb].
  rewrite Hbgs. cbn [bind].
  rewrite WalkFacts.find_parent_bg_app by exact Hall.
  rewrite WalkFacts.find_parent_bg_stop by assumption.
  rewrite Hbg. cbn [bind]. destruct fg as [[ | c fg] | ]; reflexivity.
Qed.

Lemma zero_alpha_ancestor_leaves_element_unchecked_witness :
  check_element_contrast Sample.pow Sample.veiled_page "h1" "Main heading"
  = NoResult.
Proof.
  apply (zero_alpha_ancestor_leaves_element_unchecked Sample.pow
           Sample.veiled_page "h1" "Main heading" Sample.heading
           (Some [255; 255; 255]) "rgba(255, 255, 255, 0)"
           ["rgba(0, 0, 0, 0)"] ["rgb(13, 69, 56)"]).
  - reflexivity.
  - reflexivity.
  - vm_compute. reflexivity.
  - vm_compute. reflexivity.
  - reflexivity.
  - apply Forall_cons; [right; reflexivity | apply Forall_nil].
  - discriminate.
  - discriminate.
  - vm_compute. reflexivity.
Defined.

(** *** Colours with fewer than three channels *)

(** X3: when the two parsed colours do not have six channels together, the call
    of [get_contrast_ratio] on the unpacked tuples raises [TypeError], and
    the element gets the error record. *)
Theorem wrong_channel_count_is_reported :
  forall (pow : float -> float -> res float) (page : Page) (sel desc : string)
         (styles : Computed) (fg bg : list Z),
    is_visible page sel = Ok true ->
    computed_style page sel = Ok styles ->
    parse_rgb (color styles) = Ok (Some fg) ->
    (bg0 <- parse_rgb (backgroundColor styles) ;; resolve_background page sel bg0)
    = Ok (Some bg) ->
    fg <> [] -> bg <> [] ->
    (List.length fg + List.length bg <> 6)%nat ->
    check_element_contrast pow page sel desc = Errored sel TypeError.
Proof.
  intros pow page sel desc styles fg bg Hv Hst Hfg Hbg Hf Hb Hlen.
  unfold check_element_contrast, check_element_body.
  rewrite Hv. cbn [bind negb]. rewrite Hst. cbn [bind]. rewrite Hfg.
  cbn [bind].
  destruct (parse_rgb (backgroundColor styles)) as [bg0 | e];
    [ | discriminate Hbg].
  cbn [bind] in *. rewrite Hbg. cbn [bind].
  destruct fg as [ | f fg]; [contradiction |].
  destruct bg as [ | b bg]; [contradiction |].
  assert (Hs : get_contrast_ratio_star pow ((f :: fg) ++ b :: bg)
               = Raise TypeError).
  { assert (Hl : List.length ((f :: fg) ++ b :: bg) <> 6%nat).
    { rewrite length_app. exact Hlen. }
    destruct ((f :: fg) ++ b :: bg) as [ | x1 [ | x2 [ | x3 [ | x4 [ | x5 [ | x6 [ | x7 l]]]]]]];
      try reflexivity.
    exfalso. apply Hl. reflexivity. }
  rewrite Hs. reflexivity.
Qed.

Lemma wrong_channel_count_is_reported_witness :
  check_element_contrast Sample.pow Sample.short_color_page "p" "Body text"
  = Errored "p" TypeError.
Proof.
  apply (wrong_channel_count_is_reported Sample.pow Sample.short_color_page
           "p" "Body text" Sample.short_color [1; 2] [13; 69; 56]).
  - reflexivity.
  - reflexivity.
  - vm_compute. reflexivity.
  - vm_compute. reflexivity.
  - discriminate.
  - discriminate.
  - simpl. lia.
Defined.

(** *** Pages that cannot be reached *)

Module RunFacts.
Import ContrastChecker.

Section WithPow.

Variable pow : float -> float -> res float.

Lemma fst_audit_all_app (b : Browser) (l1 l2 : list Check) :
  fst (audit_all pow b (l1 ++ l2))
  = fst (audit_all pow b l1) ++ fst (audit_all pow b l2).
Proof.
  induction l1 as [ | c l1 IH]; simpl.
  - reflexivity.
  - destruct (audit_page_contrast pow b (url c) (name c) (selectors c))
      as [results evs].
    destruct (audit_all pow b (l1 ++ l2)) as [r evs'].
    destruct (audit_all pow b l1) as [r1 evs1].
    simpl in *. subst r. rewrite app_assoc. reflexivity.
Qed.

Lemma check_selectors_summary (page : Page) (sels : list SelectorInfo) :
  Forall (fun ev => ~ is_summary ev) (snd (check_selectors pow page sels)).
Proof.
  induction sels as [ | si sels IH]; simpl.
  - constructor.
  - destruct (check_selectors pow page sels) as [results evs]. simpl in IH.
    destruct (check_element_contrast pow page _ _) as [ | c | sel e]; simpl;
      try exact IH.
    constructor; [simpl; tauto |].
    destruct (passes c); simpl; [exact IH |].
    constructor; [simpl; tauto | exact IH].
Qed.

Lemma audit_all_summary (b : Browser) (checks : list Check) :
  Forall (fun ev => ~ is_summary ev) (snd (audit_all pow b checks)).
Proof.
  induction checks as [ | c checks IH]; simpl.
  - constructor.
  - unfold audit_page_contrast.
    destruct (goto b (url c)) as [page | e].
    + pose proof (check_selectors_summary page (selectors c)) as H.
      destruct (check_selectors pow page (selectors c)) as [results evs].
      destruct (audit_all pow b checks) as [all_results evs']. simpl in *.
      constructor; [simpl; tauto |]. apply Forall_app. split; assumption.
    + destruct (audit_all pow b checks) as [all_results evs']. simpl in *.
      repeat (constructor; [simpl; tauto |]). exact IH.
Qed.

Lemma partition_length (l : list ContrastCheck) :
  List.length l = (List.length (passing l) + List.length (failures l))%nat.
Proof.
  unfold passing, failures. induction l as [ | c l IH]; simpl.
  - reflexivity.
  - destruct (passes c); simpl; lia.
Qed.

End WithPow.

End RunFacts.

(** X4: when the navigation to a page raises, [audit_page_contrast] prints the
    error and returns no result; the results of the run are those of the
    other pages, in their order. *)
Theorem unreachable_page_is_skipped :
  forall (pow : float -> float -> res float) (b : Browser) (c : Check) (e : exn),
    goto b (url c) = Raise e ->
    audit_page_contrast pow b (url c) (name c) (selectors c)
    = ([], [PrintChecking (name c); PrintError e])
    /\ forall pre post : list Check,
         fst (audit_all pow b (pre ++ c :: post))
         = fst (audit_all pow b (pre ++ post)).
Proof.
  intros pow b c e Hg.
  assert (Hp : audit_page_contrast pow b (url c) (name c) (selectors c)
               = ([], [PrintChecking (name c); PrintError e])).
  { unfold audit_page_contrast. rewrite Hg. reflexivity. }
  split; [exact Hp |].
  intros pre post. rewrite !RunFacts.fst_audit_all_app. f_equal.
  simpl. rewrite Hp. destruct (audit_all pow b post). reflexivity.
Qed.

Lemma unreachable_page_is_skipped_witness :
  audit_page_contrast Sample.pow Sample.offline_browser
    "http://localhost:3000/amenities" "Amenities Page"
    (selectors Sample.amenities_check)
  = ([], [PrintChecking "Amenities Page"; PrintError DriverError])
  /\ forall pre post : list Check,
       fst (audit_all Sample.pow Sample.offline_browser
              (pre ++ Sample.amenities_check :: post))
       = fst (audit_all Sample.pow Sample.offline_browser (pre ++ post)).
Proof.
  apply (unreachable_page_is_skipped Sample.pow Sample.offline_browser
           Sample.amenities_check DriverError).
  reflexivity.
Defined.

(** *** The summary *)

(** X5: every result is counted once in the summary: the number of checked
    elements is the number of passing ones plus the number of failing ones,
    and the summary is the only place where the run prints totals. *)
Theorem summary_counts_add_up :
  forall (pow : float -> float -> res float) (checks : list Check) (b : Browser)
         (open_w : string -> res unit),
    Forall (fun ev => match ev with
                      | PrintSummary total passing failing =>
                          total = (passing + failing)%nat
                          /\ total = List.length (fst (audit_all pow b checks))
                      | _ => True
                      end)
           (snd (main_with pow checks b open_w)).
Proof.
  intros pow checks b open_w. unfold main_with.
  destruct (launch b) as [[] | e]; [ | constructor].
  pose proof (RunFacts.audit_all_summary pow b checks) as Hs.
  destruct (audit_all pow b checks) as [all_results evs]. simpl in Hs.
  assert (Hevs : Forall (fun ev => match ev with
                      | PrintSummary total passing failing =>
                          total = (passing + failing)%nat
                          /\ total = List.length all_results
                      | _ => True
                      end) evs).
  { eapply Forall_impl; [ | exact Hs]. intros [ | | | | t p f | | | ]; simpl; tauto. }
  assert (Hsum : Forall (fun ev => match ev with
                      | PrintSummary total passing failing =>
                          total = (passing + failing)%nat
                          /\ total = List.length all_results
                      | _ => True
                      end)
                   (PrintSummary (List.length all_results)
                      (List.length (passing all_results))
                      (List.length (failures all_results))
                    :: map PrintIssue (failures all_results))).
  { constructor.
    - split; [apply RunFacts.partition_length | reflexivity].
    - apply Forall_map. apply Forall_forall. intros c _. exact I. }
  destruct (close b) as [[] | e]; cbn [fst snd]; [ | exact Hevs].
  destruct (open_w report_path) as [[] | e]; cbn [fst snd].
  - apply Forall_app. split; [exact Hevs |].
    apply Forall_app. split; [exact Hsum |].
    repeat constructor.
  - apply Forall_app. split; [exact Hevs | exact Hsum].
Qed.

(** *** Results and selectors *)

(** X6: the results of a page are in the order of its selectors, one for each
    selector whose check produced a record, with the selector and the
    description of the job; selectors without a match, with unresolved
    colours or with an error leave no trace in the results. *)
Theorem results_follow_selectors :
  forall (pow : float -> float -> res float) (page : Page)
         (sels : list SelectorInfo),
    map (fun c => (selector c, description c))
        (fst (check_selectors pow page sels))
    = map (fun si => (info_selector si, info_description si))
        (filter (fun si => is_checked
                   (check_element_contrast pow page (info_selector si)
                      (info_description si))) sels).
Proof.
  intros pow page sels. induction sels as [ | si sels IH]; simpl.
  - reflexivity.
  - destruct (check_selectors pow page sels) as [results evs]. simpl in IH.
    destruct (check_element_contrast pow page (info_selector si)
                (info_description si)) as [ | c | sel e] eqn:Hc; simpl;
      try exact IH.
    apply CheckFacts.checked_inv in Hc.
    destruct Hc as (styles & fg & bg & ratio & fs & fw & _ & _ & _ & _ & _ & _ & ->).
    simpl. f_equal. exact IH.
Qed.

(** *** Ends of the run *)

(** X7: [main] of the contrast checker ends normally exactly when the browser
    can be launched and closed and the report can be written; an exception
    that leaves it is one of these three; and the report is written exactly
    in the runs that end normally, with the results of all pages. *)
Theorem contrast_main_ends :
  forall (pow : float -> float -> res float) (checks : list Check) (b : Browser)
         (open_w : string -> res unit),
    let run := main_with pow checks b open_w in
    (fst run = Ok tt <->
       launch b = Ok tt /\ close b = Ok tt /\ open_w report_path = Ok tt)
    /\ (forall e, fst run = Raise e ->
          launch b = Raise e \/ close b = Raise e
          \/ open_w report_path = Raise e)
    /\ (Exists is_write (snd run) <-> fst run = Ok tt)
    /\ (forall path report, In (WriteReport path report) (snd run) ->
          path = report_path /\ report = fst (audit_all pow b checks)).
Proof.
  intros pow checks b open_w. cbv zeta. unfold main_with.
  pose proof (ReportFacts.audit_all_no_write pow b checks) as Hw.
  destruct (launch b) as [[] | e1].
  2:{ cbn [fst snd]. split; [ | split; [ | split]].
      - split; [discriminate | intros (H & _); discriminate H].
      - intros e H. injection H as ->. left. reflexivity.
      - split; [intros H; inversion H | discriminate].
      - intros path report []. }
  destruct (audit_all pow b checks) as [all_results evs]. cbn [fst snd] in *.
  set (summary := PrintSummary (List.length all_results)
                    (List.length (passing all_results))
                    (List.length (failures all_results))
                  :: map PrintIssue (failures all_results)).
  assert (Hsum : Forall (fun ev => ~ is_write ev) summary).
  { constructor; [simpl; tauto |].
    apply Forall_map. apply Forall_forall. intros c _. simpl. tauto. }
  assert (Hall : Forall (fun ev => ~ is_write ev) (evs ++ summary)).
  { apply Forall_app. split; assumption. }
  assert (Hnone : forall l, Forall (fun ev => ~ is_write ev) l ->
                    (Exists is_write l -> False)
                    /\ forall path report, ~ In (WriteReport path report) l).
  { intros l Hl. rewrite Forall_forall in Hl. split.
    - intros H. apply Exists_exists in H. destruct H as (ev & Hin & Hev).
      exact (Hl _ Hin Hev).
    - intros path report Hin. exact (Hl _ Hin I). }
  destruct (close b) as [[] | e2].
  2:{ cbn [fst snd]. destruct (Hnone evs Hw) as [Hex Hin].
      split; [ | split; [ | split]].
      - split; [discriminate | intros (_ & H & _); discriminate H].
      - intros e H. injection H as ->. right. left. reflexivity.
      - split; [intros H; exfalso; exact (Hex H) | discriminate].
      - intros path report H. exfalso. exact (Hin _ _ H). }
  destruct (open_w report_path) as [[] | e3]; cbn [fst snd].
  - split; [ | split; [ | split]].
    + split; [intros _; repeat split | reflexivity].
    + intros e H. discriminate H.
    + split; [reflexivity |]. intros _. apply Exists_app. right.
      apply Exists_app. right. apply Exists_cons_hd. exact I.
    + intros path report H. rewrite app_assoc in H.
      apply in_app_or in H. destruct H as [H | H].
      * exfalso. exact (proj2 (Hnone _ Hall) _ _ H).
      * destruct H as [H | [H | []]]; [ | discriminate H].
        injection H as <- <-. split; reflexivity.
  - destruct (Hnone _ Hall) as [Hex Hin].
    split; [ | split; [ | split]].
    + split; [discriminate | intros (_ & _ & H); discriminate H].
    + intros e H. injection H as ->. right. right. reflexivity.
    + split; [intros H; exfalso; exact (Hex H) | discriminate].
    + intros path report H. exfalso. exact (Hin _ _ H).
Qed.

(** *** The text of a record *)

Module TextFacts.

Lemma take_length (n : nat) (s : string) : (String.length (take n s) <= n)%nat.
Proof.
  unfold take. revert s. induction n as [ | n IH]; intros [ | c s]; simpl; try lia.
  specialize (IH s). lia.
Qed.

Lemma take_take (n m : nat) (s : string) :
  take n (take m s) = take (Nat.min n m) s.
Proof.
  unfold take. revert m s.
  induction n as [ | n IH]; intros [ | m] [ | c s]; simpl; try reflexivity.
  rewrite IH. reflexivity.
Qed.

Lemma take_prefix (n : nat) (s : string) : prefix (take n s) s = true.
Proof.
  unfold take. revert s. induction n as [ | n IH]; intros [ | c s]; simpl;
    try reflexivity.
  destruct (Ascii.ascii_dec c c) as [_ | H]; [apply IH | contradiction].
Qed.

End TextFacts.

(** X8: a record names the selector and the description of its job and echoes
    the computed style of the element: the background it shows is the
    element's own, also when the ratio was computed against an ancestor.
    Its text is the first 50 characters of the inner text; the cut at 100
    made in the page has no effect. *)
Theorem record_echoes_the_style :
  forall (pow : float -> float -> res float) (page : Page) (sel desc : string)
         (styles : Computed) (c : ContrastCheck),
    computed_style page sel = Ok styles ->
    check_element_contrast pow page sel desc = Checked c ->
    selector c = sel /\ description c = desc
    /\ check_color c = color styles
    /\ check_backgroundColor c = backgroundColor styles
    /\ check_fontSize c = fontSize styles
    /\ check_fontWeight c = fontWeight styles
    /\ text c = match innerText styles with
                | Some t => take 50 t
                | None => ""
                end
    /\ (String.length (text c) <= 50)%nat.
Proof.
  intros pow page sel desc styles c Hst H.
  apply CheckFacts.checked_inv in H.
  destruct H as (styles' & fg & bg & ratio & fs & fw & Hst' & _ & _ & _ & _ & _ & ->).
  rewrite Hst in Hst'. injection Hst' as <-. cbn.
  repeat (split; [reflexivity |]). split.
  - unfold text_of. destruct (innerText styles) as [t | ]; [ | reflexivity].
    change (substring 0 100 t) with (take 100 t).
    rewrite TextFacts.take_take. reflexivity.
  - apply TextFacts.take_length.
Qed.

Lemma record_echoes_the_style_witness :
  selector Sample.heading_record = "h1"
  /\ description Sample.heading_record = "Main heading"
  /\ check_color Sample.heading_record = "rgb(255, 255, 255)"
  /\ check_backgroundColor Sample.heading_record = "rgba(0, 0, 0, 0)"
  /\ check_fontSize Sample.heading_record = "20px"
  /\ check_fontWeight Sample.heading_record = "bold"
  /\ text Sample.heading_record = take 50 "Welcome"
  /\ (String.length (text Sample.heading_record) <= 50)%nat.
Proof.
  apply (record_echoes_the_style Sample.pow Sample.page "h1" "Main heading"
           Sample.heading Sample.heading_record).
  - reflexivity.
  - vm_compute. reflexivity.
Defined.

(** *** The verdict and the font *)

Module VerdictFacts.

(** [<=] on floats, from a positive constant on. *)
Lemma leb_trans_pos (c x y : float) (m : positive) (e : Z) :
  Prim2SF c = S754_finite false m e ->
  (c <=? x)%float = true -> (x <=? y)%float = true -> (c <=? y)%float = true.
Proof.
  intros Hc. rewrite !FloatAxioms.leb_spec.
  pose proof (Prim2SF_valid c) as Vc.
  pose proof (Prim2SF_valid x) as Vx. pose proof (Prim2SF_valid y) as Vy.
  rewrite Hc in *. clear Hc.
  destruct (Prim2SF x) as [sx | sx | | sx mx ex].
  - unfold SFleb at 1. cbn [SFcompare]. discriminate.
  - destruct sx; [unfold SFleb at 1; cbn [SFcompare]; discriminate |].
    intros _. destruct (Prim2SF y) as [sy | [ | ] | | [ | ] my ey];
      unfold SFleb; cbn [SFcompare]; try discriminate. reflexivity.
  - unfold SFleb at 1. cbn [SFcompare]. discriminate.
  - destruct sx; [unfold SFleb at 1; cbn [SFcompare]; discriminate |].
    destruct (Prim2SF y) as [sy | [ | ] | | [ | ] my ey];
      try (intros _; unfold SFleb; cbn [SFcompare]; discriminate);
      try (intros _ _; reflexivity).
    intros H1 H2.
    apply (OrderFacts.SFleb_B2R _ _ Vc Vx I I) in H1.
    apply (OrderFacts.SFleb_B2R _ _ Vx Vy I I) in H2.
    apply (OrderFacts.SFleb_B2R _ _ Vc Vy I I). lra.
Qed.

Lemma is_large_mono (fs fs' : float) (fw fw' : Z) :
  (fs <=? fs')%float = true -> fw <= fw' ->
  is_large fs fw = true -> is_large fs' fw' = true.
Proof.
  intros Hs Hw. rewrite !CheckFacts.is_large_iff. intros [H | [H1 H2]].
  - left. exact (leb_trans_pos 24 fs fs' _ _ eq_refl H Hs).
  - right. split; [ | lia].
    exact (leb_trans_pos 18.66 fs fs' _ _ eq_refl H1 Hs).
Qed.

Lemma min_ratio_large (large : bool) (ratio : float) :
  (min_ratio large <=? ratio)%float = true ->
  (min_ratio true <=? ratio)%float = true.
Proof.
  destruct large; [tauto |]. cbn [min_ratio]. intros H.
  exact (leb_trans_pos 3.0 4.5 ratio _ _ eq_refl eq_refl H).
Qed.

End VerdictFacts.

(** X9: the verdict is monotone in the font: at the same ratio, text that counts
    as large still does at a larger size and a heavier weight, and text that
    passes still passes. *)
Theorem verdict_is_monotone_in_the_font :
  forall (font_size font_size' : float) (font_weight font_weight' : Z)
         (ratio : float),
    (font_size <=? font_size')%float = true ->
    font_weight <= font_weight' ->
    (is_large font_size font_weight = true ->
     is_large font_size' font_weight' = true)
    /\ ((min_ratio (is_large font_size font_weight) <=? ratio)%float = true ->
        (min_ratio (is_large font_size' font_weight') <=? ratio)%float = true).
Proof.
  intros fs fs' fw fw' ratio Hs Hw.
  pose proof (VerdictFacts.is_large_mono fs fs' fw fw' Hs Hw) as Hl.
  split; [exact Hl |]. intros H.
  destruct (is_large fs' fw') eqn:E'.
  - apply (VerdictFacts.min_ratio_large _ _ H).
  - destruct (is_large fs fw); [ | exact H].
    specialize (Hl eq_refl). discriminate Hl.
Qed.

Lemma verdict_is_monotone_in_the_font_witness :
  (is_large 20 700 = true -> is_large 24 700 = true)
  /\ ((min_ratio (is_large 20 700) <=? 3.5)%float = true ->
      (min_ratio (is_large 24 700) <=? 3.5)%float = true).
Proof.
  apply (verdict_is_monotone_in_the_font 20 24 700 700 3.5).
  - reflexivity.
  - lia.
Defined.

(** *** Font weights with a superscript digit *)

Module WeightFacts.

(** A character with the property Digit is no space, no sign and no
    underscore. *)
Lemma unicode_digit_char (c : ascii) :
  is_unicode_digit c = true ->
  is_cspace c = false /\ Ascii.eqb c "_" = false
  /\ forall s, read_sign (String c s) = (false, String c s).
Proof.
  destruct c as [[ | ] [ | ] [ | ] [ | ] [ | ] [ | ] [ | ] [ | ]];
    vm_compute; intros H; try discriminate H;
    repeat split; reflexivity.
Qed.

Lemma rstrip_by_none (p : ascii -> bool) (s : string) :
  all_chars (fun c => negb (p c)) s = true -> rstrip_by p s = s.
Proof.
  induction s as [ | c s IH]; simpl; intros H.
  - reflexivity.
  - apply andb_true_iff in H. destruct H as [Hc Hs].
    rewrite (IH Hs). apply negb_true_iff in Hc. rewrite Hc. reflexivity.
Qed.

Lemma all_chars_impl (p q : ascii -> bool) (s : string) :
  (forall c, p c = true -> q c = true) ->
  all_chars p s = true -> all_chars q s = true.
Proof.
  intros Hpq. induction s as [ | c s IH]; simpl; intros H.
  - reflexivity.
  - apply andb_true_iff in H. destruct H as [Hc Hs].
    rewrite (Hpq c Hc), (IH Hs). reflexivity.
Qed.

Lemma drop_underscores_none (prev : option ascii) (s : string) :
  match prev with Some p => Ascii.eqb p "_" | None => false end = false ->
  all_chars (fun c => negb (Ascii.eqb c "_")) s = true ->
  drop_underscores prev s = Some s.
Proof.
  revert prev. induction s as [ | c s IH]; intros prev Hp H; simpl.
  - rewrite Hp. reflexivity.
  - simpl in H. apply andb_true_iff in H. destruct H as [Hc Hs].
    apply negb_true_iff in Hc. rewrite Hc, Hp. simpl.
    rewrite (IH (Some c) Hc Hs). reflexivity.
Qed.

Lemma span_digits_rest (s : string) :
  all_chars is_ascii_digit s = false -> snd (span_digits s) <> "".
Proof.
  induction s as [ | c s IH]; simpl; intros H.
  - discriminate H.
  - destruct (is_ascii_digit c); simpl in *.
    + destruct (span_digits s) as [ds r]. simpl in *. apply IH. exact H.
    + discriminate.
Qed.

(** On a str of code points below 256, [int] raises when [isdigit] holds
    but not all characters are ASCII digits: the others are superscripts. *)
Lemma int_of_superscript (w : string) :
  isdigit w = true -> all_chars is_ascii_digit w = false ->
  int_of_str w = Raise ValueError.
Proof.
  unfold isdigit. intros Hd Ha. apply andb_true_iff in Hd.
  destruct Hd as [Hne Hd]. destruct w as [ | c w]; [discriminate Hne |].
  clear Hne. unfold int_of_str.
  assert (Hsp : all_chars (fun c => negb (is_cspace c)) (String c w) = true).
  { revert Hd. apply all_chars_impl. intros a Hu.
    destruct (unicode_digit_char a Hu) as (-> & _). reflexivity. }
  assert (Hun : all_chars (fun c => negb (Ascii.eqb c "_")) (String c w) = true).
  { revert Hd. apply all_chars_impl. intros a Hu.
    destruct (unicode_digit_char a Hu) as (_ & -> & _). reflexivity. }
  assert (Hc : is_unicode_digit c = true).
  { simpl in Hd. apply andb_true_iff in Hd. tauto. }
  destruct (unicode_digit_char c Hc) as (Hcs & _ & Hsign).
  replace (lstrip_by is_cspace (String c w)) with (String c w)
    by (simpl; rewrite Hcs; reflexivity).
  rewrite (rstrip_by_none _ _ Hsp), Hsign.
  rewrite (drop_underscores_none None _ eq_refl Hun).
  pose proof (span_digits_rest _ Ha) as Hr.
  destruct (span_digits (String c w)) as [[ | d ds] [ | a r]]; try reflexivity.
  exfalso. apply Hr. reflexivity.
Qed.

Lemma ascii_digit_plain (c : ascii) :
  is_ascii_digit c = true -> negb (is_superscript c) = true.
Proof.
  destruct c as [[ | ] [ | ] [ | ] [ | ] [ | ] [ | ] [ | ] [ | ]];
    vm_compute; intros H; try discriminate H; reflexivity.
Qed.

Lemma superscript_not_ascii (w : string) :
  has_superscript w = true -> all_chars is_ascii_digit w = false.
Proof.
  unfold has_superscript. intros H. apply negb_true_iff in H.
  destruct (all_chars is_ascii_digit w) eqn:E; [ | reflexivity].
  rewrite (all_chars_impl _ _ w ascii_digit_plain E) in H. discriminate H.
Qed.

End WeightFacts.

(** X10: a font weight that [isdigit] accepts and that holds a superscript
    two, three or one makes [int] raise [ValueError]: the element, whose
    colours, ratio and font size were read, gets the error record instead
    of a check with the weight 400.  (A str holds code points below 256
    here; a digit of another script, which [int] reads, is not covered.) *)
Theorem superscript_weight_is_an_error :
  forall (pow : float -> float -> res float) (page : Page) (sel desc : string)
         (styles : Computed) (fg bg : list Z) (ratio font_size : float),
    is_visible page sel = Ok true ->
    computed_style page sel = Ok styles ->
    parse_rgb (color styles) = Ok (Some fg) ->
    (bg0 <- parse_rgb (backgroundColor styles) ;; resolve_background page sel bg0)
    = Ok (Some bg) ->
    fg <> [] -> bg <> [] ->
    get_contrast_ratio_star pow (fg ++ bg) = Ok ratio ->
    float_of_str (replace "px" "" (fontSize styles)) = Ok font_size ->
    isdigit (fontWeight styles) = true ->
    has_superscript (fontWeight styles) = true ->
    int_of_str (fontWeight styles) = Raise ValueError
    /\ check_element_contrast pow page sel desc = Errored sel ValueError.
Proof.
  intros pow page sel desc styles fg bg ratio fs Hv Hst Hfg Hbg Hf Hb Hr Hfs Hd Hs.
  pose proof (WeightFacts.int_of_superscript _ Hd
                (WeightFacts.superscript_not_ascii _ Hs)) as Hw.
  split; [exact Hw |].
  unfold check_element_contrast, check_element_body.
  rewrite Hv. cbn [bind negb]. rewrite Hst. cbn [bind]. rewrite Hfg.
  cbn [bind].
  destruct (parse_rgb (backgroundColor styles)) as [bg0 | e];
    [ | discriminate Hbg].
  cbn [bind] in *. rewrite Hbg. cbn [bind].
  destruct fg as [ | f fg]; [contradiction |].
  destruct bg as [ | b bg]; [contradiction |].
  rewrite Hr. cbn [bind]. rewrite Hfs. cbn [bind]. rewrite Hd, Hw.
  reflexivity.
Qed.

Lemma superscript_weight_is_an_error_witness :
  int_of_str (fontWeight Sample.odd_weight) = Raise ValueError
  /\ check_element_contrast Sample.pow Sample.odd_weight_page "p" "Body text"
     = Errored "p" ValueError.
Proof.
  eapply (superscript_weight_is_an_error Sample.pow Sample.odd_weight_page "p"
            "Body text" Sample.odd_weight [6; 37; 28] [13; 69; 56]).
  - reflexivity.
  - reflexivity.
  - vm_compute. reflexivity.
  - vm_compute. reflexivity.
  - discriminate.
  - discriminate.
  - vm_compute. reflexivity.
  - vm_compute. reflexivity.
  - vm_compute. reflexivity.
  - vm_compute. reflexivity.
Defined.

(** *** Parsing what the browser writes *)

Module SerialFacts.

Lemma append_nil_r (s : string) : (s ++ "")%string = s.
Proof. induction s as [ | c s IH]; simpl; [ | rewrite IH]; reflexivity. Qed.

Lemma append_assoc (s t u : string) :
  (s ++ (t ++ u))%string = ((s ++ t) ++ u)%string.
Proof. induction s as [ | c s IH]; simpl; [ | rewrite IH]; reflexivity. Qed.

Lemma all_chars_app (p : ascii -> bool) (s t : string) :
  all_chars p (s ++ t)%string = all_chars p s && all_chars p t.
Proof.
  induction s as [ | c s IH]; simpl; [reflexivity |].
  rewrite IH, andb_assoc. reflexivity.
Qed.

Lemma lacks_app (o : ascii) (s t : string) :
  lacks o (s ++ t)%string = lacks o s && lacks o t.
Proof. apply all_chars_app. Qed.

Lemma prefix_other (o c : ascii) (old s : string) :
  Ascii.eqb c o = false -> prefix (String o old) (String c s) = false.
Proof.
  intros H. cbn [prefix]. destruct (Ascii.ascii_dec o c) as [-> | _];
    [ | reflexivity].
  rewrite Ascii.eqb_refl in H. discriminate H.
Qed.

Lemma lacks_cons (o c : ascii) (s : string) :
  lacks o (String c s) = true -> Ascii.eqb c o = false /\ lacks o s = true.
Proof.
  unfold lacks. cbn [all_chars]. intros H. apply andb_true_iff in H.
  destruct H as [H1 H2]. apply negb_true_iff in H1. split; assumption.
Qed.

(** A part without the first character of [old] is copied by [replace]. *)
Lemma replace_skip (o : ascii) (old new s t : string) :
  lacks o s = true ->
  replace_from (String o old) new 0 (s ++ t)
  = (s ++ replace_from (String o old) new 0 t)%string.
Proof.
  induction s as [ | c s IH]; intros H; [reflexivity |].
  apply lacks_cons in H. destruct H as [Hc Hs].
  change (String c s ++ t)%string with (String c (s ++ t)).
  cbn [replace_from]. rewrite (prefix_other o c old _ Hc), (IH Hs).
  reflexivity.
Qed.

Lemma replace_lacks (o : ascii) (old new s : string) :
  lacks o s = true -> replace_from (String o old) new 0 s = s.
Proof.
  intros H. pose proof (replace_skip o old new s "" H) as E.
  rewrite !append_nil_r in E. exact E.
Qed.

Lemma contains_lacks (o : ascii) (sub s : string) :
  lacks o s = true -> contains (String o sub) s = false.
Proof.
  induction s as [ | c s IH]; intros H; [reflexivity |].
  apply lacks_cons in H. destruct H as [Hc Hs].
  cbn [contains]. rewrite (prefix_other o c sub _ Hc), (IH Hs). reflexivity.
Qed.

(** [split] cuts at the first separator after a part that has none. *)
Lemma split_skip (o : ascii) (s t : string) :
  lacks o s = true ->
  split_from (String o "") 0 (s ++ String o t)
  = s :: split_from (String o "") 0 t.
Proof.
  induction s as [ | c s IH]; intros H.
  - cbn [append split_from prefix]. 
    destruct (Ascii.ascii_dec o o) as [_ | Hn]; [ | contradiction].
    destruct t; reflexivity.
  - apply lacks_cons in H. destruct H as [Hc Hs].
    change (String c s ++ String o t)%string with (String c (s ++ String o t)).
    cbn [split_from]. rewrite (prefix_other o c "" _ Hc), (IH Hs). reflexivity.
Qed.

Lemma split_lacks (o : ascii) (s : string) :
  lacks o s = true -> split_from (String o "") 0 s = [s].
Proof.
  induction s as [ | c s IH]; intros H; [reflexivity |].
  apply lacks_cons in H. destruct H as [Hc Hs].
  cbn [split_from]. rewrite (prefix_other o c "" _ Hc), (IH Hs). reflexivity.
Qed.

(** A numeral has none of the characters of the notation around it. *)
Lemma decimal_lacks (o : ascii) (s : string) :
  is_decimal_char o = false ->
  all_chars is_decimal_char s = true -> lacks o s = true.
Proof.
  intros Ho. apply WeightFacts.all_chars_impl. intros c Hc.
  apply negb_true_iff. destruct (Ascii.eqb_spec c o) as [-> | _];
    [congruence | reflexivity].
Qed.

Lemma digits_decimal (s : string) :
  all_chars is_ascii_digit s = true -> all_chars is_decimal_char s = true.
Proof.
  apply WeightFacts.all_chars_impl. intros c Hc. unfold is_decimal_char.
  rewrite Hc. reflexivity.
Qed.

Lemma decimal_no_space (c : ascii) :
  is_decimal_char c = true -> negb (is_space c) = true.
Proof.
  destruct c as [[ | ] [ | ] [ | ] [ | ] [ | ] [ | ] [ | ] [ | ]];
    vm_compute; intros H; try discriminate H; reflexivity.
Qed.

(** [strip] removes the space the notation puts before a numeral. *)
Lemma strip_numeral (s : string) :
  all_chars is_decimal_char s = true ->
  strip s = s /\ strip (String " " s) = s.
Proof.
  intros H.
  assert (Hs : all_chars (fun c => negb (is_space c)) s = true).
  { revert H. apply WeightFacts.all_chars_impl. apply decimal_no_space. }
  assert (Hl : lstrip_by is_space s = s).
  { destruct s as [ | c s]; [reflexivity |]. simpl in Hs |- *.
    apply andb_true_iff in Hs. destruct Hs as [Hc _].
    apply negb_true_iff in Hc. rewrite Hc. reflexivity. }
  unfold strip.
  change (lstrip_by is_space (String " " s)) with (lstrip_by is_space s).
  rewrite Hl, (WeightFacts.rstrip_by_none _ _ Hs). split; reflexivity.
Qed.

(** [str] and [int] on the channels, by evaluation on the 256 values. *)
Lemma channels_checked :
  forallb (fun n => all_chars is_ascii_digit (str_of_int n)
                    && match int_of_str (str_of_int n) with
                       | Ok z => z =? n
                       | Raise _ => false
                       end)
          (map Z.of_nat (seq 0 256)) = true.
Proof. vm_compute. reflexivity. Qed.

Lemma str_of_channel (n : Z) :
  channel n ->
  all_chars is_ascii_digit (str_of_int n) = true
  /\ int_of_str (str_of_int n) = Ok n.
Proof.
  intros Hn. pose proof channels_checked as H.
  rewrite forallb_forall in H. specialize (H n).
  assert (Hin : In n (map Z.of_nat (seq 0 256))).
  { unfold channel in Hn. rewrite <- (Z2Nat.id n) by lia.
    apply in_map, in_seq. lia. }
  apply H in Hin. apply andb_true_iff in Hin. destruct Hin as [H1 H2].
  split; [exact H1 |].
  destruct (int_of_str (str_of_int n)) as [z | e]; [ | discriminate H2].
  apply Z.eqb_eq in H2. subst z. reflexivity.
Qed.

(** The parts [parse_rgb] gets from the notation of four numerals. *)
Lemma parts_of_four (a b c d : string) :
  all_chars is_decimal_char a = true -> all_chars is_decimal_char b = true ->
  all_chars is_decimal_char c = true -> all_chars is_decimal_char d = true ->
  split "," (replace ")" "" (a ++ ", " ++ b ++ ", " ++ c ++ ", " ++ d ++ ")"))
  = [a; String " " b; String " " c; String " " d].
Proof.
  intros Ha Hb Hc Hd. unfold split, replace.
  assert (La : forall o, is_decimal_char o = false -> lacks o a = true)
    by (intros o Ho; apply decimal_lacks; assumption).
  assert (Lb : forall o, is_decimal_char o = false -> lacks o b = true)
    by (intros o Ho; apply decimal_lacks; assumption).
  assert (Lc : forall o, is_decimal_char o = false -> lacks o c = true)
    by (intros o Ho; apply decimal_lacks; assumption).
  assert (Ld : forall o, is_decimal_char o = false -> lacks o d = true)
    by (intros o Ho; apply decimal_lacks; assumption).
  replace (a ++ ", " ++ b ++ ", " ++ c ++ ", " ++ d ++ ")")%string
    with ((a ++ ", " ++ b ++ ", " ++ c ++ ", " ++ d) ++ ")")%string
    by (rewrite <- !append_assoc; reflexivity).
  rewrite replace_skip.
  2:{ rewrite !lacks_app, La, Lb, Lc, Ld by reflexivity. reflexivity. }
  change (replace_from ")" "" 0 ")") with "". rewrite append_nil_r.
  change (", " ++ b ++ ", " ++ c ++ ", " ++ d)%string
    with (String "," (String " " b ++ ", " ++ c ++ ", " ++ d))%string.
  rewrite split_skip by (apply La; reflexivity).
  change (", " ++ c ++ ", " ++ d)%string
    with (String "," (String " " c ++ ", " ++ d))%string.
  rewrite split_skip
    by (change (String " " b) with (" " ++ b)%string;
        rewrite lacks_app, Lb by reflexivity; reflexivity).
  change (", " ++ d)%string with (String "," (String " " d))%string.
  rewrite split_skip
    by (change (String " " c) with (" " ++ c)%string;
        rewrite lacks_app, Lc by reflexivity; reflexivity).
  rewrite split_lacks
    by (change (String " " d) with (" " ++ d)%string;
        rewrite lacks_app, Ld by reflexivity; reflexivity).
  reflexivity.
Qed.

Lemma parts_of_three (a b c : string) :
  all_chars is_decimal_char a = true -> all_chars is_decimal_char b = true ->
  all_chars is_decimal_char c = true ->
  split "," (replace ")" "" (a ++ ", " ++ b ++ ", " ++ c ++ ")"))
  = [a; String " " b; String " " c].
Proof.
  intros Ha Hb Hc. unfold split, replace.
  assert (La : forall o, is_decimal_char o = false -> lacks o a = true)
    by (intros o Ho; apply decimal_lacks; assumption).
  assert (Lb : forall o, is_decimal_char o = false -> lacks o b = true)
    by (intros o Ho; apply decimal_lacks; assumption).
  assert (Lc : forall o, is_decimal_char o = false -> lacks o c = true)
    by (intros o Ho; apply decimal_lacks; assumption).
  replace (a ++ ", " ++ b ++ ", " ++ c ++ ")")%string
    with ((a ++ ", " ++ b ++ ", " ++ c) ++ ")")%string
    by (rewrite <- !append_assoc; reflexivity).
  rewrite replace_skip.
  2:{ rewrite !lacks_app, La, Lb, Lc by reflexivity. reflexivity. }
  change (replace_from ")" "" 0 ")") with "". rewrite append_nil_r.
  change (", " ++ b ++ ", " ++ c)%string
    with (String "," (String " " b ++ ", " ++ c))%string.
  rewrite split_skip by (apply La; reflexivity).
  change (", " ++ c)%string with (String "," (String " " c))%string.
  rewrite split_skip
    by (change (String " " b) with (" " ++ b)%string;
        rewrite lacks_app, Lb by reflexivity; reflexivity).
  rewrite split_lacks
    by (change (String " " c) with (" " ++ c)%string;
        rewrite lacks_app, Lc by reflexivity; reflexivity).
  reflexivity.
Qed.

Lemma read_channel (n : Z) :
  channel n ->
  int_of_str (strip (str_of_int n)) = Ok n
  /\ int_of_str (strip (String " " (str_of_int n))) = Ok n.
Proof.
  intros Hn. destruct (str_of_channel n Hn) as [Hd Hi].
  destruct (strip_numeral _ (digits_decimal _ Hd)) as [-> ->].
  split; exact Hi.
Qed.

End SerialFacts.

(** X11: an opaque colour as the browser writes it, [rgb(r, g, b)] with channels
    between 0 and 255, is parsed to its three channels. *)
Theorem parse_rgb_reads_opaque_colors :
  forall r g b : Z,
    rgb r g b -> parse_rgb (rgb_string r g b) = Ok (Some [r; g; b]).
Proof.
  intros r g b (Hr & Hg & Hb).
  destruct (SerialFacts.str_of_channel r Hr) as [Dr _].
  destruct (SerialFacts.str_of_channel g Hg) as [Dg _].
  destruct (SerialFacts.str_of_channel b Hb) as [Db _].
  destruct (SerialFacts.read_channel r Hr) as [Ir _].
  destruct (SerialFacts.read_channel g Hg) as [_ Ig].
  destruct (SerialFacts.read_channel b Hb) as [_ Ib].
  apply SerialFacts.digits_decimal in Dr, Dg, Db.
  pose proof (SerialFacts.parts_of_three _ _ _ Dr Dg Db) as Hparts.
  unfold rgb_string.
  set (rest := (str_of_int r ++ ", " ++ str_of_int g ++ ", " ++ str_of_int b
                ++ ")")%string) in *.
  assert (Lr : lacks "r" rest = true).
  { unfold rest. rewrite !SerialFacts.lacks_app.
    repeat (apply andb_true_intro; split); try reflexivity;
      apply SerialFacts.decimal_lacks; (reflexivity || assumption). }
  unfold parse_rgb.
  change ("rgb(" ++ rest)%string
    with (String "r" (String "g" (String "b" (String "(" rest)))).
  replace (String.eqb _ "" || String.eqb _ "rgba(0, 0, 0, 0)") with false
    by reflexivity.
  replace (contains "rgba" _) with false.
  2:{ symmetry. cbn [contains prefix].
      repeat match goal with
             | |- context [Ascii.ascii_dec ?x ?y] =>
                 destruct (Ascii.ascii_dec x y); try discriminate
             end;
      cbn [orb]; rewrite ?orb_false_r;
      try (apply SerialFacts.contains_lacks; exact Lr);
      destruct rest; reflexivity. }
  replace (contains "rgb" _) with true.
  2:{ symmetry. cbn [contains prefix].
      repeat match goal with
             | |- context [Ascii.ascii_dec ?x ?y] =>
                 destruct (Ascii.ascii_dec x y); try congruence
             end. destruct rest; reflexivity. }
  replace (replace "rgb(" "" _) with rest.
  2:{ symmetry. unfold replace. cbn [replace_from prefix].
      repeat match goal with
             | |- context [Ascii.ascii_dec ?x ?y] =>
                 destruct (Ascii.ascii_dec x y); try congruence
             end.
      - replace (prefix "" rest) with true by (destruct rest; reflexivity).
        cbn [String.length Nat.pred append].
        apply SerialFacts.replace_lacks. exact Lr. }
  rewrite Hparts. cbn [firstn mapM]. rewrite Ir, Ig, Ib. reflexivity.
Qed.

Lemma parse_rgb_reads_opaque_colors_witness :
  parse_rgb (rgb_string 13 69 56) = Ok (Some [13; 69; 56]).
Proof.
  apply (parse_rgb_reads_opaque_colors 13 69 56).
  unfold rgb, channel. lia.
Defined.

(** X12: a colour with an alpha channel as the browser writes it,
    [rgba(r, g, b, a)], is transparent exactly when [a] reads as zero;
    otherwise it is parsed to its three channels and the alpha is
    dropped. *)
Theorem parse_rgb_reads_alpha :
  forall (r g b : Z) (alpha : string) (a : float),
    rgb r g b ->
    all_chars is_decimal_char alpha = true ->
    float_of_str alpha = Ok a ->
    parse_rgb (rgba_string r g b alpha)
    = Ok (if (a =? 0)%float then None else Some [r; g; b]).
Proof.
  intros r g b alpha a (Hr & Hg & Hb) Da Ha.
  destruct (SerialFacts.str_of_channel r Hr) as [Dr _].
  destruct (SerialFacts.str_of_channel g Hg) as [Dg _].
  destruct (SerialFacts.str_of_channel b Hb) as [Db _].
  destruct (SerialFacts.read_channel r Hr) as [Ir _].
  destruct (SerialFacts.read_channel g Hg) as [_ Ig].
  destruct (SerialFacts.read_channel b Hb) as [_ Ib].
  apply SerialFacts.digits_decimal in Dr, Dg, Db.
  pose proof (SerialFacts.parts_of_four _ _ _ _ Dr Dg Db Da) as Hparts.
  destruct (SerialFacts.strip_numeral alpha Da) as [_ Hstrip].
  unfold rgba_string.
  set (rest := (str_of_int r ++ ", " ++ str_of_int g ++ ", " ++ str_of_int b
                ++ ", " ++ alpha ++ ")")%string) in *.
  assert (Lr : lacks "r" rest = true).
  { unfold rest. rewrite !SerialFacts.lacks_app.
    repeat (apply andb_true_intro; split); try reflexivity;
      apply SerialFacts.decimal_lacks; (reflexivity || assumption). }
  unfold parse_rgb.
  change ("rgba(" ++ rest)%string
    with (String "r" (String "g" (String "b" (String "a" (String "(" rest))))).
  replace (String.eqb (String "r" (String "g" (String "b" (String "a" (String "(" rest))))) "")
    with false by reflexivity.
  cbn [orb].
  destruct (String.eqb_spec
              (String "r" (String "g" (String "b" (String "a" (String "(" rest)))))
              "rgba(0, 0, 0, 0)") as [E | _].
  { injection E as E. rewrite E in Hparts.
    vm_compute in Hparts. injection Hparts as _ _ _ Hal.
    rewrite <- Hal in Ha. vm_compute in Ha. injection Ha as <-.
    reflexivity. }
  replace (contains "rgba" _) with true.
  2:{ symmetry. cbn [contains prefix].
      repeat match goal with
             | |- context [Ascii.ascii_dec ?x ?y] =>
                 destruct (Ascii.ascii_dec x y); try congruence
             end. destruct rest; reflexivity. }
  replace (replace "rgba(" "" _) with rest.
  2:{ symmetry. unfold replace. cbn [replace_from prefix].
      repeat match goal with
             | |- context [Ascii.ascii_dec ?x ?y] =>
                 destruct (Ascii.ascii_dec x y); try congruence
             end.
      - replace (prefix "" rest) with true by (destruct rest; reflexivity).
        cbn [String.length Nat.pred append].
        apply SerialFacts.replace_lacks. exact Lr. }
  rewrite Hparts. cbn [List.length Nat.leb nth]. rewrite Hstrip, Ha.
  cbn [bind]. destruct (a =? 0)%float; [reflexivity |].
  cbn [mapM nth_error bind]. rewrite Ir. cbn [bind]. rewrite Ig. cbn [bind].
  rewrite Ib. reflexivity.
Qed.

Lemma parse_rgb_reads_alpha_witness :
  parse_rgb (rgba_string 13 69 56 "0.5") = Ok (Some [13; 69; 56])
  /\ parse_rgb (rgba_string 255 255 255 "0") = Ok None.
Proof.
  split.
  - apply (parse_rgb_reads_alpha 13 69 56 "0.5" 0.5%float).
    + unfold rgb, channel. lia.
    + reflexivity.
    + vm_compute. reflexivity.
  - apply (parse_rgb_reads_alpha 255 255 255 "0" 0%float).
    + unfold rgb, channel. lia.
    + reflexivity.
    + vm_compute. reflexivity.
Defined.

(** *** The ratio is at most 21 *)

Module UpperBound.
Import BoundFacts LowerBound.

(** The value of a positive float below 2^53, from its mantissa and its
    exponent. *)
Lemma F2R_finite (c : float) (m p : positive) :
  Prim2SF c = S754_finite false m (Z.neg p) ->
  F2R c = (IZR (Z.pos m) / IZR (2 ^ Z.pos p))%R.
Proof.
  intros H. unfold F2R. rewrite H. cbn [B2R].
  change (Z.neg p) with (Z.opp (Z.pos p)).
  rewrite DivFacts.bpow_opp, BpowFacts.bpow_IZR by lia.
  unfold Rdiv. lra.
Qed.

Lemma F2R_21 : F2R 21%float = 21%R.
Proof.
  rewrite (F2R_finite 21 5910974510923776 48 eq_refl).
  change (2 ^ 48) with 281474976710656. lra.
Qed.

(** The three weights of the luminance add up to at most 1, also as the
    floats they are and with the rounding of the first sum. *)
Lemma weights_12 :
  (F2R 0.2126 + F2R 0.7152 <= F2R (0.2126 + 0.7152)%float)%R.
Proof.
  rewrite (F2R_finite 0.2126 7659722246231740 55 eq_refl).
  rewrite (F2R_finite 0.7152 6441948906990757 53 eq_refl).
  rewrite (F2R_finite (0.2126 + 0.7152) 8356879468548692 53 eq_refl).
  change (2 ^ 55) with 36028797018963968.
  change (2 ^ 53) with 9007199254740992. lra.
Qed.

Lemma weights_123 :
  (F2R (0.2126 + 0.7152)%float + F2R 0.0722 <= 1)%R.
Proof.
  rewrite (F2R_finite (0.2126 + 0.7152) 8356879468548692 53 eq_refl).
  rewrite (F2R_finite 0.0722 5202558289538397 56 eq_refl).
  change (2 ^ 56) with 72057594037927936.
  change (2 ^ 53) with 9007199254740992. lra.
Qed.

(** [1 + 0.05] is not rounded down, and its quotient by [0.05] is at most
    21. *)
Lemma offset_sum : (1 + F2R 0.05 <= F2R (1 + 0.05)%float)%R.
Proof.
  rewrite (F2R_finite 0.05 7205759403792794 57 eq_refl).
  rewrite (F2R_finite (1 + 0.05) 4728779608739021 52 eq_refl).
  change (2 ^ 57) with 144115188075855872.
  change (2 ^ 52) with 4503599627370496. lra.
Qed.

Lemma offset_quotient : (F2R (1 + 0.05)%float <= 21 * F2R 0.05)%R.
Proof.
  rewrite (F2R_finite 0.05 7205759403792794 57 eq_refl).
  rewrite (F2R_finite (1 + 0.05) 4728779608739021 52 eq_refl).
  change (2 ^ 57) with 144115188075855872.
  change (2 ^ 52) with 4503599627370496. lra.
Qed.

Lemma div_le (x y c : float) :
  fin x -> fin y -> fin c ->
  (0 < F2R y <= F2R x)%R -> (F2R x / F2R y <= F2R c)%R ->
  (F2R c < bpow 1000)%R ->
  fin (x / y) /\ (F2R (x / y) <= F2R c)%R.
Proof.
  intros Fx Fy Fc Hxy Hc Hb.
  destruct (div_rounded x y Fx Fy Hxy) as [F R]; [lra |].
  split; [exact F |].
  apply (NearestFacts.rounded_facts _ _ (Prim2SF c) R (Prim2SF_valid c) Fc).
  exact Hc.
Qed.

(** The quotient computed from two luminances between 0 and 1. *)
Lemma ratio_le_21 (l1 l2 : float) :
  fin l1 -> fin l2 -> (F2R l1 <= 1)%R -> (F2R l2 <= 1)%R ->
  exists q : float,
    float_truediv (Py.max l1 l2 + 0.05)%float (Py.min l1 l2 + 0.05)%float = Ok q
    /\ (q <=? 21)%float = true.
Proof.
  intros F1 F2 H1 H2.
  destruct (max_min_order l1 l2 1 F1 F2 H1 H2) as (Fhi & Flo & Hlo & Hhi).
  set (hi := Py.max l1 l2) in *. set (lo := Py.min l1 l2) in *.
  destruct offset_bounds as (Fc & Hc1 & Hc2).
  pose proof (fin_nonneg lo Flo) as Hlo0.
  pose proof bpow_1000_big as Hbig.
  pose proof offset_sum as Hsum. pose proof offset_quotient as Hquot.
  assert (Fk : fin (1 + 0.05)%float) by exact I.
  destruct (add_le hi 0.05%float Fhi Fc (1 + 0.05)%float Fk) as [FA HA];
    [lra | lra |].
  destruct (add_le lo 0.05%float Flo Fc (1 + 0.05)%float Fk) as [FB _];
    [lra | lra |].
  assert (HB : (F2R 0.05%float <= F2R (lo + 0.05)%float)%R).
  { apply add_ge; try assumption; lra. }
  assert (HBA : (F2R (lo + 0.05)%float <= F2R (hi + 0.05)%float)%R).
  { apply add_mono; try assumption; lra. }
  set (A := (hi + 0.05)%float) in *. set (B := (lo + 0.05)%float) in *.
  unfold float_truediv. rewrite (eqb_zero_false B FB) by lra.
  destruct (div_le A B 21%float FA FB I) as [Fq Hq].
  - lra.
  - rewrite F2R_21. apply Rmult_le_reg_r with (F2R B); [lra |].
    unfold Rdiv. rewrite Rmult_assoc, Rinv_l by lra. lra.
  - rewrite F2R_21. lra.
  - exists (A / B)%float. split; [reflexivity |].
    apply leb_F2R; [exact Fq | exact I | exact Hq].
Qed.

Section WithPow.

Variable pow : float -> float -> res float.
Hypothesis pow_ok : pow_unit pow.

(** The luminance of a colour is a float between 0 and 1. *)
Lemma luminance_unit (r g b : Z) :
  rgb r g b ->
  exists l : float,
    get_luminance pow r g b = Ok l /\ fin l /\ (F2R l <= 1)%R.
Proof.
  intros (Hr & Hg & Hb).
  destruct (RatioFacts.linearize_channel pow pow_ok r Hr) as (xr & vr & Hxr & Hvr & Hr0 & Hr1).
  destruct (RatioFacts.linearize_channel pow pow_ok g Hg) as (xg & vg & Hxg & Hvg & Hg0 & Hg1).
  destruct (RatioFacts.linearize_channel pow pow_ok b Hb) as (xb & vb & Hxb & Hvb & Hb0 & Hb1).
  unfold get_luminance.
  rewrite Hxr, Hxg, Hxb. cbn [bind]. rewrite Hvr, Hvg, Hvb. cbn [bind].
  eexists. split; [reflexivity |].
  destruct (unit_fin vr Hr0 Hr1) as [Fr [Rr0 Rr1]].
  destruct (unit_fin vg Hg0 Hg1) as [Fg [Rg0 Rg1]].
  destruct (unit_fin vb Hb0 Hb1) as [Fb [Rb0 Rb1]].
  destruct (constant_unit 0.2126%float eq_refl eq_refl) as [F1 [C10 C11]].
  destruct (constant_unit 0.7152%float eq_refl eq_refl) as [F2 [C20 C21]].
  destruct (constant_unit 0.0722%float eq_refl eq_refl) as [F3 [C30 C31]].
  destruct (constant_unit (0.2126 + 0.7152)%float eq_refl eq_refl) as [F12 [C120 C121]].
  pose proof bpow_1000_big as Hbig.
  pose proof weights_12 as W12. pose proof weights_123 as W123.
  destruct (mul_le 0.2126%float vr F1 Fr 0.2126%float F1) as [Fp1 Hp1];
    [nra | lra |].
  destruct (mul_le 0.7152%float vg F2 Fg 0.7152%float F2) as [Fp2 Hp2];
    [nra | lra |].
  destruct (mul_le 0.0722%float vb F3 Fb 0.0722%float F3) as [Fp3 Hp3];
    [nra | lra |].
  destruct (add_le _ _ Fp1 Fp2 (0.2126 + 0.7152)%float F12) as [Fs Hs];
    [lra | lra |].
  destruct (add_le _ _ Fs Fp3 1%float I) as [Fl Hl];
    [rewrite F2R_1; lra | rewrite F2R_1; lra |].
  rewrite F2R_1 in Hl. split; assumption.
Qed.

Lemma get_contrast_ratio_le_21 (r1 g1 b1 r2 g2 b2 : Z) :
  rgb r1 g1 b1 -> rgb r2 g2 b2 ->
  exists q : float,
    get_contrast_ratio pow r1 g1 b1 r2 g2 b2 = Ok q /\ (q <=? 21)%float = true.
Proof.
  intros H1 H2.
  destruct (luminance_unit r1 g1 b1 H1) as (l1 & Hl1 & F1 & B1).
  destruct (luminance_unit r2 g2 b2 H2) as (l2 & Hl2 & F2 & B2).
  unfold get_contrast_ratio. rewrite Hl1, Hl2. cbn [bind].
  apply ratio_le_21; assumption.
Qed.

End WithPow.

(** White on black, when the power of 1 is 1. *)
Lemma white_on_black (pow : float -> float -> res float) :
  pow 1%float 2.4%float = Ok 1%float ->
  get_contrast_ratio pow 255 255 255 0 0 0 = Ok 21%float.
Proof.
  intros H. unfold get_contrast_ratio, get_luminance.
  change (int_truediv 255 255) with (Ok 1%float).
  change (int_truediv 0 255) with (Ok 0%float).
  cbn [bind]. unfold linearize.
  change (1 <=? 0.03928)%float with false.
  change (0 <=? 0.03928)%float with true.
  change ((1 + 0.055) / 1.055)%float with 1%float.
  cbv iota. rewrite H. cbn [bind]. vm_compute. reflexivity.
Qed.

End UpperBound.

(** X13: the luminance of an RGB colour is a float between 0 and 1, provided the
    power function of the runtime maps (0, 1] into [0, 1]. *)
Theorem luminance_in_unit_interval :
  forall (pow : float -> float -> res float) (r g b : Z),
    pow_unit pow -> rgb r g b ->
    exists l : float,
      get_luminance pow r g b = Ok l
      /\ (0 <=? l)%float = true /\ (l <=? 1)%float = true.
Proof.
  intros pow r g b Hpow H.
  destruct (UpperBound.luminance_unit pow Hpow r g b H) as (l & Hl & F & B).
  exists l. split; [exact Hl |]. split.
  - apply BoundFacts.leb_F2R; [exact I | exact F |].
    rewrite LowerBound.F2R_0. apply BoundFacts.fin_nonneg. exact F.
  - apply BoundFacts.leb_F2R; [exact F | exact I |].
    rewrite BoundFacts.F2R_1. exact B.
Qed.

Lemma luminance_in_unit_interval_witness :
  exists l : float,
    get_luminance Sample.pow 13 69 56 = Ok l
    /\ (0 <=? l)%float = true /\ (l <=? 1)%float = true.
Proof.
  apply (luminance_in_unit_interval Sample.pow 13 69 56).
  - exact RatioFacts.sample_pow_unit.
  - unfold rgb, channel. lia.
Defined.

(** X14: for every pair of RGB colours the contrast ratio is at most 21, under
    the same condition on the power function; white on black reaches 21
    when the power of 1 is 1. *)
Theorem contrast_ratio_at_most_21 :
  forall (pow : float -> float -> res float) (r1 g1 b1 r2 g2 b2 : Z),
    pow_unit pow ->
    rgb r1 g1 b1 -> rgb r2 g2 b2 ->
    (exists q : float,
       get_contrast_ratio pow r1 g1 b1 r2 g2 b2 = Ok q
       /\ (q <=? 21)%float = true)
    /\ (pow 1%float 2.4%float = Ok 1%float ->
        get_contrast_ratio pow 255 255 255 0 0 0 = Ok 21%float).
Proof.
  intros pow r1 g1 b1 r2 g2 b2 Hpow H1 H2. split.
  - apply UpperBound.get_contrast_ratio_le_21; assumption.
  - apply UpperBound.white_on_black.
Qed.

Lemma contrast_ratio_at_most_21_witness :
  (exists q : float,
     get_contrast_ratio Sample.pow 6 37 28 13 69 56 = Ok q
     /\ (q <=? 21)%float = true)
  /\ get_contrast_ratio Sample.pow 255 255 255 0 0 0 = Ok 21%float.
Proof.
  destruct (contrast_ratio_at_most_21 Sample.pow 6 37 28 13 69 56) as [H1 H2].
  - exact RatioFacts.sample_pow_unit.
  - unfold rgb, channel. lia.
  - unfold rgb, channel. lia.
  - split; [exact H1 |]. apply H2. vm_compute. reflexivity.
Defined.

(** *** Elements with a background of their own *)

(** X15: when the element's own background parses to a colour, the chain of
    ancestors is not read: the result is the same whatever the ancestors
    hold, also when asking for them would raise. *)
Theorem own_background_is_used :
  forall (pow : float -> float -> res float) (page : Page) (sel desc : string)
         (styles : Computed) (c : Z) (bg : list Z)
         (bgs : string -> res (list string)),
    computed_style page sel = Ok styles ->
    parse_rgb (backgroundColor styles) = Ok (Some (c :: bg)) ->
    check_element_contrast pow (with_ancestors page bgs) sel desc
    = check_element_contrast pow page sel desc.
Proof.
  intros pow page sel desc styles c bg bgs Hst Hbg.
  unfold check_element_contrast, check_element_body. cbn [with_ancestors is_visible
    computed_style].
  destruct (is_visible page sel) as [[ | ] | e]; cbn [bind negb]; try reflexivity.
  rewrite Hst. cbn [bind].
  destruct (parse_rgb (color styles)) as [fg | e]; cbn [bind]; [ | reflexivity].
  rewrite Hbg. cbn [bind]. unfold resolve_background. cbn [truthy negb].
  reflexivity.
Qed.

Lemma own_background_is_used_witness :
  check_element_contrast Sample.pow
    (with_ancestors Sample.page (fun _ => Raise DriverError)) "p" "Body text"
  = check_element_contrast Sample.pow Sample.page "p" "Body text".
Proof.
  apply (own_background_is_used Sample.pow Sample.page "p" "Body text"
           Sample.body_text 13 [69; 56]).
  - reflexivity.
  - vm_compute. reflexivity.
Defined.

(** *** Elements without a record *)

Module SilentFacts.

Section WithPow.

Variable pow : float -> float -> res float.

Lemma check_selectors_app (page : Page) (l1 l2 : list SelectorInfo) :
  check_selectors pow page (l1 ++ l2)
  = (fst (check_selectors pow page l1) ++ fst (check_selectors pow page l2),
     snd (check_selectors pow page l1) ++ snd (check_selectors pow page l2)).
Proof.
  induction l1 as [ | si l1 IH]; cbn [app check_selectors].
  - destruct (check_selectors pow page l2). reflexivity.
  - rewrite IH. destruct (check_selectors pow page l1) as [r1 e1].
    cbn [fst snd].
    destruct (check_element_contrast pow page (info_selector si)
                (info_description si)) as [ | c | sel e]; cbn [fst snd];
      try reflexivity.
    cbn [app]. rewrite app_assoc. reflexivity.
Qed.

Lemma printed_checks_app (l1 l2 : list event) :
  printed_checks (l1 ++ l2) = printed_checks l1 ++ printed_checks l2.
Proof. apply flat_map_app. Qed.

Lemma check_selectors_printed (page : Page) (sels : list SelectorInfo) :
  printed_checks (snd (check_selectors pow page sels))
  = fst (check_selectors pow page sels).
Proof.
  induction sels as [ | si sels IH]; cbn [check_selectors]; [reflexivity |].
  destruct (check_selectors pow page sels) as [results evs]. cbn [fst snd] in *.
  destruct (check_element_contrast pow page _ _) as [ | c | sel e];
    cbn [fst snd]; try exact IH.
  destruct (passes c); cbn [app]; unfold printed_checks in *;
    cbn [flat_map app]; rewrite IH; reflexivity.
Qed.

Lemma audit_all_printed (b : Browser) (checks : list Check) :
  printed_checks (snd (audit_all pow b checks)) = fst (audit_all pow b checks).
Proof.
  induction checks as [ | c checks IH]; cbn [audit_all]; [reflexivity |].
  unfold audit_page_contrast.
  destruct (goto b (url c)) as [page | e].
  - pose proof (check_selectors_printed page (selectors c)) as H.
    destruct (check_selectors pow page (selectors c)) as [results evs].
    destruct (audit_all pow b checks) as [all_results evs'].
    cbn [fst snd] in *. rewrite printed_checks_app.
    unfold printed_checks in *. cbn [flat_map app]. rewrite H, IH. reflexivity.
  - destruct (audit_all pow b checks) as [all_results evs'].
    cbn [fst snd] in *. exact IH.
Qed.

End WithPow.

End SilentFacts.

(** X16: an element that is not visible, whose colours do not resolve or on
    which an exception is caught is neither recorded nor printed: the
    results and the output of the page are those of a run without its
    selector. *)
Theorem elements_without_record_are_silent :
  forall (pow : float -> float -> res float) (page : Page) (si : SelectorInfo),
    is_checked (check_element_contrast pow page (info_selector si)
                  (info_description si)) = false ->
    forall pre post : list SelectorInfo,
      check_selectors pow page (pre ++ si :: post)
      = check_selectors pow page (pre ++ post).
Proof.
  intros pow page si H pre post.
  rewrite !SilentFacts.check_selectors_app. cbn [check_selectors].
  destruct (check_selectors pow page post) as [r evs].
  destruct (check_element_contrast pow page (info_selector si)
              (info_description si)) as [ | c | sel e];
    try reflexivity.
  discriminate H.
Qed.

Lemma elements_without_record_are_silent_witness :
  check_selectors Sample.pow Sample.page
    ([ {| info_selector := "h1"; info_description := "Main heading" |} ]
     ++ {| info_selector := "button";
           info_description := "Sign In button text" |}
     :: [ {| info_selector := "p"; info_description := "Body text" |} ])
  = check_selectors Sample.pow Sample.page
      ([ {| info_selector := "h1"; info_description := "Main heading" |} ]
       ++ [ {| info_selector := "p"; info_description := "Body text" |} ]).
Proof.
  apply (elements_without_record_are_silent Sample.pow Sample.page
           {| info_selector := "button";
              info_description := "Sign In button text" |}).
  vm_compute. reflexivity.
Defined.

(** *** The report and the output *)

(** X17: the checks printed while the pages are audited are the results of the
    run, in the same order; a report that is written holds exactly the
    checks that were printed. *)
Theorem report_holds_the_printed_checks :
  forall (pow : float -> float -> res float) (checks : list Check) (b : Browser)
         (open_w : string -> res unit),
    printed_checks (snd (audit_all pow b checks)) = fst (audit_all pow b checks)
    /\ forall path report,
         In (WriteReport path report) (snd (main_with pow checks b open_w)) ->
         report = printed_checks (snd (main_with pow checks b open_w)).
Proof.
  intros pow checks b open_w.
  pose proof (SilentFacts.audit_all_printed pow b checks) as Hp.
  split; [exact Hp |].
  intros path report. unfold main_with.
  pose proof (ReportFacts.audit_all_no_write pow b checks) as Hw.
  destruct (launch b) as [[] | e1]; [ | intros []].
  destruct (audit_all pow b checks) as [all_results evs]. cbn [fst snd] in *.
  rewrite Forall_forall in Hw.
  destruct (close b) as [[] | e2]; cbn [snd];
    [ | intros H; exfalso; exact (Hw _ H I)].
  assert (Hsum : printed_checks
                   (PrintSummary (List.length all_results)
                      (List.length (passing all_results))
                      (List.length (failures all_results))
                    :: map PrintIssue (failures all_results)) = []).
  { unfold printed_checks. cbn [flat_map app].
    induction (failures all_results) as [ | c l IH]; [reflexivity | exact IH]. }
  assert (Hnot : ~ In (WriteReport path report)
                     (PrintSummary (List.length all_results)
                        (List.length (passing all_results))
                        (List.length (failures all_results))
                      :: map PrintIssue (failures all_results))).
  { intros [H | H]; [discriminate H |].
    apply in_map_iff in H. destruct H as (c & H & _). discriminate H. }
  destruct (open_w report_path) as [[] | e3]; cbn [snd]; intros H.
  - rewrite !SilentFacts.printed_checks_app, Hp, Hsum.
    apply in_app_or in H. destruct H as [H | H]; [exfalso; exact (Hw _ H I) |].
    apply in_app_or in H. destruct H as [H | H]; [contradiction |].
    destruct H as [H | [H | []]]; [ | discriminate H].
    injection H as _ <-. cbn. rewrite app_nil_r. reflexivity.
  - apply in_app_or in H. destruct H as [H | H];
      [exfalso; exact (Hw _ H I) | contradiction].
Qed.


(** *** The dialog script *)

(** X18: the dialog script computes its ratio without an exception, between 1 and
    21, and never reports PASS for normal text together with FAIL for large
    text, provided the power function of the runtime maps (0, 1] into
    [0, 1]. *)
Theorem dialog_verdicts_are_consistent :
  forall pow : float -> float -> res float,
    pow_unit pow ->
    exists (q : float) (normal large : bool),
      DialogContrast.guest_name pow = Ok (q, normal, large)
      /\ (1 <=? q)%float = true /\ (q <=? 21)%float = true
      /\ (normal = true -> large = true).
Proof.
  intros pow Hpow.
  assert (H1 : rgb 6 37 28) by (unfold rgb, channel; lia).
  assert (H2 : rgb 13 69 56) by (unfold rgb, channel; lia).
  destruct (LowerBound.get_contrast_ratio_ge_1 pow Hpow 6 37 28 13 69 56 H1 H2)
    as (q & Hq & Hge).
  destruct (UpperBound.get_contrast_ratio_le_21 pow Hpow 6 37 28 13 69 56 H1 H2)
    as (q' & Hq' & Hle).
  rewrite Hq in Hq'. injection Hq' as <-.
  exists q, (4.5 <=? q)%float, (3.0 <=? q)%float.
  split; [ | split; [exact Hge | split; [exact Hle |]]].
  - unfold DialogContrast.guest_name, DialogContrast.ratio.
    cbn [DialogContrast.text_inverse DialogContrast.surface_elevated].
    change (DialogContrast.get_contrast_ratio pow 6 37 28 13 69 56)
      with (get_contrast_ratio pow 6 37 28 13 69 56).
    rewrite Hq. reflexivity.
  - intros H. exact (VerdictFacts.min_ratio_large false q H).
Qed.

Lemma dialog_verdicts_are_consistent_witness :
  exists (q : float) (normal large : bool),
    DialogContrast.guest_name Sample.pow = Ok (q, normal, large)
    /\ (1 <=? q)%float = true /\ (q <=? 21)%float = true
    /\ (normal = true -> large = true).
Proof.
  apply (dialog_verdicts_are_consistent Sample.pow).
  exact RatioFacts.sample_pow_unit.
Defined.

(** *** The audit of one page *)

Module PageFacts.
Import AccessibilityAudit.

Lemma fst_iobind {E A B : Type} (m : io E A) (k : A -> io E B) :
  fst (iobind m k)
  = match fst m with
    | Ok a => fst (k a)
    | Raise e => Raise e
    end.
Proof.
  destruct m as [[a | e] evs]; simpl; [ | reflexivity].
  destruct (k a). reflexivity.
Qed.

Lemma snd_iobind {E A B : Type} (m : io E A) (k : A -> io E B) :
  snd (iobind m k)
  = snd m ++ match fst m with
             | Ok a => snd (k a)
             | Raise e => []
             end.
Proof.
  destruct m as [[a | e] evs]; simpl; [ | rewrite app_nil_r; reflexivity].
  destruct (k a). reflexivity.
Qed.

(** The lines of a failure summary are printed without an exception. *)
Lemma fst_failure_lines (l : list string) :
  fst (for_each (fun line => if String.eqb (strip line) "" then ioret tt
                             else emit (PrintFailureLine (strip line))) l)
  = Ok tt.
Proof.
  induction l as [ | line l IH]; cbn [for_each].
  - reflexivity.
  - rewrite fst_iobind. destruct (String.eqb (strip line) ""); exact IH.
Qed.

Lemma fst_show_node (idx : nat) (node : Node) :
  fst (show_node idx node)
  = match get (target node) ["unknown"] with
    | _ :: _ => Ok tt
    | [] => Raise IndexError
    end.
Proof.
  unfold show_node. rewrite fst_iobind. cbn [lift fst].
  destruct (get (target node) ["unknown"]) as [ | t ts]; [reflexivity |].
  rewrite fst_iobind. cbn [emit fst]. apply fst_failure_lines.
Qed.

Lemma fst_show_nodes_ok (idx : nat) (l : list Node) :
  fst (show_nodes idx l) = Ok tt \/ fst (show_nodes idx l) = Raise IndexError.
Proof.
  revert idx. induction l as [ | node l IH]; intros idx; cbn [show_nodes].
  - left. reflexivity.
  - rewrite fst_iobind, fst_show_node.
    destruct (get (target node) ["unknown"]); [right; reflexivity | apply IH].
Qed.

Lemma fst_show_nodes_raise (idx : nat) (l : list Node) (node : Node) :
  In node l -> target node = Some [] ->
  fst (show_nodes idx l) = Raise IndexError.
Proof.
  intros Hin Ht. revert idx.
  induction l as [ | n l IH]; intros idx; [destruct Hin |].
  cbn [show_nodes]. rewrite fst_iobind, fst_show_node.
  destruct Hin as [-> | Hin].
  - rewrite Ht. reflexivity.
  - destruct (get (target n) ["unknown"]); [reflexivity | apply IH; exact Hin].
Qed.

Lemma fst_show_violation_ok (v : Violation) :
  fst (show_violation v) = Ok tt \/ fst (show_violation v) = Raise IndexError.
Proof.
  unfold show_violation. rewrite fst_iobind. cbn [emit fst].
  apply fst_show_nodes_ok.
Qed.

Lemma fst_show_violations_raise (l : list Violation) (v : Violation) :
  In v l -> fst (show_violation v) = Raise IndexError ->
  fst (for_each show_violation l) = Raise IndexError.
Proof.
  intros Hin Hv. induction l as [ | w l IH]; [destruct Hin |].
  cbn [for_each]. rewrite fst_iobind.
  destruct (fst_show_violation_ok w) as [Hw | Hw]; rewrite Hw; [ | reflexivity].
  destruct Hin as [-> | Hin]; [congruence | apply IH; exact Hin].
Qed.

Lemma failure_lines_no_json (l : list string) :
  Forall (fun ev => ~ is_json ev)
    (snd (for_each (fun line => if String.eqb (strip line) "" then ioret tt
                                else emit (PrintFailureLine (strip line))) l)).
Proof.
  induction l as [ | line l IH]; cbn [for_each]; [constructor |].
  rewrite snd_iobind. apply Forall_app. split.
  - destruct (String.eqb (strip line) ""); cbn [ioret emit snd];
      repeat constructor. simpl. tauto.
  - destruct (String.eqb (strip line) ""); cbn [ioret emit fst]; exact IH.
Qed.

Lemma show_node_no_json (idx : nat) (node : Node) :
  Forall (fun ev => ~ is_json ev) (snd (show_node idx node)).
Proof.
  unfold show_node. rewrite snd_iobind. cbn [lift fst snd app].
  destruct (get (target node) ["unknown"]) as [ | t ts]; [constructor |].
  rewrite snd_iobind. cbn [emit fst snd].
  constructor; [simpl; tauto | apply failure_lines_no_json].
Qed.

Lemma show_nodes_no_json (idx : nat) (l : list Node) :
  Forall (fun ev => ~ is_json ev) (snd (show_nodes idx l)).
Proof.
  revert idx. induction l as [ | n l IH]; intros idx; cbn [show_nodes];
    [constructor |].
  rewrite snd_iobind. apply Forall_app. split; [apply show_node_no_json |].
  destruct (fst (show_node idx n)); [apply IH | constructor].
Qed.

Lemma show_violations_no_json (l : list Violation) :
  Forall (fun ev => ~ is_json ev) (snd (for_each show_violation l)).
Proof.
  induction l as [ | v l IH]; cbn [for_each]; [constructor |].
  rewrite snd_iobind. apply Forall_app. split.
  - unfold show_violation. rewrite snd_iobind. cbn [emit fst snd].
    constructor; [simpl; tauto | apply show_nodes_no_json].
  - destruct (fst (show_violation v)); [exact IH | constructor].
Qed.

(** What [audit_page] did when it returns a result. *)
Lemma audit_page_some_inv (b : Browser) (fs : Files) (url name : string)
  (r : PageResult) :
  fst (audit_page b fs url name) = Some r ->
  exists (page : Page) (vs : option (list Violation)),
    let json_path := (reports_dir ++ "/" ++ name ++ ".json")%string in
    let contrast :=
      filter (fun v => contains "color-contrast" (get (id v) "")) (get vs []) in
    goto b url = Ok page
    /\ run_axe_audit page = Ok (AxeReport vs)
    /\ open_w fs json_path = Ok tt
    /\ fst (for_each show_violation contrast) = Ok tt
    /\ r = {| name := name;
              url := url;
              total_violations := List.length (get vs []);
              contrast_violations := List.length contrast;
              violations := get vs [] |}
    /\ snd (audit_page b fs url name)
       = [PrintAuditing url;
          PrintScreenshot (reports_dir ++ "/" ++ name ++ ".png")%string;
          WriteJson json_path vs;
          PrintCounts (List.length (get vs [])) (List.length contrast)]
         ++ snd (for_each show_violation contrast).
Proof.
  unfold audit_page, audit_page_body.
  destruct (goto b url) as [page | e] eqn:Hg; cbn [lift iobind]; [ | discriminate].
  destruct (mkdir fs reports_dir) as [[] | e]; cbn [lift iobind];
    [ | discriminate].
  destruct (screenshot page _) as [[] | e]; cbn [lift iobind emit];
    [ | discriminate].
  destruct (inject_axe page) as [[] | e]; cbn [lift iobind]; [ | discriminate].
  destruct (run_axe_audit page) as [[message | vs] | e] eqn:Hr;
    cbn [lift iobind emit ioret];
    try discriminate.
  destruct (open_w fs _) as [[] | e] eqn:Ho; cbn [lift iobind emit];
    [ | discriminate].
  destruct (for_each show_violation _) as [[[] | e] evs] eqn:Hf;
    cbn [iobind ioret fst snd app]; [ | discriminate].
  intros H. injection H as <-. exists page, vs. cbv zeta.
  rewrite Hf. cbn [fst snd]. rewrite app_nil_r.
  repeat split; try assumption; reflexivity.
Qed.

End PageFacts.

Import AccessibilityAudit.

(** X19: the result of an audited page carries the name and the URL it was
    called with; its totals are the number of violations of the scan and the
    number of those whose id contains [color-contrast], so the second never
    exceeds the first; and the scan it reports is the one that was written
    to the JSON file of the page, once. *)
Theorem page_result_is_consistent :
  forall (b : Browser) (fs : Files) (url name : string) (r : PageResult),
    fst (audit_page b fs url name) = Some r ->
    AccessibilityAudit.name r = name /\ AccessibilityAudit.url r = url
    /\ total_violations r = List.length (violations r)
    /\ contrast_violations r
       = List.length
           (filter (fun v => contains "color-contrast" (get (id v) ""))
              (violations r))
    /\ (contrast_violations r <= total_violations r)%nat
    /\ exists vs : option (list Violation),
         violations r = get vs []
         /\ exists evs,
              snd (audit_page b fs url name)
              = [PrintAuditing url;
                 PrintScreenshot (reports_dir ++ "/" ++ name ++ ".png")%string;
                 WriteJson (reports_dir ++ "/" ++ name ++ ".json")%string vs]
                ++ evs
              /\ Forall (fun ev => ~ is_json ev) evs.
Proof.
  intros b fs url name r H.
  apply PageFacts.audit_page_some_inv in H.
  destruct H as (page & vs & _ & _ & _ & _ & -> & Hevs). cbv zeta in Hevs.
  cbn [AccessibilityAudit.name AccessibilityAudit.url total_violations
       contrast_violations violations].
  repeat (split; [reflexivity |]).
  split; [apply filter_length_le |].
  exists vs. split; [reflexivity |].
  eexists. split; [rewrite Hevs; reflexivity |].
  constructor; [simpl; tauto |]. apply PageFacts.show_violations_no_json.
Qed.

Lemma page_result_is_consistent_witness :
  exists r : PageResult,
    fst (audit_page Sample.scanning_browser Sample.writable
           "http://localhost:3000" "home") = Some r
    /\ AccessibilityAudit.name r = "home"
    /\ (contrast_violations r <= total_violations r)%nat.
Proof.
  eexists. split; [vm_compute; reflexivity |].
  match goal with
  | |- AccessibilityAudit.name ?r = _ /\ _ =>
      destruct (page_result_is_consistent Sample.scanning_browser Sample.writable
                  "http://localhost:3000" "home" r)
        as (H1 & _ & _ & _ & H2 & _)
  end.
  - vm_compute. reflexivity.
  - split; [exact H1 | exact H2].
Defined.

(** X20: when one of the first five nodes of a contrast violation has an empty
    target, the display raises [IndexError] after the JSON file was
    written: the page is reported as an error and returns no result, so it
    is missing from the totals although its scan is on disk. *)
Theorem untargeted_node_drops_page :
  forall (b : Browser) (fs : Files) (url name : string) (page : Page)
         (vs : option (list Violation)) (v : Violation) (node : Node),
    let shot := (reports_dir ++ "/" ++ name ++ ".png")%string in
    let json := (reports_dir ++ "/" ++ name ++ ".json")%string in
    goto b url = Ok page ->
    mkdir fs reports_dir = Ok tt ->
    screenshot page shot = Ok tt ->
    inject_axe page = Ok tt ->
    run_axe_audit page = Ok (AxeReport vs) ->
    open_w fs json = Ok tt ->
    In v (get vs []) ->
    contains "color-contrast" (get (id v) "") = true ->
    In node (firstn 5 (get (nodes v) [])) ->
    target node = Some [] ->
    fst (audit_page b fs url name) = None
    /\ In (WriteJson json vs) (snd (audit_page b fs url name))
    /\ (exists evs, snd (audit_page b fs url name) = evs ++ [PrintError IndexError])
    /\ forall pre post : list (string * string),
         fst (audit_pages b fs (pre ++ (url, name) :: post))
         = fst (audit_pages b fs (pre ++ post)).
Proof.
  intros b fs url name page vs v node shot json Hg Hm Hs Hi Hr Ho Hv Hc Hn Ht.
  assert (Hraise : fst (for_each show_violation
                          (filter (fun v => contains "color-contrast" (get (id v) ""))
                             (get vs []))) = Raise IndexError).
  { apply (PageFacts.fst_show_violations_raise _ v).
    - apply filter_In. split; assumption.
    - unfold show_violation. rewrite PageFacts.fst_iobind. cbn [emit fst].
      apply (PageFacts.fst_show_nodes_raise _ _ node); assumption. }
  assert (Hp : exists evs,
             audit_page b fs url name
             = (None, (PrintAuditing url :: PrintScreenshot shot
                       :: WriteJson json vs :: evs) ++ [PrintError IndexError])).
  { unfold audit_page, audit_page_body.
    rewrite Hg. cbn [iobind lift]. rewrite Hm. cbn [iobind lift].
    fold shot. rewrite Hs. cbn [iobind lift emit]. rewrite Hi.
    cbn [iobind lift]. rewrite Hr. fold json. rewrite Ho. cbn [iobind lift emit].
    destruct (for_each show_violation _) as [[[] | e] evs];
      cbn [fst] in Hraise; [discriminate Hraise |].
    injection Hraise as ->. cbn [iobind app].
    exists (PrintCounts (List.length (get vs []))
              (List.length
                 (filter (fun v => contains "color-contrast" (get (id v) ""))
                    (get vs []))) :: evs).
    reflexivity. }
  destruct Hp as (evs & Hp). rewrite Hp. cbn [fst snd].
  split; [reflexivity |]. split; [right; right; left; reflexivity |].
  split; [eexists; reflexivity |].
  intros pre post. rewrite !AuditFacts.fst_audit_pages_app.
  rewrite AuditFacts.fst_audit_pages_none; [reflexivity |].
  rewrite Hp. reflexivity.
Qed.

Lemma untargeted_node_drops_page_witness :
  fst (audit_page Sample.untargeted_browser Sample.writable
         "http://localhost:3000" "home") = None
  /\ In (WriteJson "accessibility-reports/home.json"
           (Some [Sample.contrast_violation; Sample.untargeted_violation]))
        (snd (audit_page Sample.untargeted_browser Sample.writable
                "http://localhost:3000" "home"))
  /\ (exists evs,
        snd (audit_page Sample.untargeted_browser Sample.writable
               "http://localhost:3000" "home")
        = evs ++ [PrintError IndexError])
  /\ forall pre post : list (string * string),
       fst (audit_pages Sample.untargeted_browser Sample.writable
              (pre ++ ("http://localhost:3000", "home") :: post))
       = fst (audit_pages Sample.untargeted_browser Sample.writable (pre ++ post)).
Proof.
  apply (untargeted_node_drops_page Sample.untargeted_browser Sample.writable
           "http://localhost:3000" "home" Sample.untargeted
           (Some [Sample.contrast_violation; Sample.untargeted_violation])
           Sample.untargeted_violation
           {| target := Some []; html := None; failureSummary := None |}).
  - reflexivity.
  - reflexivity.
  - reflexivity.
  - reflexivity.
  - reflexivity.
  - reflexivity.
  - right. left. reflexivity.
  - vm_compute. reflexivity.
  - right. left. reflexivity.
  - reflexivity.
Defined.

(** *** What is displayed of a violation *)

Module DisplayFacts.
Import AccessibilityAudit.

Lemma line_ok_weaken (lo lo' hi hi' : nat) (ev : event) :
  (lo' <= lo)%nat -> (hi <= hi')%nat -> line_ok lo hi ev -> line_ok lo' hi' ev.
Proof. destruct ev; simpl; intros; try assumption. lia. Qed.

Lemma failure_lines_display (l : list string) :
  let evs := snd (for_each (fun line => if String.eqb (strip line) "" then ioret tt
                                        else emit (PrintFailureLine (strip line))) l) in
  filter is_element_line evs = []
  /\ (List.length (filter is_failure_line evs) <= List.length l)%nat
  /\ forall lo hi, Forall (line_ok lo hi) evs.
Proof.
  cbv zeta. induction l as [ | line l (IH1 & IH2 & IH3)]; cbn [for_each].
  - repeat split; simpl; try lia. constructor.
  - rewrite PageFacts.snd_iobind.
    destruct (String.eqb_spec (strip line) "") as [He | He];
      cbn [ioret emit fst snd app filter is_element_line is_failure_line List.length].
    + repeat split; try assumption. lia.
    + repeat split; try assumption; try lia.
      intros lo hi. constructor; [exact He | apply IH3].
Qed.

Lemma show_node_display (idx : nat) (node : Node) :
  let evs := snd (show_node idx node) in
  (List.length (filter is_element_line evs) <= 1)%nat
  /\ (List.length (filter is_failure_line evs) <= 3)%nat
  /\ Forall (line_ok idx idx) evs.
Proof.
  cbv zeta. unfold show_node. rewrite PageFacts.snd_iobind. cbn [lift fst snd app].
  destruct (get (target node) ["unknown"]) as [ | t ts];
    [simpl; repeat split; try lia; constructor |].
  rewrite PageFacts.snd_iobind. cbn [emit fst snd app].
  match goal with |- context [for_each ?f ?l] =>
    destruct (failure_lines_display l) as (H1 & H2 & H3);
    assert (Hl : (List.length l <= 3)%nat)
  end.
  { destruct (String.eqb _ ""); [simpl; lia |].
    rewrite length_firstn. lia. }
  cbn [filter is_element_line is_failure_line]. rewrite H1.
  split; [simpl; lia |]. split; [lia |].
  constructor; [ | apply H3].
  simpl. split; [lia | apply TextFacts.take_length].
Qed.

Lemma show_nodes_display (idx : nat) (l : list Node) :
  let evs := snd (show_nodes idx l) in
  (List.length (filter is_element_line evs) <= List.length l)%nat
  /\ (List.length (filter is_failure_line evs) <= 3 * List.length l)%nat
  /\ Forall (line_ok idx (idx + List.length l - 1)) evs.
Proof.
  cbv zeta. revert idx.
  induction l as [ | n l IH]; intros idx; cbn [show_nodes].
  - simpl. repeat split; try lia. constructor.
  - rewrite PageFacts.snd_iobind.
    destruct (show_node_display idx n) as (H1 & H2 & H3).
    destruct (IH (S idx)) as (I1 & I2 & I3).
    rewrite !filter_app, !length_app. cbn [List.length].
    destruct (fst (show_node idx n)).
    + repeat split; try lia. apply Forall_app. split.
      * eapply Forall_impl; [ | exact H3]. intros ev.
        apply line_ok_weaken; lia.
      * eapply Forall_impl; [ | exact I3]. intros ev.
        apply line_ok_weaken; lia.
    + simpl. repeat split; try lia. rewrite app_nil_r.
      eapply Forall_impl; [ | exact H3]. intros ev.
      apply line_ok_weaken; lia.
Qed.

Lemma failure_run_le (evs : list event) :
  (failure_run evs <= List.length evs)%nat.
Proof.
  induction evs as [ | ev evs IH]; [reflexivity |].
  destruct ev; simpl; lia.
Qed.

Lemma failure_run_app (a b : list event) :
  failure_run b = 0%nat -> failure_run (a ++ b) = failure_run a.
Proof.
  intros Hb. induction a as [ | ev a IH]; [exact Hb |].
  destruct ev; simpl; try reflexivity. rewrite IH. reflexivity.
Qed.

(** No more than [n] failure lines follow one another in an output: that
    holds of an output when it holds of its head and of its tail. *)
Lemma runs_cons (n : nat) (ev : event) (evs : list event) :
  (failure_run (ev :: evs) <= n)%nat ->
  (forall pre post, evs = pre ++ post -> (failure_run post <= n)%nat) ->
  forall pre post, ev :: evs = pre ++ post -> (failure_run post <= n)%nat.
Proof.
  intros Hh Ht [ | x pre] post E.
  - cbn [app] in E. subst post. exact Hh.
  - cbn [app] in E. injection E as _ E. exact (Ht pre post E).
Qed.

Lemma runs_app (n : nat) (a b : list event) :
  (forall pre post, a = pre ++ post -> (failure_run post <= n)%nat) ->
  (forall pre post, b = pre ++ post -> (failure_run post <= n)%nat) ->
  failure_run b = 0%nat ->
  forall pre post, a ++ b = pre ++ post -> (failure_run post <= n)%nat.
Proof.
  intros Ha Hb H0. induction a as [ | ev a IH]; [exact Hb |].
  cbn [app]. apply runs_cons.
  - change (ev :: a ++ b) with ((ev :: a) ++ b).
    rewrite (failure_run_app _ _ H0). exact (Ha [] (ev :: a) eq_refl).
  - apply IH. intros pre post E. apply (Ha (ev :: pre) post).
    rewrite E. reflexivity.
Qed.

Lemma failure_lines_length (l : list string) :
  (List.length
     (snd (for_each (fun line => if String.eqb (strip line) "" then ioret tt
                                 else emit (PrintFailureLine (strip line))) l))
   <= List.length l)%nat.
Proof.
  induction l as [ | line l IH]; cbn [for_each]; [reflexivity |].
  rewrite PageFacts.snd_iobind, length_app.
  destruct (String.eqb (strip line) ""); cbn [ioret emit fst snd List.length];
    lia.
Qed.

Lemma show_node_runs (idx : nat) (node : Node) :
  failure_run (snd (show_node idx node)) = 0%nat
  /\ forall pre post, snd (show_node idx node) = pre ++ post ->
                      (failure_run post <= 3)%nat.
Proof.
  unfold show_node. rewrite PageFacts.snd_iobind. cbn [lift fst snd app].
  destruct (get (target node) ["unknown"]) as [ | t ts].
  - split; [reflexivity |].
    intros [ | x pre] post E; [ | discriminate E].
    cbn [app] in E. subst post. cbn. lia.
  - rewrite PageFacts.snd_iobind. cbn [emit fst snd app].
    split; [reflexivity |]. apply runs_cons; [cbn; lia |].
    intros pre post E.
    match type of E with
    | snd (for_each ?f ?l) = _ =>
        pose proof (failure_lines_length l) as Hlen;
        assert (Hl : (List.length l <= 3)%nat)
    end.
    { destruct (String.eqb _ ""); [simpl; lia |].
      rewrite length_firstn. lia. }
    rewrite E, length_app in Hlen.
    pose proof (failure_run_le post). lia.
Qed.

Lemma show_nodes_runs (idx : nat) (l : list Node) :
  failure_run (snd (show_nodes idx l)) = 0%nat
  /\ forall pre post, snd (show_nodes idx l) = pre ++ post ->
                      (failure_run post <= 3)%nat.
Proof.
  revert idx. induction l as [ | n l IH]; intros idx; cbn [show_nodes].
  - split; [reflexivity |].
    intros [ | x pre] post E; [ | discriminate E].
    cbn [app] in E. subst post. cbn. lia.
  - rewrite PageFacts.snd_iobind.
    destruct (show_node_runs idx n) as [N0 N].
    assert (R : failure_run
                  match fst (show_node idx n) with
                  | Ok _ => snd (show_nodes (S idx) l)
                  | Raise _ => []
                  end = 0%nat
                /\ forall pre post,
                     match fst (show_node idx n) with
                     | Ok _ => snd (show_nodes (S idx) l)
                     | Raise _ => []
                     end = pre ++ post -> (failure_run post <= 3)%nat).
    { destruct (fst (show_node idx n)); [apply IH |].
      split; [reflexivity |].
      intros [ | x pre] post E; [ | discriminate E].
      cbn [app] in E. subst post. cbn. lia. }
    destruct R as [R0 R]. split.
    + rewrite (failure_run_app _ _ R0). exact N0.
    + apply runs_app; assumption.
Qed.

End DisplayFacts.

Import AccessibilityAudit.

(** X21: of a contrast violation at most five elements are displayed (and no
    more than it has nodes), numbered from 1 to 5, each with at most 80
    characters of its HTML; at most three lines of each failure summary are
    printed, that is, no more than three failure lines follow one another
    anywhere in the output, fifteen in all, and none of them is empty. *)
Theorem display_of_a_violation_is_bounded :
  forall v : Violation,
    let evs := snd (show_violation v) in
    (List.length (filter is_element_line evs)
     <= Nat.min 5 (List.length (get (nodes v) [])))%nat
    /\ (List.length (filter is_failure_line evs) <= 15)%nat
    /\ (forall pre post : list event,
          evs = pre ++ post -> (failure_run post <= 3)%nat)
    /\ (forall (idx : nat) (node : Node),
          (List.length (filter is_element_line (snd (show_node idx node)))
           <= 1)%nat
          /\ (List.length (filter is_failure_line (snd (show_node idx node)))
              <= 3)%nat)
    /\ Forall (fun ev => match ev with
                         | PrintElement idx _ html =>
                             (1 <= idx <= 5)%nat /\ (String.length html <= 80)%nat
                         | PrintFailureLine line => line <> ""
                         | _ => True
                         end) evs.
Proof.
  intros v. cbv zeta. unfold show_violation.
  rewrite PageFacts.snd_iobind. cbn [emit fst snd app].
  destruct (DisplayFacts.show_nodes_display 1 (firstn 5 (get (nodes v) [])))
    as (H1 & H2 & H3).
  destruct (DisplayFacts.show_nodes_runs 1 (firstn 5 (get (nodes v) [])))
    as (_ & H4).
  rewrite length_firstn in H1, H2, H3.
  cbn [filter is_element_line is_failure_line].
  split; [exact H1 |]. split; [lia |].
  split; [apply DisplayFacts.runs_cons; [cbn; lia | exact H4] |].
  split.
  { intros idx node.
    destruct (DisplayFacts.show_node_display idx node) as (N1 & N2 & _).
    split; assumption. }
  constructor; [exact I |].
  eapply Forall_impl; [ | exact H3].
  intros [ | | | | | | idx tgt h | | | | | ]; cbn [line_ok]; try tauto.
  intros [Hi Hh]. split; [lia | exact Hh].
Qed.

(** *** The list of contrast issues *)

(** X22: [analyze_contrast_issues] returns at most one issue for each entry, with
    at most 50 characters of text and 100 of HTML; it returns one for every
    entry exactly when no entry makes the body raise; and the issues of a
    list are those of its parts, in order. *)
Theorem contrast_issues_are_bounded :
  forall l : list Element,
    (List.length (analyze_contrast_issues l) <= List.length l)%nat
    /\ Forall (fun i => (String.length (issue_text i) <= 50)%nat
                        /\ (String.length (snippet i) <= 100)%nat)
              (analyze_contrast_issues l)
    /\ (List.length (analyze_contrast_issues l) = List.length l
        <-> Forall (fun elem => exists i, contrast_issue elem = Ok i) l)
    /\ forall l' : list Element,
         analyze_contrast_issues (l ++ l')
         = analyze_contrast_issues l ++ analyze_contrast_issues l'.
Proof.
  induction l as [ | elem l (IH1 & IH2 & IH3 & IH4)]; cbn [analyze_contrast_issues].
  - split; [simpl; lia |]. split; [constructor |].
    split; [split; [constructor | reflexivity] |]. reflexivity.
  - destruct (contrast_issue elem) as [i | e] eqn:Hc.
    + split; [simpl; lia |]. split; [ | split].
      * constructor; [ | exact IH2].
        destruct elem as [tag text html | ]; [ | discriminate Hc].
        cbn [contrast_issue] in Hc.
        destruct (get text (Str "")) as [t | n]; [ | discriminate Hc].
        destruct (get html (Str "")) as [h | n]; [ | discriminate Hc].
        cbn in Hc. injection Hc as <-. cbn [issue_text snippet].
        split; apply TextFacts.take_length.
      * cbn [List.length]. split.
        -- intros H. constructor; [exists i; exact Hc | apply IH3; lia].
        -- intros H. inversion H as [ | x xs _ Hl]; subst.
           apply IH3 in Hl. lia.
      * intros l'. cbn [app analyze_contrast_issues]. rewrite Hc, IH4.
        reflexivity.
    + split; [simpl; lia |]. split; [exact IH2 |]. split.
      * cbn [List.length]. split; [lia |].
        intros H. inversion H as [ | x xs [i Hi] _]; subst. congruence.
      * intros l'. cbn [app analyze_contrast_issues]. rewrite Hc. apply IH4.
Qed.

(** *** The counts of the audit *)

Module CountFacts.
Import AccessibilityAudit.

Lemma show_violations_counts (l : list Violation) :
  Forall counts_ok (snd (for_each show_violation l)).
Proof.
  induction l as [ | v l IH]; cbn [for_each]; [constructor |].
  rewrite PageFacts.snd_iobind. apply Forall_app. split.
  - unfold show_violation. rewrite PageFacts.snd_iobind. cbn [emit fst snd].
    constructor; [exact I |].
    generalize (firstn 5 (get (nodes v) [])). generalize 1%nat.
    intros idx ns. revert idx.
    induction ns as [ | n ns IHn]; intros idx; cbn [show_nodes]; [constructor |].
    rewrite PageFacts.snd_iobind. apply Forall_app. split.
    + unfold show_node. rewrite PageFacts.snd_iobind. cbn [lift fst snd app].
      destruct (get (target n) ["unknown"]) as [ | t ts]; [constructor |].
      rewrite PageFacts.snd_iobind. cbn [emit fst snd].
      constructor; [exact I |].
      match goal with |- context [for_each ?f ?l] => generalize l end.
      intros lines. induction lines as [ | line lines IHl]; cbn [for_each];
        [constructor |].
      rewrite PageFacts.snd_iobind. apply Forall_app. split.
      * destruct (String.eqb (strip line) ""); cbn [ioret emit snd];
          repeat constructor.
      * destruct (String.eqb (strip line) ""); cbn [ioret emit fst]; exact IHl.
    + destruct (fst (show_node idx n)); [apply IHn | constructor].
  - destruct (fst (show_violation v)); [exact IH | constructor].
Qed.

Lemma audit_page_counts (b : Browser) (fs : Files) (url name : string) :
  Forall counts_ok (snd (audit_page b fs url name))
  /\ forall r, fst (audit_page b fs url name) = Some r ->
               (contrast_violations r <= total_violations r)%nat.
Proof.
  unfold audit_page, audit_page_body.
  destruct (goto b url) as [page | e]; cbn [lift iobind];
    [ | split; [repeat constructor | discriminate]].
  destruct (mkdir fs reports_dir) as [[] | e]; cbn [lift iobind];
    [ | split; [repeat constructor | discriminate]].
  destruct (screenshot page _) as [[] | e]; cbn [lift iobind emit];
    [ | split; [repeat constructor | discriminate]].
  destruct (inject_axe page) as [[] | e]; cbn [lift iobind];
    [ | split; [repeat constructor | discriminate]].
  destruct (run_axe_audit page) as [[message | vs] | e];
    cbn [lift iobind emit ioret];
    [split; [repeat constructor | discriminate] |
     | split; [repeat constructor | discriminate]].
  destruct (open_w fs _) as [[] | e]; cbn [lift iobind emit];
    [ | split; [repeat constructor | discriminate]].
  pose proof (show_violations_counts
                (filter (fun v => contains "color-contrast" (get (id v) ""))
                   (get vs []))) as Hd.
  destruct (for_each show_violation _) as [[[] | e] evs];
    cbn [iobind ioret fst snd app] in *.
  - split.
    + repeat (constructor; [try exact I |]).
      * cbn [counts_ok]. apply filter_length_le.
      * rewrite app_nil_r. exact Hd.
    + intros r H. injection H as <-. cbn. apply filter_length_le.
  - split; [ | discriminate].
    repeat (constructor; [try exact I |]).
    + cbn [counts_ok]. apply filter_length_le.
    + apply Forall_app. split; [exact Hd | repeat constructor].
Qed.

Lemma audit_pages_counts (b : Browser) (fs : Files)
  (pages : list (string * string)) :
  Forall counts_ok (snd (audit_pages b fs pages))
  /\ Forall (fun r => (contrast_violations r <= total_violations r)%nat)
            (fst (audit_pages b fs pages)).
Proof.
  induction pages as [ | [url name] pages (IH1 & IH2)]; cbn [audit_pages].
  - split; constructor.
  - destruct (audit_page_counts b fs url name) as [H1 H2].
    destruct (audit_page b fs url name) as [result evs].
    destruct (audit_pages b fs pages) as [results evs'].
    cbn [fst snd] in *. split.
    + apply Forall_app. split; assumption.
    + destruct result as [r | ]; [ | exact IH2].
      constructor; [apply H2; reflexivity | exact IH2].
Qed.

Lemma sum_from (l : list nat) (a : nat) :
  fold_left Nat.add l a = (a + sum l)%nat.
Proof.
  unfold sum. revert a. induction l as [ | x l IH]; intros a; cbn [fold_left].
  - lia.
  - rewrite IH, (IH (0 + x)%nat). lia.
Qed.

Lemma sum_le (l : list PageResult) :
  Forall (fun r => (contrast_violations r <= total_violations r)%nat) l ->
  (sum (map contrast_violations l) <= sum (map total_violations l))%nat.
Proof.
  induction 1 as [ | r l Hr _ IH]; [reflexivity |].
  unfold sum in *. cbn [map fold_left]. rewrite !sum_from.
  unfold sum. lia.
Qed.

End CountFacts.

(** X23: no line of the audit shows more contrast violations than violations:
    not the counts of a page, not its line in the summary, and not the
    totals over all pages. *)
Theorem audit_counts_are_consistent :
  forall (pages : list (string * string)) (b : AccessibilityAudit.Browser)
         (fs : AccessibilityAudit.Files),
    Forall AccessibilityAudit.counts_ok
           (snd (AccessibilityAudit.main_with pages b fs)).
Proof.
  intros pages b fs. unfold AccessibilityAudit.main_with.
  destruct (AccessibilityAudit.launch b) as [[] | e]; [ | constructor].
  destruct (CountFacts.audit_pages_counts b fs pages) as [H1 H2].
  destruct (AccessibilityAudit.audit_pages b fs pages) as [results evs].
  cbn [fst snd] in *.
  destruct (AccessibilityAudit.close b) as [[] | e]; cbn [snd]; [ | exact H1].
  apply Forall_app. split; [exact H1 |].
  apply Forall_app. split.
  - apply Forall_map. eapply Forall_impl; [ | exact H2].
    intros r Hr. exact Hr.
  - constructor; [ | repeat constructor].
    cbn [AccessibilityAudit.counts_ok]. apply CountFacts.sum_le. exact H2.
Qed.

(** *** The ratio that is displayed *)

Module DisplayedRatio.



End DisplayedRatio.


